(** * acqua: the shared aquarium engine of the SSH aquarium server

    A shallow embedding of the Go packages [internal/aquarium]
    (fish.go, manager.go, update buffer), [internal/connection]
    (handler.go) and [internal/sshserver] (the requests of a session),
    and the properties of the specification checked against it.

    Conventions of the embedding.
    - Go [int] is a 64-bit two's complement integer: a [Z] kept in range
      by [GoInt.wrap64] after every operation that can overflow.
    - Go [uint64] identifiers and counters are [N], wrapped at [2^64].
    - Go [float64] is IEEE 754 binary64: Rocq's primitive [float], whose
      operations are the same correctly rounded operations.  Every
      operation is rounded on its own (no fused multiply-add, as the
      compiler does for amd64).
    - Go [string] is [string] (a sequence of bytes); a [[]byte] read
      from the channel is a [list Byte.byte].
    - [math/rand] is an input: every function that draws random numbers
      takes the values drawn as an argument.
    - [math.Cos] and [math.Sin] are library functions on [float64]; they
      are parameters of the development.
    - A Go map is a [gmap]; the order in which [range] visits it is an
      input (a list of keys).
    - The clock is an input: the time since the last tick, whether the
      status bar is due and the age of the aquarium are arguments of
      the tick.
    - Every operation of the manager is taken as a whole, one after the
      other, as under its lock.  A channel that is only ever closed
      ([animationStop], [done]) is a [bool]; closing a closed channel is
      a panic, and a panic is [None]. *)

From Stdlib Require Import ZArith NArith Lia Bool String Ascii List.
From Stdlib Require Import QArith Qround Qabs Qpower Lqa.
From Stdlib Require Import Floats.
From Stdlib Require Import DecimalString.
From Stdlib Require DecimalZ.
From stdpp Require Import base option list gmap.

Local Open Scope Z_scope.

(** ** Go integers *)

Module GoInt.

Definition minInt64 : Z := -9223372036854775808.
Definition maxInt64 : Z := 9223372036854775807.

(** Two's complement wrap-around of a mathematical integer to [int]. *)
Definition wrap64 (z : Z) : Z := (z + 2 ^ 63) mod 2 ^ 64 - 2 ^ 63.

Definition add (a b : Z) : Z := wrap64 (a + b).
Definition sub (a b : Z) : Z := wrap64 (a - b).
Definition mul (a b : Z) : Z := wrap64 (a * b).

(** [a / b] and [a % b] truncate toward zero and panic when [b = 0]. *)
Definition quot (a b : Z) : option Z :=
  if b =? 0 then None else Some (wrap64 (Z.quot a b)).
Definition rem (a b : Z) : option Z :=
  if b =? 0 then None else Some (Z.rem a b).

(** [uint64] arithmetic. *)
Definition wrapU64 (n : N) : N := (n mod 2 ^ 64)%N.

(** [int(x)] for a [uint32] value [x]: always in range. *)
Definition of_uint32 (n : N) : Z := Z.of_N (n mod 2 ^ 32)%N.

End GoInt.

(** ** Go float64 *)

Module GoFloat.

(** [float64(n)] for an [int]: the nearest binary64, ties to even. *)
Definition of_int (z : Z) : float :=
  SF2Prim (binary_normalize prec emax z 0 false).

(** [int(x)] for a [float64]: the fraction is discarded (truncation
    toward zero).  When the truncated value is not an [int] (too
    large, infinite, not a number) Go leaves the result to the
    implementation; the amd64 instruction yields the least [int]. *)
Definition to_int (x : float) : Z :=
  match Prim2SF x with
  | S754_zero _ => 0
  | S754_finite s m e =>
      let mag := if 0 <=? e then Z.shiftl (Zpos m) e
                 else Z.shiftr (Zpos m) (- e) in
      let v := if s then - mag else mag in
      if (GoInt.minInt64 <=? v) && (v <=? GoInt.maxInt64) then v
      else GoInt.minInt64
  | S754_infinity _ | S754_nan => GoInt.minInt64
  end.

(** Go's comparison operators on [float64]. *)
Definition gt (a b : float) : bool := PrimFloat.ltb b a.
Definition lt (a b : float) : bool := PrimFloat.ltb a b.
Definition ge (a b : float) : bool := PrimFloat.leb b a.
Definition le (a b : float) : bool := PrimFloat.leb a b.

(** [x == x]: [x] is a number (not NaN). *)
Definition isNum (x : float) : bool := PrimFloat.eqb x x.

(** [x] is neither infinite nor NaN. *)
Definition isFinite (x : float) : bool :=
  match Prim2SF x with
  | S754_zero _ | S754_finite _ _ _ => true
  | S754_infinity _ | S754_nan => false
  end.

(** The rational value of a finite [float64]. *)
Definition value (x : float) : option Q :=
  match Prim2SF x with
  | S754_zero _ => Some (0 # 1)%Q
  | S754_finite s m e =>
      let n := if s then Zneg m else Zpos m in
      Some (if 0 <=? e then (n * 2 ^ e # 1)%Q
            else (n # Z.to_pos (2 ^ (- e)))%Q)
  | S754_infinity _ | S754_nan => None
  end.

End GoFloat.

(** ** fish.go: constants and data *)

Definition ImagePixelWidth : Z := 64.
Definition ImagePixelHeight : Z := 36.
Definition BobbingAmplitude : float := 12%float.
Definition BobbingFrequency : float := 0x1.3333333333333p+2%float. (* 4.8 *)
Definition BubbleSpawnRate : float := 0x1.eb851eb851eb8p-5%float.  (* 0.06 *)
Definition BubbleSpeed : float := 240%float.

Record Bubble := mkBubble {
  X : float;
  Y : float;
  Char : string;
  Age : Z;
  PrevCol : Z;
  PrevRow : Z
}.

Record Fish := mkFish {
  ID : N;
  OwnerID : N;
  PlacementID : N;
  PosX : float;
  PosY : float;
  VelX : float;
  VelY : float;
  BobbingTime : float;
  Bubbles : list Bubble;
  LastImageID : Z;
  BubblesToClear : list (Z * Z);   (* struct{ Row, Col int } *)
  Username : string;
  Color : string
}.

Record TerminalConfig := mkTerminalConfig {
  Columns : Z;
  Rows : Z;
  CellWidth : Z;
  CellHeight : Z
}.

(** Field updates of a fish (assignments through the [*Fish] pointer). *)
Definition setPos (f : Fish) (x y : float) : Fish :=
  mkFish (ID f) (OwnerID f) (PlacementID f) x y (VelX f) (VelY f)
         (BobbingTime f) (Bubbles f) (LastImageID f) (BubblesToClear f)
         (Username f) (Color f).
Definition setPosX (f : Fish) (x : float) : Fish := setPos f x (PosY f).
Definition setPosY (f : Fish) (y : float) : Fish := setPos f (PosX f) y.
Definition setVel (f : Fish) (vx vy : float) : Fish :=
  mkFish (ID f) (OwnerID f) (PlacementID f) (PosX f) (PosY f) vx vy
         (BobbingTime f) (Bubbles f) (LastImageID f) (BubblesToClear f)
         (Username f) (Color f).
Definition setVelX (f : Fish) (vx : float) : Fish := setVel f vx (VelY f).
Definition setVelY (f : Fish) (vy : float) : Fish := setVel f (VelX f) vy.
Definition setBobbingTime (f : Fish) (t : float) : Fish :=
  mkFish (ID f) (OwnerID f) (PlacementID f) (PosX f) (PosY f) (VelX f)
         (VelY f) t (Bubbles f) (LastImageID f) (BubblesToClear f)
         (Username f) (Color f).
Definition setBubbles (f : Fish) (bs : list Bubble) : Fish :=
  mkFish (ID f) (OwnerID f) (PlacementID f) (PosX f) (PosY f) (VelX f)
         (VelY f) (BobbingTime f) bs (LastImageID f) (BubblesToClear f)
         (Username f) (Color f).
Definition setLastImageID (f : Fish) (i : Z) : Fish :=
  mkFish (ID f) (OwnerID f) (PlacementID f) (PosX f) (PosY f) (VelX f)
         (VelY f) (BobbingTime f) (Bubbles f) i (BubblesToClear f)
         (Username f) (Color f).
Definition setBubblesToClear (f : Fish) (cs : list (Z * Z)) : Fish :=
  mkFish (ID f) (OwnerID f) (PlacementID f) (PosX f) (PosY f) (VelX f)
         (VelY f) (BobbingTime f) (Bubbles f) (LastImageID f) cs
         (Username f) (Color f).

(** The glyphs of a bubble, and [bubbleChars[rand.Intn(len(bubbleChars))]]
    for a raw draw [r]. *)
Definition bubbleChars : list string := ["°"; "o"; "O"; "•"]%string.
Definition Intn (r : nat) (n : nat) : nat := (r mod n)%nat.
Definition pickChar (r : nat) : string :=
  nth (Intn r (length bubbleChars)) bubbleChars EmptyString.

(** ** fish.go: Update *)

(** The random numbers one call of [Update] draws: [rand.Float64()] of
    the spawn test and [rand.Intn] of [spawnBubble]. *)
Record UpdateRand := mkUpdateRand {
  spawnRoll : float;
  spawnGlyph : nat
}.

Definition termPixelWidth (config : TerminalConfig) : float :=
  GoFloat.of_int (GoInt.mul (Columns config) (CellWidth config)).
Definition termPixelHeight (config : TerminalConfig) : float :=
  GoFloat.of_int (GoInt.mul (Rows config) (CellHeight config)).

(** The height left to the fish above the floor tiles and the status
    bar, as [Update] computes it (in [float64]). *)
Definition usableHeight (config : TerminalConfig) : float :=
  let ch := GoFloat.of_int (CellHeight config) in
  let tilePixelSize := 48%float in
  let tileHeight := ((tilePixelSize + ch - 1) / ch)%float in
  let floorHeight := (tileHeight * ch)%float in
  let statusHeight := ch in
  (termPixelHeight config - floorHeight - statusHeight)%float.

Definition spawnBubble (f : Fish) (glyph : nat) : Fish :=
  let bubble := mkBubble (PosX f + 32)%float (PosY f - 2)%float
                         (pickChar glyph) 0 0 0 in
  setBubbles f (Bubbles f ++ [bubble]).

(** The loop of [updateBubbles]: the bubbles kept, and the cells to
    clear appended to [toClear]. *)
Fixpoint updateBubblesLoop (deltaTime : float) (bs : list Bubble)
    (toClear : list (Z * Z)) : list Bubble * list (Z * Z) :=
  match bs with
  | [] => ([], toClear)
  | b :: rest =>
      let b' := mkBubble (X b) (Y b - BubbleSpeed * deltaTime)%float (Char b)
                         (GoInt.add (Age b) 1) (PrevCol b) (PrevRow b) in
      if GoFloat.ge (Y b') 0%float then
        let '(active, toClear') := updateBubblesLoop deltaTime rest toClear in
        (b' :: active, toClear')
      else
        let toClear1 :=
          if (0 <? PrevCol b') && (0 <? PrevRow b')
          then toClear ++ [(PrevRow b', PrevCol b')] else toClear in
        updateBubblesLoop deltaTime rest toClear1
  end.

Definition updateBubbles (f : Fish) (config : TerminalConfig)
    (deltaTime : float) : Fish :=
  let '(active, toClear) :=
    updateBubblesLoop deltaTime (Bubbles f) (BubblesToClear f) in
  setBubblesToClear (setBubbles f active) toClear.

(** [f.PosX += f.VelX * deltaTime; f.PosY += f.VelY * deltaTime] *)
Definition integrate (f : Fish) (deltaTime : float) : Fish :=
  setPos f (PosX f + VelX f * deltaTime)%float
           (PosY f + VelY f * deltaTime)%float.

(** Wall bouncing, horizontal. *)
Definition bounceX (f : Fish) (config : TerminalConfig) : Fish :=
  let w := termPixelWidth config in
  if GoFloat.gt (PosX f + 64)%float w then
    setPosX (setVelX f (- abs (VelX f))%float) (w - 64)%float
  else if GoFloat.lt (PosX f) 0%float then
    setPosX (setVelX f (abs (VelX f))) 0%float
  else f.

(** Wall bouncing, vertical: the fish stays above the floor. *)
Definition bounceY (f : Fish) (config : TerminalConfig) : Fish :=
  let u := usableHeight config in
  if GoFloat.gt (PosY f + 36)%float u then
    setPosY (setVelY f (- abs (VelY f))%float) (u - 36)%float
  else if GoFloat.lt (PosY f) 0%float then
    setPosY (setVelY f (abs (VelY f))) 0%float
  else f.

Definition Update (f : Fish) (config : TerminalConfig) (deltaTime : float)
    (rnd : UpdateRand) : Fish :=
  let f1 := integrate f deltaTime in
  let f2 := bounceX f1 config in
  let f3 := bounceY f2 config in
  let f4 := setBobbingTime f3 (BobbingTime f3 + BobbingFrequency * deltaTime)%float in
  let f5 := if GoFloat.lt (spawnRoll rnd) (BubbleSpawnRate * deltaTime)%float
            then spawnBubble f4 (spawnGlyph rnd) else f4 in
  updateBubbles f5 config deltaTime.

(** ** fmt.Sprintf and the update buffer (the buffer of rendered commands) *)

(** [%d] of an [int] or [uint64]. *)
Definition fmt_d (z : Z) : string := NilZero.string_of_int (Z.to_int z).
Definition fmt_u (n : N) : string := fmt_d (Z.of_N n).

Definition ESC : string := String "027"%char EmptyString.
(** The string terminator [ESC \]. *)
Definition ST : string := (ESC ++ "\")%string.

Record UpdateBuffer := mkUpdateBuffer { commands : list string }.

Definition NewUpdateBuffer : UpdateBuffer := mkUpdateBuffer [].

Definition push (b : UpdateBuffer) (c : string) : UpdateBuffer :=
  mkUpdateBuffer (commands b ++ [c]).

Definition cursorCmd (row col : Z) : string :=
  (ESC ++ "[" ++ fmt_d row ++ ";" ++ fmt_d col ++ "H")%string.

Definition AddClearCell (b : UpdateBuffer) (row col : Z) : UpdateBuffer :=
  push b (cursorCmd row col ++ " ")%string.

Definition AddText (b : UpdateBuffer) (row col : Z) (text : string)
    : UpdateBuffer :=
  push b (cursorCmd row col ++ text)%string.

Definition placementCmd (imageID : Z) (placementID : N)
    (width height xOffset yOffset : Z) : string :=
  (ESC ++ "_Ga=p,i=" ++ fmt_d imageID ++ ",p=" ++ fmt_u placementID
       ++ ",c=" ++ fmt_d width ++ ",r=" ++ fmt_d height
       ++ ",C=1,X=" ++ fmt_d xOffset ++ ",Y=" ++ fmt_d yOffset
       ++ ",q=1" ++ ST)%string.

Definition AddFishPlacement (b : UpdateBuffer) (row col imageID : Z)
    (placementID : N) (width height xOffset yOffset : Z) : UpdateBuffer :=
  push (push b (cursorCmd row col))
       (placementCmd imageID placementID width height xOffset yOffset).

Definition deleteCmd (imageID : Z) (placementID : N) : string :=
  (ESC ++ "_Ga=d,d=i,i=" ++ fmt_d imageID ++ ",p=" ++ fmt_u placementID
       ++ ",q=1" ++ ST)%string.

Definition AddDeletePlacement (b : UpdateBuffer) (imageID : Z)
    (placementID : N) : UpdateBuffer :=
  push b (deleteCmd imageID placementID).

(** [strings.Join(l, sep)] with the empty separator. *)
Definition joinStrings (l : list string) : string :=
  fold_right String.append EmptyString l.

(** [b.String()], that is [strings.Join(b.commands, sep)] with the empty
    separator. *)
Definition String_ (b : UpdateBuffer) : string := joinStrings (commands b).

(** ** fish.go: Render, CheckCollision, OnClick, NewFish *)

(** The bobbing offset: the [switch] on [int(f.BobbingTime) % 4] that
    [Render] and [CheckCollision] both contain.  A step outside
    [0..3] (a negative remainder) matches no case and leaves [0.0]. *)
Definition bobbingOffset (f : Fish) : float :=
  let step := Z.rem (GoFloat.to_int (BobbingTime f)) 4 in
  if step =? 0 then 0%float
  else if step =? 1 then (BobbingAmplitude / 2)%float
  else if step =? 2 then BobbingAmplitude
  else if step =? 3 then (BobbingAmplitude / 2)%float
  else 0%float.

(** The sprite variant: 1 is left-facing, 2 is right-facing. *)
Definition imageIDOf (f : Fish) : Z :=
  if GoFloat.gt (VelX f) 0%float then 2 else 1.

(** The loop of [Render] over the bubbles. *)
Fixpoint renderBubbles (config : TerminalConfig) (bs : list Bubble)
    (buf : UpdateBuffer) : list Bubble * UpdateBuffer :=
  match bs with
  | [] => ([], buf)
  | b :: rest =>
      let buf1 := if (0 <? PrevCol b) && (0 <? PrevRow b)
                  then AddClearCell buf (PrevRow b) (PrevCol b) else buf in
      let bubbleCol :=
        GoInt.add (GoFloat.to_int (X b / GoFloat.of_int (CellWidth config))) 1 in
      let bubbleRow :=
        GoInt.add (GoFloat.to_int (Y b / GoFloat.of_int (CellHeight config))) 1 in
      if (1 <=? bubbleCol) && (bubbleCol <=? Columns config)
         && (1 <=? bubbleRow) && (bubbleRow <=? Rows config)
      then
        let buf2 := AddText buf1 bubbleRow bubbleCol (Char b) in
        let b' := mkBubble (X b) (Y b) (Char b) (Age b) bubbleCol bubbleRow in
        let '(rest', buf3) := renderBubbles config rest buf2 in
        (b' :: rest', buf3)
      else
        let '(rest', buf3) := renderBubbles config rest buf1 in
        (b :: rest', buf3)
  end.

(** [Render] appends the commands of one fish to the buffer and records
    the variant it drew.  [None] is the run-time panic of an integer
    division by zero (a cell width or height of 0). *)
Definition Render (f : Fish) (buf : UpdateBuffer) (config : TerminalConfig)
    : option (Fish * UpdateBuffer) :=
  let buf1 := fold_left (fun b rc => AddClearCell b (fst rc) (snd rc))
                        (BubblesToClear f) buf in
  let f1 := setBubblesToClear f [] in
  let finalY := (PosY f1 + bobbingOffset f1)%float in
  let col :=
    GoInt.add (GoFloat.to_int (PosX f1 / GoFloat.of_int (CellWidth config))) 1 in
  xOffset ← GoInt.rem (GoFloat.to_int (PosX f1)) (CellWidth config);
  let row :=
    GoInt.add (GoFloat.to_int (finalY / GoFloat.of_int (CellHeight config))) 1 in
  yOffset ← GoInt.rem (GoFloat.to_int finalY) (CellHeight config);
  let '(bs, buf2) := renderBubbles config (Bubbles f1) buf1 in
  let f2 := setBubbles f1 bs in
  let imageID := imageIDOf f2 in
  let buf3 := if negb (LastImageID f2 =? 0) && negb (LastImageID f2 =? imageID)
              then AddDeletePlacement buf2 (LastImageID f2) (PlacementID f2)
              else buf2 in
  let f3 := setLastImageID f2 imageID in
  imageCellWidth ←
    GoInt.quot (GoInt.sub (GoInt.add ImagePixelWidth (CellWidth config)) 1)
               (CellWidth config);
  imageCellHeight ←
    GoInt.quot (GoInt.sub (GoInt.add ImagePixelHeight (CellHeight config)) 1)
               (CellHeight config);
  Some (f3, AddFishPlacement buf3 row col imageID (PlacementID f3)
                             imageCellWidth imageCellHeight xOffset yOffset).

Definition CheckCollision (f : Fish) (mouseX mouseY : Z) : bool :=
  let finalY := (PosY f + bobbingOffset f)%float in
  (GoFloat.to_int (PosX f) <=? mouseX)
  && (mouseX <=? GoInt.add (GoFloat.to_int (PosX f)) ImagePixelWidth)
  && (GoFloat.to_int finalY <=? mouseY)
  && (mouseY <=? GoInt.add (GoFloat.to_int finalY) ImagePixelHeight).

(** The random numbers one call of [OnClick] draws: for the bubble of
    index [i] the [rand.Float64()] of its spread and the [rand.Intn] of
    its glyph, then the [rand.Intn] of the angle. *)
Record ClickRand := mkClickRand {
  spread : nat -> float;
  glyph : nat -> nat;
  angleDraw : nat
}.

(** [math.Pi] as a [float64]. *)
Definition Pi : float := 0x1.921fb54442d18p+1%float.

Definition angles : list float := [90%float; 180%float; 260%float].

Definition clickBubble (f : Fish) (rnd : ClickRand) (i : nat) : Bubble :=
  mkBubble (PosX f + 32 + (spread rnd i - 0.5) * 20)%float
           (PosY f - 2 - GoFloat.of_int (GoInt.mul (Z.of_nat i) 5))%float
           (pickChar (glyph rnd i)) 0 0 0.

Section Trigonometry.

(** [math.Cos] and [math.Sin]. *)
Variables Cos Sin : float -> float.

Definition OnClick (f : Fish) (rnd : ClickRand) : Fish :=
  let f1 := fold_left (fun g i => setBubbles g (Bubbles g ++ [clickBubble f rnd i]))
                      [0%nat; 1%nat; 2%nat] f in
  let randomAngle := nth (Intn (angleDraw rnd) (length angles)) angles 0%float in
  let radians := (randomAngle * Pi / 180)%float in
  let newVelX := (VelX f1 * Cos radians - VelY f1 * Sin radians)%float in
  let newVelY := (VelX f1 * Sin radians + VelY f1 * Cos radians)%float in
  setVel f1 newVelX newVelY.

End Trigonometry.

(** The five [rand.Float64()] draws of [NewFish], in the order of the
    fields of the struct literal. *)
Record NewFishRand := mkNewFishRand {
  rPosX : float; rPosY : float; rVelX : float; rVelY : float; rBob : float
}.

(** [NewFish]; [None] is the panic of the integer division by a cell
    height of 0. *)
Definition NewFish (id ownerID : N)
    (termWidth termHeight cellWidth cellHeight : Z)
    (username color : string) (rnd : NewFishRand) : option Fish :=
  let tilePixelSize := 48 in
  tileHeight ←
    GoInt.quot (GoInt.sub (GoInt.add tilePixelSize cellHeight) 1) cellHeight;
  let floorHeight := GoInt.mul tileHeight cellHeight in
  let statusHeight := cellHeight in
  let usable := GoInt.sub (GoInt.sub termHeight floorHeight) statusHeight in
  Some (mkFish id ownerID id
    (rPosX rnd * GoFloat.of_int (GoInt.sub termWidth ImagePixelWidth))%float
    (rPosY rnd * GoFloat.of_int (GoInt.sub usable ImagePixelHeight))%float
    ((rVelX rnd - 0.5) * 0x1.3333333333333p+2 * GoFloat.of_int cellWidth)%float
    ((rVelY rnd - 0.5) * 0x1.3333333333333p+0 * GoFloat.of_int cellHeight)%float
    (rBob rnd * 100)%float
    [] 0 [] username color).

(** ** manager.go: the aquarium manager *)

(** A registered connection.  Its [Stream] (the outbound byte sink) takes
    no part in the state the manager keeps and is left out. *)
Record Connection := mkConnection {
  ConnID : N;
  FishIDs : list N;
  ConnUsername : string
}.

(** The aquarium of an epoch; its time stamps are left out. *)
Record Aquarium := mkAquarium {
  FloorTileID : Z;
  FloorRendered : bool
}.

(** The manager.  [animationStop] is [true] when the channel of that
    name is not [nil], that is, while the animation loop runs. *)
Record Manager := mkManager {
  fish : gmap N Fish;
  connections : gmap N Connection;
  termConfig : option TerminalConfig;
  animationStop : bool;
  fishCounter : N;
  connCounter : N;
  debugMode : bool;
  aquarium : option Aquarium
}.

Definition NewManager : Manager :=
  mkManager ∅ ∅ None false 0 0 false None.

(** [AddConnection]; [floorDraw] is its [rand.Intn(6)]. *)
Definition AddConnection (m : Manager) (username : string) (floorDraw : nat)
    : Manager * N :=
  let connID := GoInt.wrapU64 (connCounter m + 1) in
  let conn := mkConnection connID [] username in
  let conns := <[connID := conn]> (connections m) in
  let isFirst := bool_decide (size conns = 1%nat) in
  let aq := if isFirst
            then Some (mkAquarium (Z.of_nat (Intn floorDraw 6)) false)
            else aquarium m in
  (mkManager (fish m) conns (termConfig m) (animationStop m)
             (fishCounter m) connID (debugMode m) aq, connID).

(** The loop of [RemoveConnection] over the fish of the connection
    ([createPoofEffect] has an empty body). *)
Definition removeFish (fs : gmap N Fish) (ids : list N) : gmap N Fish :=
  fold_left (fun acc fishID =>
               match acc !! fishID with
               | Some _ => delete fishID acc
               | None => acc
               end) ids fs.

(** [RemoveConnection]: the state it leaves when it returns.  (With the
    lock held it closes [animationStop] and waits for the animation
    goroutine, which in a tick may itself be waiting for the lock:
    whether the call returns is a matter of scheduling, which this
    sequential model leaves out.) *)
Definition RemoveConnection (m : Manager) (connID : N) : Manager :=
  match connections m !! connID with
  | None => m
  | Some conn =>
      let fs := removeFish (fish m) (FishIDs conn) in
      let conns := delete connID (connections m) in
      if bool_decide (size conns = 0%nat) && animationStop m then
        mkManager fs conns None false 0 (connCounter m) (debugMode m) None
      else
        mkManager fs conns (termConfig m) (animationStop m) (fishCounter m)
                  (connCounter m) (debugMode m) (aquarium m)
  end.

Definition SetTerminalConfig (m : Manager) (config : TerminalConfig) : Manager :=
  mkManager (fish m) (connections m) (Some config) (animationStop m)
            (fishCounter m) (connCounter m) (debugMode m) (aquarium m).

Definition GetTerminalConfig (m : Manager) : option TerminalConfig :=
  termConfig m.

Definition StartAnimation (m : Manager) : Manager :=
  if animationStop m then m
  else mkManager (fish m) (connections m) (termConfig m) true
                 (fishCounter m) (connCounter m) (debugMode m) (aquarium m).

(** [AddFish]: one fish whatever [count] is.  The outer [option] is the
    panic of [NewFish]; the list is the slice returned ([nil] when the
    connection or the configuration is missing).  This manager passes a
    user name and no colour to [NewFish]; the colour is the empty
    string here. *)
Definition AddFish (m : Manager) (connID : N) (count : Z) (rnd : NewFishRand)
    : option (Manager * list N) :=
  match connections m !! connID, termConfig m with
  | Some conn, Some cfg =>
      let termPixelWidth := GoInt.mul (Columns cfg) (CellWidth cfg) in
      let termPixelHeight := GoInt.mul (Rows cfg) (CellHeight cfg) in
      let fishID := GoInt.wrapU64 (fishCounter m + 1) in
      newFish ← NewFish fishID connID termPixelWidth termPixelHeight
                        (CellWidth cfg) (CellHeight cfg)
                        (ConnUsername conn) EmptyString rnd;
      let conn' := mkConnection (ConnID conn) (FishIDs conn ++ [fishID])
                                (ConnUsername conn) in
      Some (mkManager (<[fishID := newFish]> (fish m))
                      (<[connID := conn']> (connections m))
                      (termConfig m) (animationStop m) fishID
                      (connCounter m) (debugMode m) (aquarium m),
            [fishID])
  | _, _ => Some (m, [])
  end.

Definition GetFishCount (m : Manager) : nat := size (fish m).

Definition Stop (m : Manager) : Manager :=
  mkManager ∅ ∅ None false 0 0 (debugMode m) (aquarium m).

Section Click.

Variables Cos Sin : float -> float.

(** The loop of [HandleMouseClick] over the fish, visited in the order
    [order]: a colliding fish of another connection is skipped
    ([continue]); the first colliding fish of the connection is
    clicked and ends the loop ([break]). *)
Fixpoint clickLoop (connID : N) (mouseX mouseY : Z) (rnd : ClickRand)
    (fs : gmap N Fish) (order : list N) : gmap N Fish :=
  match order with
  | [] => fs
  | k :: rest =>
      match fs !! k with
      | None => clickLoop connID mouseX mouseY rnd fs rest
      | Some f =>
          if CheckCollision f mouseX mouseY then
            if negb (OwnerID f =? connID)%N then
              clickLoop connID mouseX mouseY rnd fs rest
            else <[k := OnClick Cos Sin f rnd]> fs
          else clickLoop connID mouseX mouseY rnd fs rest
      end
  end.

Definition HandleMouseClick (m : Manager) (connID : N) (button col row : Z)
    (order : list N) (rnd : ClickRand) : Manager :=
  match termConfig m with
  | None => m
  | Some cfg =>
      if negb (button =? 0) then m
      else
        let mouseX := GoInt.mul (GoInt.sub col 1) (CellWidth cfg) in
        let mouseY := GoInt.mul (GoInt.sub row 1) (CellHeight cfg) in
        mkManager (clickLoop connID mouseX mouseY rnd (fish m) order)
                  (connections m) (termConfig m) (animationStop m)
                  (fishCounter m) (connCounter m) (debugMode m) (aquarium m)
  end.

End Click.

(** ** handler.go: the connection handler *)

(** The fields of the handler that describe the terminal. *)
Record Handler := mkHandler {
  connID : N;
  termColumns : Z;
  termRows : Z;
  cellWidth : Z;
  cellHeight : Z
}.

(** [connection.New] *)
Definition New : Handler := mkHandler 0 80 24 8 16.

(** [SetTerminal] and [Resize], with their [uint32] arguments. *)
Definition SetTerminal (h : Handler) (columns rows : N) : Handler :=
  mkHandler (connID h) (GoInt.of_uint32 columns) (GoInt.of_uint32 rows)
            (cellWidth h) (cellHeight h).
Definition Resize (h : Handler) (columns rows : N) : Handler :=
  mkHandler (connID h) (GoInt.of_uint32 columns) (GoInt.of_uint32 rows)
            (cellWidth h) (cellHeight h).

(** What the [select] of [detectTerminalAndInit] receives: the slice
    sent by [readTerminalResponse] ([pixelWidth; pixelHeight], or [nil]
    after a read error or an overlong answer), or the timeout. *)
Inductive DetectOutcome :=
| Responded (dims : list Z)
| TimedOut.

(** The [select] statement of [detectTerminalAndInit]. *)
Definition detectTerminal (h : Handler) (o : DetectOutcome) : Handler :=
  match o with
  | Responded [pixelWidth; pixelHeight] =>
      if (0 <? termColumns h) && (0 <? termRows h) then
        mkHandler (connID h) (termColumns h) (termRows h)
                  (GoInt.wrap64 (Z.quot pixelWidth (termColumns h)))
                  (GoInt.wrap64 (Z.quot pixelHeight (termRows h)))
      else h
  | Responded _ => h
  | TimedOut => h
  end.

Definition handlerConfig (h : Handler) : TerminalConfig :=
  mkTerminalConfig (termColumns h) (termRows h) (cellWidth h) (cellHeight h).

(** [initializeAquarium] on the manager (the upload of the images writes
    to the channel only). *)
Definition initializeAquarium (h : Handler) (m : Manager) (rnd : NewFishRand)
    : option (Manager * list N) :=
  let config := handlerConfig h in
  let m1 := match GetTerminalConfig m with
            | None => StartAnimation (SetTerminalConfig m config)
            | Some _ => m
            end in
  AddFish m1 (connID h) 1 rnd.

Definition detectTerminalAndInit (h : Handler) (m : Manager)
    (o : DetectOutcome) (rnd : NewFishRand)
    : Handler * option (Manager * list N) :=
  let h' := detectTerminal h o in
  (h', initializeAquarium h' m rnd).

(** [Start]: registration, then detection and initialisation. *)
Definition Start (h : Handler) (m : Manager) (username : string)
    (floorDraw : nat) (o : DetectOutcome) (rnd : NewFishRand)
    : Handler * option (Manager * list N) :=
  let '(m1, id) := AddConnection m username floorDraw in
  let h1 := mkHandler id (termColumns h) (termRows h) (cellWidth h)
                      (cellHeight h) in
  detectTerminalAndInit h1 m1 o rnd.

(** ** handler.go: uploadImage *)

Module Base64.

(** [base64.StdEncoding]: the standard alphabet, [=] padding. *)
Definition alphabet : string :=
  "ABCDEFGHIJKLMNOPQRSTUVWXYZabcdefghijklmnopqrstuvwxyz0123456789+/".

Definition enc (i : N) : ascii :=
  match String.get (N.to_nat i) alphabet with
  | Some c => c
  | None => "="%char
  end.

Definition b (x : Byte.byte) : N := Byte.to_N x.

Fixpoint EncodeToString (data : list Byte.byte) : string :=
  match data with
  | [] => EmptyString
  | [x] =>
      let n := (b x * 65536)%N in
      String (enc (n / 262144)) (String (enc (n / 4096 mod 64)) "==")
  | [x; y] =>
      let n := (b x * 65536 + b y * 256)%N in
      String (enc (n / 262144)) (String (enc (n / 4096 mod 64))
        (String (enc (n / 64 mod 64)) "="))
  | x :: y :: z :: rest =>
      let n := (b x * 65536 + b y * 256 + b z)%N in
      String (enc (n / 262144)) (String (enc (n / 4096 mod 64))
        (String (enc (n / 64 mod 64)) (String (enc (n mod 64))
          (EncodeToString rest))))
  end.

End Base64.

Definition chunkSize : nat := 4096.

Definition btoi (b : bool) : Z := if b then 1 else 0.

(** One frame of an upload: the control data and the payload. *)
Record Frame := mkFrame {
  control : string;
  payload : string
}.

(** The bytes written for a frame. *)
Definition frameBytes (fr : Frame) : string :=
  (ESC ++ "_G" ++ control fr ++ ";" ++ payload fr ++ ST)%string.

(** The loop of [uploadImage] from index [i]; [fuel] bounds the number of
    iterations. *)
Fixpoint uploadLoop (fuel : nat) (i : nat) (base64Data : string) (imageID : Z)
    : list Frame :=
  match fuel with
  | O => []
  | S fuel' =>
      let len := String.length base64Data in
      if (i <? len)%nat then
        let chunk := substring i (Nat.min (i + chunkSize) len - i) base64Data in
        let isFirst := (i =? 0)%nat in
        let hasMore := (i + chunkSize <? len)%nat in
        let command :=
          if isFirst
          then ("a=t,f=100,i=" ++ fmt_d imageID ++ ",m="
                 ++ fmt_d (btoi hasMore) ++ ",q=1")%string
          else ("m=" ++ fmt_d (btoi hasMore))%string in
        mkFrame command chunk
          :: uploadLoop fuel' (i + chunkSize) base64Data imageID
      else []
  end.

(** The frames of [uploadImage], in the order they are written.  The loop
    advances by [chunkSize] at each turn, so the length of the text is
    fuel enough. *)
Definition uploadFrames (data : list Byte.byte) (imageID : Z) : list Frame :=
  let base64Data := Base64.EncodeToString data in
  uploadLoop (String.length base64Data) 0 base64Data imageID.

Definition uploadImage (data : list Byte.byte) (imageID : Z) : list string :=
  map frameBytes (uploadFrames data imageID).

(** ** manager.go: SetDebugMode *)

Definition SetDebugMode (m : Manager) (debug : bool) : Manager :=
  mkManager (fish m) (connections m) (termConfig m) (animationStop m)
            (fishCounter m) (connCounter m) debug (aquarium m).

(** ** manager.go: the floor and the status bar *)

(** The arguments of one call of [AddFloorTilePlacement]. *)
Record FloorTile := mkFloorTile {
  tileRow : Z;
  tileCol : Z;
  tileImage : Z;
  tilePlacement : N;
  tileCols : Z;
  tileRows : Z
}.

(** The loop of [renderFloor] from index [i]: the calls it makes, in
    order.  [fuel] bounds the number of turns. *)
Fixpoint floorLoop (fuel : nat) (i tilesNeeded tileWidth tileHeight floorRow
    floorImageID columns : Z) : list FloorTile :=
  match fuel with
  | O => []
  | S fuel' =>
      if i <? tilesNeeded then
        let col := GoInt.add (GoInt.mul i tileWidth) 1 in
        let rest := floorLoop fuel' (GoInt.add i 1) tilesNeeded tileWidth
                              tileHeight floorRow floorImageID columns in
        if col <=? columns then
          let placementID := Z.to_N (GoInt.add 1000 i mod 2 ^ 64) in
          mkFloorTile floorRow col floorImageID placementID tileWidth
                      tileHeight :: rest
        else rest
      else []
  end.

(** The tiles [renderFloor] places; [None] is the panic of a division
    by zero. *)
Definition floorTiles (config : TerminalConfig) (aquarium : Aquarium)
    : option (list FloorTile) :=
  let tilePixelSize := 48 in
  tileWidth ←
    GoInt.quot (GoInt.sub (GoInt.add tilePixelSize (CellWidth config)) 1)
               (CellWidth config);
  tileHeight ←
    GoInt.quot (GoInt.sub (GoInt.add tilePixelSize (CellHeight config)) 1)
               (CellHeight config);
  let floorRow := if 1 <? tileHeight then GoInt.sub (Rows config) tileHeight
                  else GoInt.sub (Rows config) 1 in
  tilesNeeded ←
    GoInt.quot (GoInt.sub (GoInt.add (Columns config) tileWidth) 1) tileWidth;
  let floorImageID := GoInt.add 10 (FloorTileID aquarium) in
  Some (floorLoop (Z.to_nat tilesNeeded) 0 tilesNeeded tileWidth tileHeight
                  floorRow floorImageID (Columns config)).

(** Where [renderStatus] writes the name of a user whose fish is
    centred on column [fishCol], and what it writes of it; [None] is the
    panic of a slice bound below zero. *)
Definition placeLabel (columns fishCol : Z) (name : string)
    : option (Z * string) :=
  let username := if (12 <? String.length name)%nat then substring 0 12 name
                  else name in
  let len := Z.of_nat (String.length username) in
  let start := GoInt.sub fishCol (Z.quot len 2) in
  let start := if start <? 1 then 1 else start in
  if columns <? GoInt.sub (GoInt.add start len) 1 then
    let start := GoInt.add (GoInt.sub columns len) 1 in
    if start <? 1 then
      if columns <? len then
        if columns <? 0 then None
        else Some (1, substring 0 (Z.to_nat columns) username)
      else Some (1, username)
    else Some (start, username)
  else Some (start, username).

Definition usernameLabel (config : TerminalConfig) (f : Fish)
    : option (Z * string) :=
  let fishCenterX := (PosX f + 32)%float in
  let fishCol :=
    GoInt.add (GoFloat.to_int (fishCenterX / GoFloat.of_int (CellWidth config)))
              1 in
  placeLabel (Columns config) fishCol (Username f).

Section FloorAndStatus.

(** [AddFloorTilePlacement] and [AddStatusText] are methods of the
    update buffer that the buffer at hand does not have; they are
    parameters. *)
Variable AddFloorTilePlacement :
  UpdateBuffer -> Z -> Z -> Z -> N -> Z -> Z -> UpdateBuffer.
Variable AddStatusText : UpdateBuffer -> Z -> Z -> string -> UpdateBuffer.

Definition renderFloor (buf : UpdateBuffer) (config : TerminalConfig)
    (aquarium : Aquarium) : option UpdateBuffer :=
  tiles ← floorTiles config aquarium;
  Some (fold_left
          (fun b t => AddFloorTilePlacement b (tileRow t) (tileCol t)
                        (tileImage t) (tilePlacement t) (tileCols t)
                        (tileRows t))
          tiles buf).

(** The loop of [renderStatus] over the fish. *)
Fixpoint statusLabels (buf : UpdateBuffer) (config : TerminalConfig)
    (fishData : list Fish) : option UpdateBuffer :=
  match fishData with
  | [] => Some buf
  | f :: rest =>
      '(col, text) ← usernameLabel config f;
      statusLabels (AddStatusText buf (Rows config) col text) config rest
  end.

(** [renderStatus]; [durationStr] is [formatDuration] of the time since
    the aquarium was created. *)
Definition renderStatus (buf : UpdateBuffer) (config : TerminalConfig)
    (fishData : list Fish) (durationStr : string) : option UpdateBuffer :=
  let statusRow := Rows config in
  let buf1 := fold_left (fun b i => AddClearCell b statusRow (Z.of_nat i))
                        (seq 1 (Z.to_nat (Columns config))) buf in
  buf2 ← statusLabels buf1 config fishData;
  let len := Z.of_nat (String.length durationStr) in
  let statusCol := GoInt.add (GoInt.sub (Columns config) len) 1 in
  let statusCol := if statusCol <? 1 then 1 else statusCol in
  Some (AddStatusText buf2 statusRow statusCol durationStr).

End FloorAndStatus.

(** ** manager.go: the animation tick *)

(** The loop of [updateAndBroadcast] over the fish, in the order the map
    is visited: each fish is updated, then rendered; the changes go
    through the pointers the map holds.  [None] is a panic of [Render]. *)
Fixpoint tickLoop (config : TerminalConfig) (deltaTime : float)
    (rnd : N -> UpdateRand) (order : list N) (fs : gmap N Fish)
    (buf : UpdateBuffer) : option (gmap N Fish * UpdateBuffer) :=
  match order with
  | [] => Some (fs, buf)
  | k :: rest =>
      match fs !! k with
      | None => tickLoop config deltaTime rnd rest fs buf
      | Some f =>
          '(g, buf') ← Render (Update f config deltaTime (rnd k)) buf config;
          tickLoop config deltaTime rnd rest (<[k := g]> fs) buf'
      end
  end.

Section Tick.

Variable AddFloorTilePlacement :
  UpdateBuffer -> Z -> Z -> Z -> N -> Z -> Z -> UpdateBuffer.
Variable AddStatusText : UpdateBuffer -> Z -> Z -> string -> UpdateBuffer.

(** [updateAndBroadcast]: the new state and the bytes sent to every
    connection; [None] is a panic.  The clock is an input: [deltaTime]
    is the time since the last tick, [statusDue] tells whether a second
    has passed since the status bar was written, [durationStr] is the age
    of the aquarium as [formatDuration] prints it.  [order] is the order
    in which the fish are copied out of the map, [statusOrder] the order
    in which [renderStatus] copies them again.  The floor is rendered in
    the first tick of an aquarium, which marks it rendered. *)
Definition updateAndBroadcast (m : Manager) (deltaTime : float)
    (order : list N) (rnd : N -> UpdateRand) (statusDue : bool)
    (statusOrder : list N) (durationStr : string)
    : option (Manager * string) :=
  match termConfig m with
  | None => Some (m, EmptyString)
  | Some config =>
      if bool_decide (size (connections m) = 0%nat) then Some (m, EmptyString)
      else
        '(fs, buf) ← tickLoop config deltaTime rnd order (fish m)
                              NewUpdateBuffer;
        match aquarium m with
        | None =>
            Some (mkManager fs (connections m) (termConfig m)
                            (animationStop m) (fishCounter m) (connCounter m)
                            (debugMode m) None,
                  String_ buf)
        | Some aq =>
            buf1 ← (if FloorRendered aq then Some buf
                    else renderFloor AddFloorTilePlacement buf config aq);
            buf2 ← (if statusDue
                    then renderStatus AddStatusText buf1 config
                           (omap (fun k => fs !! k) statusOrder) durationStr
                    else Some buf1);
            Some (mkManager fs (connections m) (termConfig m)
                            (animationStop m) (fishCounter m) (connCounter m)
                            (debugMode m)
                            (Some (mkAquarium (FloorTileID aq) true)),
                  String_ buf2)
        end
  end.

End Tick.

(** ** The states of the manager *)

(** The state in which [initializeAquarium] calls [AddFish]: the first
    session of an epoch has set the capability and started the
    animation. *)
Definition prepared (h : Handler) (m : Manager) : Manager :=
  match GetTerminalConfig m with
  | None => StartAnimation (SetTerminalConfig m (handlerConfig h))
  | Some _ => m
  end.

(** The states the manager goes through: from [NewManager], by the
    operations the program performs on it.  [SetTerminalConfig] is called
    in one place, [initializeAquarium], when no capability is set and
    with [StartAnimation] right after it: the two are one step here
    ([reach_initialize]).  Every operation is taken as a whole, one after
    the other, as under the lock of the manager.  The counter of
    connections is assumed not to wrap around (fewer than [2^64]
    connections between two calls of [Stop]). *)
Inductive reachable : Manager -> Prop :=
| reach_new : reachable NewManager
| reach_set_debug_mode m debug :
    reachable m -> reachable (SetDebugMode m debug)
| reach_add_connection m username floorDraw :
    reachable m -> (connCounter m + 1 < 2 ^ 64)%N ->
    reachable (fst (AddConnection m username floorDraw))
| reach_remove_connection m connID :
    reachable m -> reachable (RemoveConnection m connID)
| reach_initialize m h :
    reachable m -> reachable (prepared h m)
| reach_add_fish m connID count rnd m' ids :
    reachable m -> AddFish m connID count rnd = Some (m', ids) ->
    reachable m'
| reach_click Cos Sin m connID button col row order rnd :
    reachable m ->
    reachable (HandleMouseClick Cos Sin m connID button col row order rnd)
| reach_tick addFloorTile addStatusText m deltaTime order rnd statusDue
      statusOrder durationStr m' out :
    reachable m ->
    updateAndBroadcast addFloorTile addStatusText m deltaTime order rnd
                       statusDue statusOrder durationStr = Some (m', out) ->
    reachable m'
| reach_stop m :
    reachable m -> reachable (Stop m).

(** The same states, while the counter of fish does not wrap around
    either (fewer than [2^64] fish between two resets). *)
Inductive inService : Manager -> Prop :=
| serv_new : inService NewManager
| serv_set_debug_mode m debug :
    inService m -> inService (SetDebugMode m debug)
| serv_add_connection m username floorDraw :
    inService m -> (connCounter m + 1 < 2 ^ 64)%N ->
    inService (fst (AddConnection m username floorDraw))
| serv_remove_connection m connID :
    inService m -> inService (RemoveConnection m connID)
| serv_initialize m h :
    inService m -> inService (prepared h m)
| serv_add_fish m connID count rnd m' ids :
    inService m -> (fishCounter m + 1 < 2 ^ 64)%N ->
    AddFish m connID count rnd = Some (m', ids) ->
    inService m'
| serv_click Cos Sin m connID button col row order rnd :
    inService m ->
    inService (HandleMouseClick Cos Sin m connID button col row order rnd)
| serv_tick addFloorTile addStatusText m deltaTime order rnd statusDue
      statusOrder durationStr m' out :
    inService m ->
    updateAndBroadcast addFloorTile addStatusText m deltaTime order rnd
                       statusDue statusOrder durationStr = Some (m', out) ->
    inService m'
| serv_stop m :
    inService m -> inService (Stop m).

(** ** handler.go: the life of a session and its input *)

Module Session.

(** The handler (its terminal fields are the record [Handler]), its
    [running] flag and its channel [done]: [done] is [true] once the
    channel is closed.  [connection.New] makes the channel; nothing
    makes another one. *)
Record t := mk {
  handler : Handler;
  running : bool;
  done : bool
}.

(** [connection.New]: not running, [done] open. *)
Definition New : t := mk New false false.

(** [Start], with its guard: a second call does nothing.  [None] is a
    panic. *)
Definition Start (s : t) (m : Manager) (username : string) (floorDraw : nat)
    (o : DetectOutcome) (rnd : NewFishRand) : option (t * Manager) :=
  if running s then Some (s, m)
  else
    match Start (handler s) m username floorDraw o rnd with
    | (h', Some (m', _)) => Some (mk h' true (done s), m')
    | (_, None) => None
    end.

(** [Close]: nothing unless running; else [close(h.done)], which panics
    ([None]) when the channel is closed already, then the connection is
    removed from the aquarium (the writes to the channel are left
    out). *)
Definition Close (s : t) (m : Manager) : option (t * Manager) :=
  if negb (running s) then Some (s, m)
  else if done s then None
  else Some (mk (handler s) false true,
             RemoveConnection m (connID (handler s))).

End Session.

(** What a chunk of input asks for. *)
Inductive InputEvent :=
| Quit
| Click (button col row : Z)
| Ignored.

(** [data[i]]; the tests of [processInput] read it only inside the
    length they have checked. *)
Definition byteAt (data : list Byte.byte) (i : nat) : N :=
  Byte.to_N (nth i data Byte.x00).

(** The tests of [processInput], in their order: Ctrl+C, Ctrl+D, [q] or
    [Q] alone in the chunk; then a mouse report [ESC [ M b x y]. *)
Definition decodeInput (data : list Byte.byte) : InputEvent :=
  let len := length data in
  if (len =? 1)%nat && (byteAt data 0 =? 3)%N then Quit
  else if (len =? 1)%nat && (byteAt data 0 =? 4)%N then Quit
  else if (len =? 1)%nat
          && ((byteAt data 0 =? 113)%N || (byteAt data 0 =? 81)%N) then Quit
  else if (6 <=? len)%nat && (byteAt data 0 =? 27)%N
          && (byteAt data 1 =? 91)%N && (byteAt data 2 =? 77)%N
  then Click (Z.of_N (byteAt data 3) - 32) (Z.of_N (byteAt data 4) - 32)
             (Z.of_N (byteAt data 5) - 32)
  else Ignored.

Section Input.

Variables Cos Sin : float -> float.

(** [processInput]; [None] is the panic of [Close]. *)
Definition processInput (s : Session.t) (m : Manager) (data : list Byte.byte)
    (order : list N) (rnd : ClickRand) : option (Session.t * Manager) :=
  match decodeInput data with
  | Quit => Session.Close s m
  | Click button col row =>
      Some (s, HandleMouseClick Cos Sin m (connID (Session.handler s))
                                button col row order rnd)
  | Ignored => Some (s, m)
  end.

(** What follows the [select] in one turn of the loop of [handleInput]:
    [None] as a read is a failed read, which closes the session; an
    empty read is skipped. *)
Definition handleRead (s : Session.t) (m : Manager)
    (r : option (list Byte.byte)) (order : list N) (rnd : ClickRand)
    : option (Session.t * Manager) :=
  match r with
  | None => Session.Close s m
  | Some data =>
      if (0 <? length data)%nat then processInput s m data order rnd
      else Some (s, m)
  end.

(** The loop of [handleInput] over the reads that arrive.  Each turn
    looks at the channel [done] first and returns if it is closed; a
    failed read ends the loop after [Close].  When the reads run out the
    loop is blocked in [Read].  [None] is the panic of [Close]. *)
Fixpoint handleInput (s : Session.t) (m : Manager)
    (reads : list (option (list Byte.byte) * list N * ClickRand))
    : option (Session.t * Manager) :=
  match reads with
  | [] => Some (s, m)
  | (r, order, rnd) :: rest =>
      if Session.done s then Some (s, m)
      else
        match handleRead s m r order rnd with
        | None => None
        | Some (s', m') =>
            match r with
            | None => Some (s', m')
            | Some _ => handleInput s' m' rest
            end
        end
  end.

End Input.

(** ** handler.go: readTerminalResponse *)

Definition isDigit (c : ascii) : bool :=
  (48 <=? nat_of_ascii c)%nat && (nat_of_ascii c <=? 57)%nat.

(** The longest run of digits at the start of [s] (what a greedy [\d+]
    takes), and what follows it. *)
Fixpoint takeDigits (s : string) : string * string :=
  match s with
  | EmptyString => (EmptyString, EmptyString)
  | String c s' =>
      if isDigit c then
        let '(digits, rest) := takeDigits s' in (String c digits, rest)
      else (EmptyString, s)
  end.

(** What follows the prefix [p] of [s], if [s] starts with it. *)
Fixpoint stripPrefix (p s : string) : option string :=
  match p, s with
  | EmptyString, _ => Some s
  | String a p', String c s' =>
      if Ascii.eqb a c then stripPrefix p' s' else None
  | String _ _, EmptyString => None
  end.

(** A match of [\x1b\[4;(\d+);(\d+)t] at the start of [s]: its two
    groups.  Each [\d+] is followed by a character that is no digit, so
    the match, if there is one, takes the longest runs. *)
Definition matchHere (s : string) : option (string * string) :=
  r0 ← stripPrefix (ESC ++ "[4;") s;
  let '(g1, r1) := takeDigits r0 in
  if String.eqb g1 EmptyString then None
  else
    r2 ← stripPrefix ";" r1;
    let '(g2, r3) := takeDigits r2 in
    if String.eqb g2 EmptyString then None
    else
      _ ← stripPrefix "t" r3;
      Some (g1, g2).

(** [re.FindStringSubmatch]: the groups of the leftmost match. *)
Fixpoint findSubmatch (s : string) : option (string * string) :=
  match matchHere s with
  | Some groups => Some groups
  | None =>
      match s with
      | EmptyString => None
      | String _ s' => findSubmatch s'
      end
  end.

(** [fmt.Sscanf(digits, "%d", &n)] for a run of digits and an [int]
    [n] that holds 0: a number that does not fit an [int] is an error
    and leaves [n] as it is. *)
Definition scanInt (digits : string) : Z :=
  match NilEmpty.uint_of_string digits with
  | Some d => if Z.of_uint d <=? GoInt.maxInt64 then Z.of_uint d else 0
  | None => 0
  end.

(** The loop of [readTerminalResponse] over the reads of the channel:
    [None] in the list is a failed read.  The result is the slice
    returned ([[]] is [nil]); it is [None] when the reads run out before
    the function returns (it is then blocked in [Read]). *)
Fixpoint readLoop (reads : list (option string)) (responseBuffer : string)
    : option (list Z) :=
  match reads with
  | [] => None
  | None :: _ => Some []
  | Some chunk :: rest =>
      let responseBuffer := (responseBuffer ++ chunk)%string in
      match findSubmatch responseBuffer with
      | Some (g1, g2) =>
          let pixelHeight := scanInt g1 in
          let pixelWidth := scanInt g2 in
          Some [pixelWidth; pixelHeight]
      | None =>
          if (100 <? String.length responseBuffer)%nat then Some []
          else readLoop rest responseBuffer
      end
  end.

Definition readTerminalResponse (reads : list (option string))
    : option (list Z) :=
  readLoop reads EmptyString.

(** ** server.go (package sshserver): the requests of a session *)

(** [uint32(p[i])<<24 | uint32(p[i+1])<<16 | uint32(p[i+2])<<8 |
    uint32(p[i+3])]; the parsers read it only inside the length they
    have checked. *)
Definition u32At (payload : list Byte.byte) (i : nat) : N :=
  N.lor (N.lor (N.lor (N.shiftl (byteAt payload i) 24)
                      (N.shiftl (byteAt payload (i + 1)) 16))
               (N.shiftl (byteAt payload (i + 2)) 8))
        (byteAt payload (i + 3)).

(** [parsePtyRequest] and [parseWindowChange]: [None] is [ok = false]. *)
Definition parsePtyRequest (payload : list Byte.byte) : option (N * N) :=
  if (length payload <? 8)%nat then None
  else
    let termLen := byteAt payload 3 in
    let offset := (4 + N.to_nat termLen)%nat in
    if (length payload <? offset + 16)%nat then None
    else Some (u32At payload offset, u32At payload (offset + 4)).

Definition parseWindowChange (payload : list Byte.byte) : option (N * N) :=
  if (length payload <? 8)%nat then None
  else Some (u32At payload 0, u32At payload 4).

(** A request on the channel of a session.  The payload of a [pty-req]
    comes with the capacity of its slice, which bounds the slice
    expression [req.Payload[4 : 4+termLen]]. *)
Inductive Request :=
| PtyReq (payload : list Byte.byte) (capacity : nat)
| Shell
| WindowChange (payload : list Byte.byte)
| OtherRequest.

(** The body of the loop of [handleSession] for one request; [None] is
    a panic.  In the [pty-req] case [termLen] is a [byte], so that
    [4+termLen] is computed modulo 256. *)
Definition handleRequest (s : Session.t) (m : Manager) (req : Request)
    (username : string) (floorDraw : nat) (o : DetectOutcome)
    (rnd : NewFishRand) : option (Session.t * Manager) :=
  match req with
  | PtyReq payload capacity =>
      if (length payload <? 4)%nat then None
      else
        let termLen := byteAt payload 3 in
        let high := ((4 + termLen) mod 256)%N in
        if (high <? 4)%N || (N.of_nat capacity <? high)%N then None
        else
          match parsePtyRequest payload with
          | Some (w, h) =>
              Some (Session.mk (SetTerminal (Session.handler s) w h)
                               (Session.running s) (Session.done s), m)
          | None => Some (s, m)
          end
  | Shell => Session.Start s m username floorDraw o rnd
  | WindowChange payload =>
      match parseWindowChange payload with
      | Some (w, h) =>
          Some (Session.mk (Resize (Session.handler s) w h)
                           (Session.running s) (Session.done s), m)
      | None => Some (s, m)
      end
  | OtherRequest => Some (s, m)
  end.

(** * Notions of the specification *)

(** One axis of the wall bouncing: the coordinate left by the test
    [x + size > lim], then [x < 0]. *)
Definition clampAxis (x size lim : float) : float :=
  if GoFloat.gt (x + size)%float lim then (lim - size)%float
  else if GoFloat.lt x 0%float then 0%float
  else x.

Definition positiveConfig (config : TerminalConfig) : bool :=
  (0 <? Columns config) && (0 <? Rows config)
  && (0 <? CellWidth config) && (0 <? CellHeight config).

(** The angle [OnClick] draws and its value in radians. *)
Definition clickAngle (rnd : ClickRand) : float :=
  nth (Intn (angleDraw rnd) (length angles)) angles 0%float.

Definition clickRadians (rnd : ClickRand) : float :=
  (clickAngle rnd * Pi / 180)%float.

(** The speed of a fish: [sqrt(VelX² + VelY²)] evaluated in float64, and
    the exact rational value of [VelX² + VelY²] of a finite velocity. *)
Definition speed (f : Fish) : float :=
  sqrt (VelX f * VelX f + VelY f * VelY f)%float.

Definition speedSq (f : Fish) : option Q :=
  vx ← GoFloat.value (VelX f);
  vy ← GoFloat.value (VelY f);
  Some (vx * vx + vy * vy)%Q.

Definition sameSpeedSq (f g : Fish) : bool :=
  match speedSq f, speedSq g with
  | Some a, Some b => Qeq_bool a b
  | _, _ => false
  end.

(** A rotation in exact arithmetic, by an angle of cosine [c] and sine
    [s], and the squared norm of a vector. *)
Definition rotateQ (c s : Q) (v : Q * Q) : Q * Q :=
  (fst v * c - snd v * s, fst v * s + snd v * c)%Q.

Definition normSqQ (v : Q * Q) : Q := (fst v * fst v + snd v * snd v)%Q.

(** The number [m * 2^e]. *)
Definition F2Q (m e : Z) : Q := (inject_Z m * 2 ^ e)%Q.

(** The rational value of a finite number of the specification. *)
Definition SFvalue (x : spec_float) : option Q :=
  match x with
  | S754_zero _ => Some (0 # 1)%Q
  | S754_finite s m e =>
      let n := if s then Zneg m else Zpos m in
      Some (if 0 <=? e then (n * 2 ^ e # 1)%Q
            else (n # Z.to_pos (2 ^ (- e)))%Q)
  | S754_infinity _ | S754_nan => None
  end.

(** What [binary_round_aux] returns on an exact input [mx * 2^ex]:
    either the input itself, or the number [m1 * 2^e1] with [e1] the
    exponent of the format for the input and [m1] one of the two
    integers next to [mx / 2^(e1 - ex)]. *)
Inductive roundsTo (s : bool) (m1 e1 : Z) : spec_float -> Prop :=
| rounds_zero : m1 = 0 -> roundsTo s m1 e1 (S754_zero s)
| rounds_infinity : roundsTo s m1 e1 (S754_infinity s)
| rounds_finite m e :
    e1 <= e -> Z.pos m * 2 ^ (e - e1) = m1 -> roundsTo s m1 e1 (S754_finite s m e).

(** [q] is within one rounding of [z]: a relative [2^-52], or
    [2^-1074]. *)
Definition rounded (q z : Q) : Prop :=
  (Qabs (q - z) <= 2 ^ (-52) * Qabs z + 2 ^ (-1074))%Q.


(** What happens to a fish in its life: a tick of the animation updates
    it and draws it into the buffer of the tick ([Update], then
    [Render], as the loop of the tick does); a click that hits it turns
    it ([OnClick]). *)
Inductive FishEvent :=
| Tick (config : TerminalConfig) (deltaTime : float) (rnd : UpdateRand)
       (buf : UpdateBuffer)
| Clicked (rnd : ClickRand).

Definition isTick (e : FishEvent) : bool :=
  match e with Tick _ _ _ _ => true | Clicked _ => false end.

(** A tick draws with cell sizes other than 0. *)
Definition drawable (e : FishEvent) : Prop :=
  match e with
  | Tick config _ _ _ => CellWidth config <> 0 /\ CellHeight config <> 0
  | Clicked _ => True
  end.

Section Runs.

Variables Cos Sin : float -> float.

(** [None] is the panic of [Render]. *)
Definition fishStep (f : Fish) (e : FishEvent) : option Fish :=
  match e with
  | Tick config deltaTime rnd buf =>
      '(g, _) ← Render (Update f config deltaTime rnd) buf config; Some g
  | Clicked rnd => Some (OnClick Cos Sin f rnd)
  end.

Fixpoint fishRun (f : Fish) (evs : list FishEvent) : option Fish :=
  match evs with
  | [] => Some f
  | e :: rest => g ← fishStep f e; fishRun g rest
  end.

End Runs.

(** The offset as the specification words it: 0, 6, 12 or 6 according
    to [floor(BobbingTime) mod 4]. *)
Definition bobOffsetSpec (phase : Q) : float :=
  let k := Qfloor phase mod 4 in
  if k =? 0 then 0%float
  else if k =? 1 then 6%float
  else if k =? 2 then 12%float
  else 6%float.


(** No fish of [l] is both hit by the click and owned by [connID]. *)
Definition noneClickable (connID : N) (mouseX mouseY : Z)
    (fs : gmap N Fish) (l : list N) : Prop :=
  forall j g, j ∈ l -> fs !! j = Some g ->
              CheckCollision g mouseX mouseY = true -> OwnerID g <> connID.

(** The effect of a click on a fish [f], leaving [g]: exactly three
    bubbles appended, staggered upward, and the velocity rotated (in
    float64) by one of the three angles. *)
Definition clickEffect (Cos Sin : float -> float) (f g : Fish) : Prop :=
  (exists b0 b1 b2,
     Bubbles g = Bubbles f ++ [b0; b1; b2]
     /\ Y b0 = (PosY f - 2 - 0)%float
     /\ Y b1 = (PosY f - 2 - 5)%float
     /\ Y b2 = (PosY f - 2 - 10)%float)
  /\ (exists angle,
        (angle = 90%float \/ angle = 180%float \/ angle = 260%float)
        /\ let r := (angle * Pi / 180)%float in
           VelX g = (VelX f * Cos r - VelY f * Sin r)%float
           /\ VelY g = (VelX f * Sin r + VelY f * Cos r)%float).




(** The cell size as the specification words it: the pixel dimension
    divided by the character dimension, rounded to the nearest integer,
    at least 1. *)
Definition cellSizeSpec (pixels chars : Z) : Z :=
  Z.max 1 ((2 * pixels + chars) / (2 * chars)).

(** The payloads of a list of frames, one after the other. *)
Definition payloads (frames : list Frame) : string :=
  joinStrings (map payload frames).

(** The control data of a frame: the first frame carries the action, the
    format, the image id and the flag; the others the flag only. *)
Definition controlOf (imageID : Z) (isFirst hasMore : bool) : string :=
  if isFirst
  then ("a=t,f=100,i=" ++ fmt_d imageID ++ ",m=" ++ fmt_d (btoi hasMore)
         ++ ",q=1")%string
  else ("m=" ++ fmt_d (btoi hasMore))%string.

(** ** The bubbles of a fish, declaratively *)

(** A bubble after one step of [updateBubbles]: it rises by
    [BubbleSpeed * deltaTime] and ages by one. *)
Definition rise (deltaTime : float) (b : Bubble) : Bubble :=
  mkBubble (X b) (Y b - BubbleSpeed * deltaTime)%float (Char b)
           (GoInt.add (Age b) 1) (PrevCol b) (PrevRow b).

(** The bubble is still on the screen ([bubble.Y >= 0]). *)
Definition onScreen (b : Bubble) : bool := GoFloat.ge (Y b) 0%float.

(** The bubble has been drawn: a cell is recorded for it. *)
Definition drawn (b : Bubble) : bool := (0 <? PrevCol b) && (0 <? PrevRow b).

(** The cell recorded for a bubble, as [struct{ Row, Col int }]. *)
Definition recordedCell (b : Bubble) : Z * Z := (PrevRow b, PrevCol b).

(** The cell of the grid a bubble is in, and the test that a cell lies
    in the grid of the terminal. *)
Definition bubbleCol (config : TerminalConfig) (b : Bubble) : Z :=
  GoInt.add (GoFloat.to_int (X b / GoFloat.of_int (CellWidth config))) 1.
Definition bubbleRow (config : TerminalConfig) (b : Bubble) : Z :=
  GoInt.add (GoFloat.to_int (Y b / GoFloat.of_int (CellHeight config))) 1.

Definition inGrid (config : TerminalConfig) (row col : Z) : bool :=
  (1 <=? col) && (col <=? Columns config)
  && (1 <=? row) && (row <=? Rows config).

(** The command that blanks a cell. *)
Definition clearCmd (rc : Z * Z) : string :=
  (cursorCmd (fst rc) (snd rc) ++ " ")%string.

(** What [Render] writes for one bubble: a blank over the cell recorded,
    if any, then the glyph in the cell the bubble is in, if that cell
    lies in the grid. *)
Definition bubbleCmds (config : TerminalConfig) (b : Bubble) : list string :=
  (if drawn b then [clearCmd (recordedCell b)] else [])
  ++ (if inGrid config (bubbleRow config b) (bubbleCol config b)
      then [(cursorCmd (bubbleRow config b) (bubbleCol config b) ++ Char b)%string]
      else []).

(** The bubble as [Render] leaves it: the cell it was drawn in is
    recorded. *)
Definition markBubble (config : TerminalConfig) (b : Bubble) : Bubble :=
  if inGrid config (bubbleRow config b) (bubbleCol config b)
  then mkBubble (X b) (Y b) (Char b) (Age b)
                (bubbleCol config b) (bubbleRow config b)
  else b.

(** The cell of the grid and the offsets inside it at which [Render]
    places the sprite. *)
Definition spriteY (f : Fish) : float := (PosY f + bobbingOffset f)%float.
Definition spriteCol (config : TerminalConfig) (f : Fish) : Z :=
  GoInt.add (GoFloat.to_int (PosX f / GoFloat.of_int (CellWidth config))) 1.
Definition spriteRow (config : TerminalConfig) (f : Fish) : Z :=
  GoInt.add (GoFloat.to_int (spriteY f / GoFloat.of_int (CellHeight config))) 1.

(** The number of cells of the grid an image of [pixels] pixels takes
    along an axis whose cells have [cell] pixels:
    [(pixels + cell - 1) / cell]. *)
Definition cellsFor (pixels cell : Z) : Z :=
  GoInt.wrap64 (Z.quot (GoInt.sub (GoInt.add pixels cell) 1) cell).

(** Every glyph of the fish is one of the four of [bubbleChars]. *)
Definition glyphsKnown (f : Fish) : bool :=
  forallb (fun b => existsb (String.eqb (Char b)) bubbleChars) (Bubbles f).

(** Every cell the fish keeps on record, for a bubble drawn or for a
    bubble gone, lies in the grid of the terminal. *)
Definition marksInGrid (config : TerminalConfig) (f : Fish) : bool :=
  forallb (fun rc => inGrid config (fst rc) (snd rc)) (BubblesToClear f)
  && forallb (fun b => implb (drawn b) (inGrid config (PrevRow b) (PrevCol b)))
             (Bubbles f).

(** ** The books of the manager *)

(** The fields of a fish that identify it. *)
Definition sameIdentity (f g : Fish) : Prop :=
  ID g = ID f /\ OwnerID g = OwnerID f /\ PlacementID g = PlacementID f
  /\ Username g = Username f.

(** Two fish tables hold the same fish: the same keys, and under each
    key a fish of the same identity. *)
Definition samePopulation (fs fs' : gmap N Fish) : Prop :=
  forall id,
    match fs !! id, fs' !! id with
    | Some f, Some g => sameIdentity f g
    | None, None => True
    | _, _ => False
    end.

(** The books of the manager are consistent:
    - a fish is stored under its own identifier, which is its placement
      identifier and is not above the counter of fish, and the
      connection that owns it is registered and lists it;
    - an identifier a registered connection lists is not above the
      counter, and the fish stored under it, if any, is owned by that
      connection;
    - a connection is registered under its own identifier, which is not
      above the counter of connections. *)
Definition wellFormed (m : Manager) : Prop :=
  (forall id f, fish m !! id = Some f ->
     ID f = id /\ PlacementID f = id /\ (id <= fishCounter m)%N
     /\ exists conn, connections m !! OwnerID f = Some conn
                     /\ id ∈ FishIDs conn)
  /\ (forall c conn id, connections m !! c = Some conn -> id ∈ FishIDs conn ->
        (id <= fishCounter m)%N
        /\ forall f, fish m !! id = Some f -> OwnerID f = c)
  /\ (forall c conn, connections m !! c = Some conn ->
        ConnID conn = c /\ (c <= connCounter m)%N).

(** ** Sessions, input and requests *)

(** The mouse report a terminal sends for a button and a cell: the three
    values, each offset by 32, after [ESC [ M]. *)
Definition byteOf (n : Z) : Byte.byte :=
  match Byte.of_N (Z.to_N n) with
  | Some b => b
  | None => Byte.x00
  end.

Definition mouseReport (button col row : Z) : list Byte.byte :=
  [Byte.x1b; Byte.x5b; Byte.x4d;
   byteOf (button + 32); byteOf (col + 32); byteOf (row + 32)].

(** The wire format of the requests (RFC 4254, 6.2 and 6.7): a
    [uint32] is four bytes, the most significant first; a [string] is
    its length as a [uint32], then its bytes. *)
Definition be32 (n : N) : list Byte.byte :=
  [byteOf (Z.of_N (n / 2 ^ 24 mod 256)); byteOf (Z.of_N (n / 2 ^ 16 mod 256));
   byteOf (Z.of_N (n / 2 ^ 8 mod 256)); byteOf (Z.of_N (n mod 256))].

Definition ptyReqPayload (term : list Byte.byte) (cols rows wpx hpx : N)
    (modes : list Byte.byte) : list Byte.byte :=
  be32 (N.of_nat (length term)) ++ term
  ++ be32 cols ++ be32 rows ++ be32 wpx ++ be32 hpx
  ++ be32 (N.of_nat (length modes)) ++ modes.

Definition windowChangePayload (cols rows wpx hpx : N) : list Byte.byte :=
  be32 cols ++ be32 rows ++ be32 wpx ++ be32 hpx.

(** The report of the window size in pixels a terminal sends in answer
    to [ESC [ 14 t]. *)
Definition sizeReport (height width : Z) : string :=
  (ESC ++ "[4;" ++ fmt_d height ++ ";" ++ fmt_d width ++ "t")%string.

(** No character of [s] is [ESC]. *)
Fixpoint noEscape (s : string) : bool :=
  match s with
  | EmptyString => true
  | String c s' => negb (Ascii.eqb c "027"%char) && noEscape s'
  end.

(** Every character of [s] is a digit. *)
Fixpoint allDigits (s : string) : bool :=
  match s with
  | EmptyString => true
  | String c s' => isDigit c && allDigits s'
  end.

(** * Example data *)

Definition defaultConfig : TerminalConfig := mkTerminalConfig 80 24 8 16.

(** A fish close to the right wall of the default terminal, swimming
    right. *)
Definition fishAtRightWall : Fish :=
  mkFish 1 1 1 575%float 100%float 40%float 10%float 0%float [] 2 []
         "guest" "".

(** A fish at rest in the corner of a default terminal. *)
Definition restingFish : Fish :=
  mkFish 1 1 1 0%float 0%float 0%float 0%float 0%float [] 0 []
         "guest" "".

Definition noSpawn : UpdateRand := mkUpdateRand 0.5 0.

(** A terminal of 7 columns: 56 pixels wide, narrower than the sprite. *)
Definition narrowConfig : TerminalConfig := mkTerminalConfig 7 24 8 16.

(** A terminal of 130 columns (1040 pixels) and a fish at rest one unit
    in the last place to the right of [canvasWidth - 64 = 976]. *)
Definition wideConfig : TerminalConfig := mkTerminalConfig 130 24 8 16.

Definition fishPastEdge : Fish :=
  mkFish 1 1 1 0x1.e800000000001p+9%float 0%float 0%float 0%float 0%float
         [] 0 [] "guest" "".

(** A fish in the same terminal, one unit in the last place to the
    right of [canvasWidth - 64 = 976], creeping right at [2^-60] pixels
    a second. *)
Definition fishCreepingPastEdge : Fish :=
  mkFish 1 1 1 0x1.e800000000001p+9%float 0%float 0x1p-60%float 0%float
         0%float [] 0 [] "guest" "".

(** A fish of infinite speed, updated with a time step of zero. *)
Definition fishInfinitelyFast : Fish :=
  mkFish 1 1 1 0%float 0%float infinity 0%float 0%float [] 0 []
         "guest" "".

(** The cosine and the sine at [90*Pi/180], [180*Pi/180] and
    [260*Pi/180], correctly rounded to float64; [math.Cos] and
    [math.Sin] return these values or float64 values a few units in the
    last place away.  (The float64 nearest to a quarter turn is not a
    quarter turn, and its cosine is about [6.1e-17], not zero.) *)
Definition cosTable (r : float) : float :=
  if PrimFloat.eqb r 0x1.921fb54442d18p+0 then 0x1.1a62633145c07p-54
  else if PrimFloat.eqb r 0x1.921fb54442d18p+1 then (-1)
  else if PrimFloat.eqb r 0x1.226c3bcdbe7aep+2 then (-0x1.63a1a7e0b7389p-3)
  else 1.

Definition sinTable (r : float) : float :=
  if PrimFloat.eqb r 0x1.921fb54442d18p+0 then 1
  else if PrimFloat.eqb r 0x1.921fb54442d18p+1 then 0x1.1a62633145c07p-53
  else if PrimFloat.eqb r 0x1.226c3bcdbe7aep+2 then (-0x1.f838b8c811c17p-1)
  else 0.

(** A fish swimming down and right at one pixel per second on each
    axis, and a click that draws the angle of 90 degrees. *)
Definition fishDiagonal : Fish :=
  mkFish 1 1 1 100%float 100%float 1%float 1%float 0%float [] 2 []
         "guest" "".

Definition clickQuarterTurn : ClickRand :=
  mkClickRand (fun _ => 0.5%float) (fun _ => 0%nat) 0.

Definition withBobbingTime (t : float) : Fish :=
  mkFish 1 1 1 100%float 100%float 1%float 1%float t [] 2 [] "guest" "".

Definition midRand : NewFishRand := mkNewFishRand 0.5 0.5 0.75 0.25 0.5.

(** A fish as [NewFish] makes it in the default terminal, and the same
    after one tick of half a second. *)
Definition newbornFish : Fish :=
  match NewFish 1 1 640 384 8 16 "guest" "" midRand with
  | Some f => f
  | None => restingFish
  end.

Definition pondFish : Fish := Update newbornFish defaultConfig 0.5 noSpawn.

(** The first tick of [fishAtRightWall]: rendered, then updated (it
    bounces off the right wall and turns left). *)
Definition renderedOnce : Fish * UpdateBuffer :=
  match Render fishAtRightWall NewUpdateBuffer defaultConfig with
  | Some r => r
  | None => (fishAtRightWall, NewUpdateBuffer)
  end.

Definition turnedFish : Fish :=
  Update (fst renderedOnce) defaultConfig 0.5 noSpawn.

(** Two fish at the same place: fish 1 belongs to session 2, fish 2 to
    session 1. *)
Definition fishOfOther : Fish :=
  mkFish 1 2 1 100%float 100%float 1%float 1%float 0%float [] 2 []
         "other" "".

Definition fishOfClicker : Fish :=
  mkFish 2 1 2 100%float 100%float 1%float 1%float 0%float [] 2 []
         "clicker" "".

Definition pondOfTwo : Manager :=
  mkManager {[ 1%N := fishOfOther; 2%N := fishOfClicker ]}
            {[ 1%N := mkConnection 1 [2%N] "clicker";
               2%N := mkConnection 2 [1%N] "other" ]}
            (Some defaultConfig) true 2 2 false
            (Some (mkAquarium 0 true)).

(** A manager with one session: registered, configured and given a fish;
    in [loneSessionRunning] the animation was started before the fish
    was added, in [loneSessionIdle] it never was. *)
Definition loneSession (start : bool) : Manager :=
  let m1 := fst (AddConnection NewManager "guest" 0) in
  let m2 := SetTerminalConfig m1 defaultConfig in
  let m3 := if start then StartAnimation m2 else m2 in
  match AddFish m3 1 1 midRand with
  | Some (m4, _) => m4
  | None => m3
  end.

Definition loneSessionRunning : Manager := loneSession true.

(** Stand-ins for the two methods of the update buffer that are not at
    hand: a placement without offsets, and a text. *)
Definition floorTileStandIn (b : UpdateBuffer) (row col imageID : Z)
    (placementID : N) (width height : Z) : UpdateBuffer :=
  AddFishPlacement b row col imageID placementID width height 0 0.

Definition statusTextStandIn (b : UpdateBuffer) (row col : Z) (text : string)
    : UpdateBuffer :=
  AddText b row col text.

(** A manager in debug mode with one session, as [Start] leaves it, and
    the same after its first tick, one second later. *)
Definition debugSession : Manager :=
  let m1 := fst (AddConnection (SetDebugMode NewManager true) "guest" 0) in
  let m2 := prepared New m1 in
  match AddFish m2 1 1 midRand with
  | Some (m3, _) => m3
  | None => m2
  end.

Definition debugSessionTicked : Manager :=
  match updateAndBroadcast floorTileStandIn statusTextStandIn debugSession 1
                           [1%N] (fun _ => noSpawn) true [1%N] "1s" with
  | Some (m, _) => m
  | None => debugSession
  end.

Definition loneSessionIdle : Manager := loneSession false.

(** A terminal of 160 columns by 50 rows. *)
Definition wideTerminal : Handler := SetTerminal New 160 50.

(** Fish about to cross the left wall, the floor and the top of the
    default terminal. *)
Definition fishAtLeftWall : Fish :=
  mkFish 1 1 1 2%float 100%float (-40)%float 10%float 0%float [] 1 []
         "guest" "".

Definition fishAtFloor : Fish :=
  mkFish 1 1 1 100%float 300%float 40%float 20%float 0%float [] 2 []
         "guest" "".

Definition fishAtTop : Fish :=
  mkFish 1 1 1 100%float 2%float 40%float (-10)%float 0%float [] 2 []
         "guest" "".

(** A fish with two bubbles, the first drawn in row 4, column 17, the
    second not yet drawn, and one cell left to blank. *)
Definition bubblyFish : Fish :=
  mkFish 1 1 1 100%float 100%float 1%float 1%float 0%float
         [mkBubble 132%float 50%float "o" 3 17 4;
          mkBubble 140%float 2%float "O" 1 0 0]
         2 [(2, 17)] "guest" "".

(** A session whose terminal is 80 columns wide and reports a window 50
    pixels wide: the cells are 0 pixels wide. *)
Definition zeroWidthSession : Manager :=
  let m1 := fst (AddConnection NewManager "guest" 0) in
  let m2 := StartAnimation (SetTerminalConfig m1 (mkTerminalConfig 80 24 0 16)) in
  match AddFish m2 1 1 midRand with
  | Some (m3, _) => m3
  | None => m2
  end.

(** The terminal name [xterm], and a terminal name of 252 bytes. *)
Definition xterm : list Byte.byte :=
  [Byte.x78; Byte.x74; Byte.x65; Byte.x72; Byte.x6d].

Definition longTermName : list Byte.byte := repeat Byte.x78 252.

(** * Properties *)

(** ** The embedding on concrete values *)

Example to_int_truncates :
  GoFloat.to_int 3.75 = 3 /\ GoFloat.to_int (-3.75) = -3
  /\ GoFloat.to_int (-0.5) = 0 /\ GoFloat.of_int (-5) = (-5)%float.
Proof. vm_compute. repeat split. Qed.

Example fmt_d_examples :
  fmt_d 0 = "0"%string /\ fmt_d 1040 = "1040"%string
  /\ fmt_d (-7) = "-7"%string.
Proof. vm_compute. repeat split. Qed.

Example deleteCmd_example :
  deleteCmd 2 7 = (ESC ++ "_Ga=d,d=i,i=2,p=7,q=1" ++ ESC ++ "\")%string.
Proof. reflexivity. Qed.

Example placementCmd_example :
  placementCmd 1 7 8 3 2 4
  = (ESC ++ "_Ga=p,i=1,p=7,c=8,r=3,C=1,X=2,Y=4,q=1" ++ ESC ++ "\")%string.
Proof. reflexivity. Qed.

Example EncodeToString_examples :
  Base64.EncodeToString [Byte.x4d; Byte.x61; Byte.x6e] = "TWFu"%string
  /\ Base64.EncodeToString [Byte.x4d; Byte.x61] = "TWE="%string
  /\ Base64.EncodeToString [Byte.x4d] = "TQ=="%string
  /\ Base64.EncodeToString [Byte.xfb; Byte.xff; Byte.xbf] = "+/+/"%string.
Proof. vm_compute. repeat split. Qed.

Example uploadImage_example :
  uploadImage [Byte.x4d; Byte.x61; Byte.x6e] 1
  = [(ESC ++ "_Ga=t,f=100,i=1,m=0,q=1;TWFu" ++ ESC ++ "\")%string].
Proof. reflexivity. Qed.

(** The height left to the fish in the default terminal (80 by 24
    characters, 8 by 16 pixels a cell): [Update] reserves
    [(48 + 16 - 1) / 16 * 16 = 63] pixels for the floor, in float64,
    where [NewFish] reserves 3 rows of 16 pixels, by an integer
    division; the fish are kept above 305 pixels and created above
    320. *)
Example usableHeight_default :
  termPixelWidth defaultConfig = 640%float
  /\ usableHeight defaultConfig = 305%float
  /\ GoInt.quot (GoInt.sub (GoInt.add 48 16) 1) 16 = Some 3.
Proof. vm_compute. repeat split. Qed.

(** ** Facts on binary64 comparisons and NaN *)

Section FloatFacts.

Lemma isNum_spec (x : float) :
  GoFloat.isNum x = true <-> Prim2SF x <> S754_nan.
Proof.
  unfold GoFloat.isNum. rewrite FloatAxioms.eqb_spec. unfold SFeqb.
  destruct (Prim2SF x) as [s|s| |s m e]; simpl.
  - split; [discriminate | reflexivity].
  - destruct s; (split; [discriminate | reflexivity]).
  - split; [discriminate | congruence].
  - split; [discriminate | intros _].
    destruct s; rewrite Z.compare_refl, Pos.compare_cont_refl; reflexivity.
Qed.

Lemma ltb_true_isNum (x y : float) :
  PrimFloat.ltb x y = true ->
  GoFloat.isNum x = true /\ GoFloat.isNum y = true.
Proof.
  rewrite FloatAxioms.ltb_spec, !isNum_spec. unfold SFltb.
  destruct (Prim2SF x), (Prim2SF y); simpl; intros H;
    (discriminate H || (split; discriminate)).
Qed.

Lemma leb_true_isNum (x y : float) :
  PrimFloat.leb x y = true ->
  GoFloat.isNum x = true /\ GoFloat.isNum y = true.
Proof.
  rewrite FloatAxioms.leb_spec, !isNum_spec. unfold SFleb.
  destruct (Prim2SF x), (Prim2SF y); simpl; intros H;
    (discriminate H || (split; discriminate)).
Qed.

Lemma add_isNum (x y : float) :
  GoFloat.isNum (x + y)%float = true ->
  GoFloat.isNum x = true /\ GoFloat.isNum y = true.
Proof.
  rewrite !isNum_spec, FloatAxioms.add_spec. unfold SF64add, SFadd.
  destruct (Prim2SF x), (Prim2SF y); intros H;
    (split; first [discriminate | congruence]).
Qed.

Lemma mul_isNum (x y : float) :
  GoFloat.isNum (x * y)%float = true ->
  GoFloat.isNum x = true /\ GoFloat.isNum y = true.
Proof.
  rewrite !isNum_spec, FloatAxioms.mul_spec. unfold SF64mul, SFmul.
  destruct (Prim2SF x), (Prim2SF y); intros H;
    (split; first [discriminate | congruence]).
Qed.

(** A number that is not below zero is at least zero. *)
Lemma not_lt0_ge0 (x : float) :
  GoFloat.isNum x = true -> PrimFloat.ltb x 0 = false ->
  PrimFloat.leb 0 x = true.
Proof.
  rewrite isNum_spec, FloatAxioms.ltb_spec, FloatAxioms.leb_spec. unfold SFltb, SFleb.
  change (Prim2SF 0) with (S754_zero false).
  destruct (Prim2SF x) as [s|s| |s m e]; simpl; try congruence;
    destruct s; congruence.
Qed.

Lemma leb_refl (x : float) :
  GoFloat.isNum x = true -> PrimFloat.leb x x = true.
Proof.
  rewrite isNum_spec, FloatAxioms.leb_spec. unfold SFleb.
  destruct (Prim2SF x) as [s|s| |s m e]; simpl; try congruence.
  - destruct s; reflexivity.
  - intros _. destruct s; rewrite Z.compare_refl, Pos.compare_cont_refl;
      reflexivity.
Qed.

(** The negated magnitude of a number is at most zero. *)
Lemma opp_abs_le0 (x : float) :
  GoFloat.isNum x = true -> PrimFloat.leb (- abs x) 0 = true.
Proof.
  rewrite isNum_spec, FloatAxioms.leb_spec, FloatAxioms.opp_spec, FloatAxioms.abs_spec. unfold SFleb.
  change (Prim2SF 0) with (S754_zero false).
  destruct (Prim2SF x) as [s|s| |s m e]; simpl; congruence.
Qed.

Lemma abs_opp_abs (x : float) : abs (- abs x) = abs x.
Proof.
  apply Prim2SF_inj. rewrite !FloatAxioms.abs_spec, FloatAxioms.opp_spec, FloatAxioms.abs_spec.
  destruct (Prim2SF x); reflexivity.
Qed.

Lemma abs_abs (x : float) : abs (abs x) = abs x.
Proof.
  apply Prim2SF_inj. rewrite !FloatAxioms.abs_spec.
  destruct (Prim2SF x); reflexivity.
Qed.

End FloatFacts.

(** ** Update: what it does to position and velocity *)

Lemma updateBubbles_fields (f : Fish) (config : TerminalConfig) (dt : float) :
  let g := updateBubbles f config dt in
  PosX g = PosX f /\ PosY g = PosY f /\ VelX g = VelX f /\ VelY g = VelY f
  /\ BobbingTime g = BobbingTime f.
Proof.
  unfold updateBubbles.
  destruct (updateBubblesLoop dt (Bubbles f) (BubblesToClear f)) as [a c].
  simpl. tauto.
Qed.

(** The position and velocity [Update] leaves are those of the two
    bounces applied to the integrated position. *)
Lemma Update_motion (f : Fish) (config : TerminalConfig) (dt : float)
    (rnd : UpdateRand) :
  let b := bounceY (bounceX (integrate f dt) config) config in
  let g := Update f config dt rnd in
  PosX g = PosX b /\ PosY g = PosY b /\ VelX g = VelX b /\ VelY g = VelY b.
Proof.
  intros b g. unfold g, Update. cbv zeta. fold b.
  set (h := if GoFloat.lt _ _ then _ else _).
  destruct (updateBubbles_fields h config dt) as (-> & -> & -> & -> & _).
  unfold h. destruct (GoFloat.lt _ _); simpl; tauto.
Qed.

Lemma bounceY_X (f : Fish) (config : TerminalConfig) :
  PosX (bounceY f config) = PosX f /\ VelX (bounceY f config) = VelX f.
Proof.
  unfold bounceY.
  destruct (GoFloat.gt _ _); [simpl; tauto|].
  destruct (GoFloat.lt _ _); simpl; tauto.
Qed.

Lemma bounceX_Y (f : Fish) (config : TerminalConfig) :
  PosY (bounceX f config) = PosY f /\ VelY (bounceX f config) = VelY f.
Proof.
  unfold bounceX.
  destruct (GoFloat.gt _ _); [simpl; tauto|].
  destruct (GoFloat.lt _ _); simpl; tauto.
Qed.

(** ** Rounding never yields NaN; the order of numbers is total *)

Section FloatOrder.

Lemma shr_1_nonneg (mrs : shr_record) :
  0 <= shr_m mrs -> 0 <= shr_m (shr_1 mrs).
Proof.
  destruct mrs as [m r s]. simpl.
  destruct m as [|p|p]; [simpl; lia | | lia].
  destruct p; simpl; lia.
Qed.

Lemma iter_shr_1_nonneg (p : positive) (mrs : shr_record) :
  0 <= shr_m mrs -> 0 <= shr_m (SpecFloat.iter_pos shr_1 p mrs).
Proof.
  revert mrs. induction p as [p IH|p IH|]; intros mrs H; simpl.
  - apply IH, IH, shr_1_nonneg, H.
  - apply IH, IH, H.
  - apply shr_1_nonneg, H.
Qed.

Lemma shr_fexp_nonneg (m e : Z) (l : location) :
  0 <= m -> 0 <= shr_m (fst (shr_fexp prec emax m e l)).
Proof.
  intros H. unfold shr_fexp, shr.
  assert (H0 : 0 <= shr_m (shr_record_of_loc m l))
    by (destruct l as [|[]]; exact H).
  destruct (fexp prec emax (Zdigits2 m + e) - e) as [|p|p]; simpl;
    [exact H0 | apply iter_shr_1_nonneg, H0 | exact H0].
Qed.

Lemma round_nearest_even_nonneg (m : Z) (l : location) :
  0 <= m -> 0 <= round_nearest_even m l.
Proof.
  intros H. destruct l as [|[]]; simpl; try lia.
  destruct (Z.even m); lia.
Qed.

Lemma binary_round_aux_not_nan (sx : bool) (mx ex : Z) (lx : location) :
  0 <= mx -> binary_round_aux prec emax sx mx ex lx <> S754_nan.
Proof.
  intros H. unfold binary_round_aux.
  pose proof (shr_fexp_nonneg mx ex lx H) as H1.
  destruct (shr_fexp prec emax mx ex lx) as [mrs' e']. simpl in H1.
  pose proof (shr_fexp_nonneg
                (round_nearest_even (shr_m mrs') (loc_of_shr_record mrs'))
                e' loc_Exact (round_nearest_even_nonneg _ _ H1)) as H2.
  destruct (shr_fexp prec emax _ e' loc_Exact) as [mrs'' e'']. simpl in H2.
  destruct (shr_m mrs'') as [|p|p]; [discriminate | | lia].
  destruct (e'' <=? emax - prec); discriminate.
Qed.

Lemma binary_normalize_not_nan (m e : Z) (sz : bool) :
  binary_normalize prec emax m e sz <> S754_nan.
Proof.
  destruct m as [|p|p]; simpl; [discriminate | |];
    unfold binary_round;
    destruct (shl_align _ _ _) as [mz ez];
    apply binary_round_aux_not_nan; lia.
Qed.

(** Adding a finite constant to a number gives a number. *)
Lemma add_finite_isNum (x c : float) :
  GoFloat.isFinite c = true ->
  GoFloat.isNum x = true -> GoFloat.isNum (x + c)%float = true.
Proof.
  unfold GoFloat.isFinite.
  rewrite !isNum_spec, FloatAxioms.add_spec.
  unfold SF64add, SFadd.
  destruct (Prim2SF c) as [sc|sc| |sc mc ec]; try discriminate; intros _;
    destruct (Prim2SF x) as [sx|sx| |sx mx ex]; try congruence; intros _.
  - destruct sx, sc; discriminate.
  - apply binary_normalize_not_nan.
Qed.

Lemma sub_isNum (x y : float) :
  GoFloat.isNum (x - y)%float = true ->
  GoFloat.isNum x = true /\ GoFloat.isNum y = true.
Proof.
  rewrite !isNum_spec, FloatAxioms.sub_spec. unfold SF64sub, SFsub.
  destruct (Prim2SF x), (Prim2SF y); intros H;
    (split; first [discriminate | congruence]).
Qed.

Lemma SFcompare_antisym (a b : spec_float) :
  SFcompare a b = option_map CompOpp (SFcompare b a).
Proof.
  destruct a as [sa|sa| |sa ma ea], b as [sb|sb| |sb mb eb]; simpl;
    try reflexivity;
    try (destruct sa; reflexivity); try (destruct sb; reflexivity);
    try (destruct sa, sb; reflexivity).
  f_equal.
  rewrite (Z.compare_antisym ea eb).
  pose proof (Pos.compare_cont_antisym ma mb Eq) as Hm. simpl in Hm.
  destruct sa, sb; try reflexivity;
    destruct (ea ?= eb); simpl; try reflexivity.
  - rewrite <- Hm. destruct (Pos.compare_cont Eq ma mb); reflexivity.
  - rewrite <- Hm. destruct (Pos.compare_cont Eq ma mb); reflexivity.
Qed.

(** Of two numbers, the first is at most the second unless the second
    is below the first. *)
Lemma not_gt_le (a b : float) :
  GoFloat.isNum a = true -> GoFloat.isNum b = true ->
  GoFloat.gt a b = false -> GoFloat.le a b = true.
Proof.
  unfold GoFloat.gt, GoFloat.le.
  rewrite !isNum_spec, FloatAxioms.ltb_spec, FloatAxioms.leb_spec.
  unfold SFltb, SFleb. rewrite (SFcompare_antisym (Prim2SF a) (Prim2SF b)).
  intros Ha Hb.
  destruct (SFcompare (Prim2SF b) (Prim2SF a)) as [[]|] eqn:E; simpl;
    try congruence.
  destruct (Prim2SF a), (Prim2SF b); simpl in E; congruence.
Qed.

End FloatOrder.

(** ** Facts on strings *)

Section Strings.

Lemma append_empty_r (s : string) : (s ++ "")%string = s.
Proof.
  induction s as [|c s IH]; [reflexivity|].
  change (String c s ++ "")%string with (String c (s ++ ""))%string.
  now rewrite IH.
Qed.

Lemma substring_zero_length (s : string) (i : nat) :
  substring i 0 s = EmptyString.
Proof.
  revert i. induction s as [|c s IH]; intros [|i]; simpl; auto.
Qed.

Lemma substring_length_exact (s : string) (i l : nat) :
  (i + l <= String.length s)%nat -> String.length (substring i l s) = l.
Proof.
  revert i l. induction s as [|c s IH]; intros i l H; simpl in H.
  - assert (i = 0%nat) by lia. assert (l = 0%nat) by lia. subst.
    reflexivity.
  - destruct i as [|i]; simpl.
    + destruct l as [|l]; simpl; [reflexivity|].
      rewrite IH by lia. reflexivity.
    + apply IH. lia.
Qed.

Lemma substring_split (s : string) (i a b : nat) :
  (i + a + b <= String.length s)%nat ->
  substring i (a + b) s
  = (substring i a s ++ substring (i + a) b s)%string.
Proof.
  revert i a b. induction s as [|c s IH]; intros i a b H; simpl in H.
  - assert (i = 0%nat) by lia. assert (a = 0%nat) by lia.
    assert (b = 0%nat) by lia. subst. reflexivity.
  - destruct i as [|i]; simpl.
    + destruct a as [|a]; simpl.
      * reflexivity.
      * rewrite (IH 0%nat a b) by lia. reflexivity.
    + apply IH. lia.
Qed.

Lemma substring_whole (s : string) : substring 0 (String.length s) s = s.
Proof. induction s as [|c s IH]; simpl; [reflexivity | now rewrite IH]. Qed.

Lemma append_assoc (a b c : string) :
  ((a ++ b) ++ c)%string = (a ++ (b ++ c))%string.
Proof.
  induction a as [|x a IH]; [reflexivity|].
  change (String x ((a ++ b) ++ c)%string = String x (a ++ (b ++ c))%string).
  now rewrite IH.
Qed.

Lemma joinStrings_app (l1 l2 : list string) :
  joinStrings (l1 ++ l2) = (joinStrings l1 ++ joinStrings l2)%string.
Proof.
  unfold joinStrings. induction l1 as [|x l1 IH]; [reflexivity|].
  cbn [app fold_right]. rewrite IH. symmetry. apply append_assoc.
Qed.

Lemma joinStrings_three (a b c : string) :
  joinStrings [a; b; c] = (a ++ b ++ c)%string.
Proof.
  unfold joinStrings. cbn [fold_right]. now rewrite append_empty_r.
Qed.

End Strings.

(** ** The accuracy of float64 operations *)

(** One rounding, from the specification of the format. *)

Lemma shr_1_half (mrs : shr_record) :
  0 <= shr_m mrs -> shr_m (shr_1 mrs) = shr_m mrs / 2.
Proof.
  destruct mrs as [m r s]. simpl. rewrite <- Z.div2_div.
  destruct m as [|[p|p|]|p]; simpl; intros H; try reflexivity; lia.
Qed.

Lemma iter_shr_1_div (p : positive) (mrs : shr_record) :
  0 <= shr_m mrs ->
  shr_m (SpecFloat.iter_pos shr_1 p mrs) = shr_m mrs / 2 ^ Z.pos p.
Proof.
  revert mrs. induction p as [p IH|p IH|]; intros mrs H; simpl SpecFloat.iter_pos.
  - rewrite IH by (apply iter_shr_1_nonneg, shr_1_nonneg, H).
    rewrite IH by (apply shr_1_nonneg, H).
    rewrite shr_1_half by exact H.
    assert (Hp : 0 < 2 ^ Z.pos p) by (apply Z.pow_pos_nonneg; lia).
    rewrite !Z.div_div by lia.
    f_equal.
    replace (Z.pos p~1) with (1 + Z.pos p + Z.pos p) by lia.
    rewrite !Z.pow_add_r by lia. change (2 ^ 1) with 2. ring.
  - rewrite IH by (apply iter_shr_1_nonneg, H).
    rewrite IH by exact H.
    assert (Hp : 0 < 2 ^ Z.pos p) by (apply Z.pow_pos_nonneg; lia).
    rewrite !Z.div_div by lia.
    f_equal.
    replace (Z.pos p~0) with (Z.pos p + Z.pos p) by lia.
    rewrite Z.pow_add_r by lia. reflexivity.
  - rewrite shr_1_half by exact H. reflexivity.
Qed.

Lemma round_nearest_even_step (m : Z) (l : location) :
  m <= round_nearest_even m l <= m + 1.
Proof.
  destruct l as [|[| |]]; simpl; try lia. destruct (Z.even m); lia.
Qed.

Lemma digits2_pos_bound (m : positive) :
  Z.pos m < 2 ^ Z.pos (digits2_pos m).
Proof.
  induction m as [m IH|m IH|]; cbn [digits2_pos];
    rewrite ?Pos2Z.inj_succ, ?Z.pow_succ_r by lia; lia.
Qed.

Lemma digits2_pos_lower (m : positive) :
  2 ^ (Z.pos (digits2_pos m) - 1) <= Z.pos m.
Proof.
  induction m as [m IH|m IH|]; cbn [digits2_pos].
  - replace (Z.pos (Pos.succ (digits2_pos m)) - 1)
      with (Z.succ (Z.pos (digits2_pos m) - 1)) by lia.
    rewrite Z.pow_succ_r by lia. lia.
  - replace (Z.pos (Pos.succ (digits2_pos m)) - 1)
      with (Z.succ (Z.pos (digits2_pos m) - 1)) by lia.
    rewrite Z.pow_succ_r by lia. lia.
  - simpl. lia.
Qed.

(** A number below [2^k] has at most [k] digits. *)
Lemma digits2_pos_le (m : positive) (k : Z) :
  Z.pos m < 2 ^ k -> Z.pos (digits2_pos m) <= k.
Proof.
  intros H. pose proof (digits2_pos_lower m) as L.
  destruct (Z_le_gt_dec (Z.pos (digits2_pos m)) k) as [|G]; [assumption|].
  exfalso.
  assert (0 <= k).
  { destruct (Z_le_gt_dec 0 k); [assumption|].
    rewrite Z.pow_neg_r in H by lia. lia. }
  assert (2 ^ k <= 2 ^ (Z.pos (digits2_pos m) - 1))
    by (apply Z.pow_le_mono_r; lia).
  lia.
Qed.

Lemma binary_round_aux_cases (s : bool) (mx : positive) (ex : Z) :
  let e1 := fexp prec emax (Z.pos (digits2_pos mx) + ex) in
  let r := binary_round_aux prec emax s (Z.pos mx) ex loc_Exact in
  (e1 <= ex /\ roundsTo s (Z.pos mx) ex r)
  \/ (ex < e1
      /\ exists m1, Z.pos mx / 2 ^ (e1 - ex) <= m1 <= Z.pos mx / 2 ^ (e1 - ex) + 1
                    /\ roundsTo s m1 e1 r).
Proof.
  intros e1 r.
  destruct (Z_le_gt_dec e1 ex) as [Hle|Hgt]; [left | right];
    (split; [lia|]); unfold r, binary_round_aux;
    unfold shr_fexp at 1; cbn [Zdigits2 shr_record_of_loc]; fold e1.
  - 
    assert (Hn : shr {| shr_m := Z.pos mx; shr_r := false; shr_s := false |}
                     ex (e1 - ex)
                 = ({| shr_m := Z.pos mx; shr_r := false; shr_s := false |}, ex)).
    { unfold shr. destruct (e1 - ex) eqn:E; try reflexivity. lia. }
    rewrite Hn. cbn [shr_m loc_of_shr_record round_nearest_even].
    unfold shr_fexp. cbn [Zdigits2 shr_record_of_loc]. fold e1.
    rewrite Hn. cbn [shr_m].
    destruct (ex <=? emax - prec).
    + apply rounds_finite; [lia|]. rewrite Z.sub_diag. simpl. lia.
    + apply rounds_infinity.
  - destruct (e1 - ex) as [|p|p] eqn:E; try lia.
    unfold shr at 1.
    set (mrs := SpecFloat.iter_pos shr_1 p _).
    assert (Hm : shr_m mrs = Z.pos mx / 2 ^ Z.pos p)
      by (unfold mrs; rewrite iter_shr_1_div; [reflexivity | simpl; lia]).
    set (m1 := round_nearest_even (shr_m mrs) (loc_of_shr_record mrs)).
    pose proof (round_nearest_even_step (shr_m mrs) (loc_of_shr_record mrs))
      as Hm1. fold m1 in Hm1. rewrite Hm in Hm1.
    exists m1. split; [exact Hm1|].
    replace (ex + Z.pos p) with e1 by lia.
    assert (Hp : 0 < 2 ^ Z.pos p) by (apply Z.pow_pos_nonneg; lia).
    assert (H0 : 0 <= Z.pos mx / 2 ^ Z.pos p) by (apply Z.div_pos; lia).
    assert (He1 : -1074 <= e1) by (unfold e1, fexp, emin, prec, emax; lia).
    assert (Hd : Z.pos (digits2_pos mx) <= 53 + Z.pos p)
      by (unfold e1, fexp, emin, prec, emax in E; lia).
    assert (Hup : Z.pos mx / 2 ^ Z.pos p < 2 ^ 53).
    { apply Z.div_lt_upper_bound; [lia|].
      rewrite <- Z.pow_add_r by lia.
      eapply Z.lt_le_trans; [apply digits2_pos_bound|].
      apply Z.pow_le_mono_r; lia. }
    unfold shr_fexp. cbn [shr_record_of_loc].
    destruct m1 as [|q|q] eqn:Eq; [| |lia].
    + cbn [Zdigits2].
      assert (Hn : fexp prec emax (0 + e1) - e1 <= 0)
        by (unfold fexp, emin, prec, emax; lia).
      unfold shr. destruct (fexp prec emax (0 + e1) - e1) eqn:E2; try lia;
        cbn [shr_m]; apply rounds_zero; reflexivity.
    + cbn [Zdigits2].
      destruct (Z_lt_ge_dec (Z.pos q) (2 ^ 53)) as [Hlt|Hge].
      * pose proof (digits2_pos_le q 53 Hlt) as Hdq.
        assert (Hn : fexp prec emax (Z.pos (digits2_pos q) + e1) - e1 <= 0)
          by (unfold fexp, emin, prec, emax; lia).
        unfold shr.
        destruct (fexp prec emax (Z.pos (digits2_pos q) + e1) - e1) eqn:E2;
          try lia; cbn [shr_m];
          (destruct (e1 <=? emax - prec);
           [apply rounds_finite; [lia | rewrite Z.sub_diag; simpl; lia]
           | apply rounds_infinity]).
      * assert (Hq : q = 9007199254740992%positive).
        { change (2 ^ 53) with 9007199254740992 in *. lia. }
        subst q. change (digits2_pos 9007199254740992) with 54%positive.
        replace (fexp prec emax (54 + e1) - e1) with 1
          by (unfold fexp, emin, prec, emax; lia).
        cbn [shr SpecFloat.iter_pos shr_1 shr_m].
        destruct (e1 + 1 <=? emax - prec).
        -- apply rounds_finite; [lia|].
           replace (e1 + 1 - e1) with 1 by lia. reflexivity.
        -- apply rounds_infinity.
Qed.

Lemma pow2_pos (e : Z) : (0 < 2 ^ e)%Q.
Proof. apply Qpower_0_lt. reflexivity. Qed.

Lemma pow2_plus (a b : Z) : (2 ^ (a + b) == 2 ^ a * 2 ^ b)%Q.
Proof. apply Qpower_plus. discriminate. Qed.

Lemma pow2_inject (k : Z) : 0 <= k -> (inject_Z (2 ^ k) == 2 ^ k)%Q.
Proof. intros H. apply (Zpower_Qpower 2 k H). Qed.

Lemma F2Q_add (a b e : Z) : (F2Q (a + b) e == F2Q a e + F2Q b e)%Q.
Proof. unfold F2Q. rewrite inject_Z_plus. ring. Qed.

Lemma F2Q_opp (a e : Z) : (F2Q (- a) e == - F2Q a e)%Q.
Proof. unfold F2Q. rewrite inject_Z_opp. ring. Qed.

Lemma F2Q_sub (a b e : Z) : (F2Q (a - b) e == F2Q a e - F2Q b e)%Q.
Proof.
  unfold Z.sub. rewrite F2Q_add, F2Q_opp. reflexivity.
Qed.

Lemma F2Q_mul (a b e f : Z) : (F2Q (a * b) (e + f) == F2Q a e * F2Q b f)%Q.
Proof. unfold F2Q. rewrite inject_Z_mult, pow2_plus. ring. Qed.

Lemma F2Q_shift (m e k : Z) :
  0 <= k -> (F2Q (m * 2 ^ k) e == F2Q m (e + k))%Q.
Proof.
  intros H. unfold F2Q.
  rewrite inject_Z_mult, pow2_inject, pow2_plus by exact H. ring.
Qed.

Lemma F2Q_le (a b e : Z) : a <= b -> (F2Q a e <= F2Q b e)%Q.
Proof.
  intros H. unfold F2Q. apply Qmult_le_compat_r.
  - rewrite <- Zle_Qle. exact H.
  - apply Qlt_le_weak, pow2_pos.
Qed.

Lemma F2Q_abs (a e : Z) : (Qabs (F2Q a e) == F2Q (Z.abs a) e)%Q.
Proof.
  unfold F2Q. rewrite Qabs_Qmult.
  rewrite (Qabs_pos (2 ^ e)) by (apply Qlt_le_weak, pow2_pos).
  reflexivity.
Qed.

Lemma F2Q_cond_Zopp (s : bool) (a e : Z) :
  (Qabs (F2Q (cond_Zopp s a) e) == F2Q (Z.abs a) e)%Q.
Proof.
  rewrite F2Q_abs. destruct s; simpl; [rewrite Z.abs_opp|]; reflexivity.
Qed.

Lemma SFvalue_finite (s : bool) (m : positive) (e : Z) (q : Q) :
  SFvalue (S754_finite s m e) = Some q ->
  (q == F2Q (cond_Zopp s (Z.pos m)) e)%Q.
Proof.
  simpl. intros [= <-].
  replace (if s then Z.neg m else Z.pos m) with (cond_Zopp s (Z.pos m))
    by (destruct s; reflexivity).
  set (n := cond_Zopp s (Z.pos m)). unfold F2Q.
  destruct (0 <=? e) eqn:He.
  - apply Z.leb_le in He. rewrite <- pow2_inject by exact He.
    rewrite <- inject_Z_mult. reflexivity.
  - apply Z.leb_gt in He.
    assert (Hp : 0 < 2 ^ (- e)) by (apply Z.pow_pos_nonneg; lia).
    rewrite Qmake_Qdiv. rewrite Z2Pos.id by exact Hp.
    rewrite pow2_inject by lia.
    rewrite Qpower_opp. unfold Qdiv. rewrite Qinv_involutive. reflexivity.
Qed.

Lemma roundsTo_value (s : bool) (m1 e1 : Z) (r : spec_float) (q : Q) :
  roundsTo s m1 e1 r -> SFvalue r = Some q ->
  (q == F2Q (cond_Zopp s m1) e1)%Q.
Proof.
  intros [->| |m e He <-].
  - intros [= <-]. destruct s; unfold F2Q; cbn [cond_Zopp Z.opp];
      change (inject_Z 0) with 0%Q; rewrite Qmult_0_l; reflexivity.
  - discriminate.
  - intros H. rewrite (SFvalue_finite _ _ _ _ H).
    replace (cond_Zopp s (Z.pos m * 2 ^ (e - e1)))
      with (cond_Zopp s (Z.pos m) * 2 ^ (e - e1))
      by (destruct s; simpl; ring).
    rewrite F2Q_shift by lia. replace (e1 + (e - e1)) with e by lia.
    reflexivity.
Qed.

(** One rounding: the number returned for [mx * 2^ex], if finite, is
    within a relative [2^-52] of it, or within [2^-1074]. *)
Lemma binary_round_aux_error (s : bool) (mx : positive) (ex : Z) (q : Q) :
  SFvalue (binary_round_aux prec emax s (Z.pos mx) ex loc_Exact) = Some q ->
  (Qabs (q - F2Q (cond_Zopp s (Z.pos mx)) ex)
   <= 2 ^ (-52) * Qabs (F2Q (cond_Zopp s (Z.pos mx)) ex) + 2 ^ (-1074))%Q.
Proof.
  intros Hq.
  assert (Hnn : (0 <= 2 ^ (-52) * Qabs (F2Q (cond_Zopp s (Z.pos mx)) ex))%Q).
  { apply Qmult_le_0_compat; [discriminate | apply Qabs_nonneg]. }
  destruct (binary_round_aux_cases s mx ex) as [(Hle & Hr)|(Hlt & m1 & Hm1 & Hr)].
  - rewrite (roundsTo_value _ _ _ _ _ Hr Hq).
    setoid_replace (F2Q (cond_Zopp s (Z.pos mx)) ex
                    - F2Q (cond_Zopp s (Z.pos mx)) ex)%Q with 0%Q
      using relation Qeq by ring.
    simpl Qabs.
    apply Qle_trans with (1 := Hnn).
    rewrite <- (Qplus_0_r (_ * _)) at 1.
    apply Qplus_le_r. discriminate.
  - set (e1 := fexp prec emax (Z.pos (digits2_pos mx) + ex)) in *.
    set (n := e1 - ex) in *.
    assert (Hn : 0 < n) by (unfold n; lia).
    assert (Hp : 0 < 2 ^ n) by (apply Z.pow_pos_nonneg; lia).
    rewrite (roundsTo_value _ _ _ _ _ Hr Hq).
    replace e1 with (ex + n) at 1 by (unfold n; lia).
    rewrite <- F2Q_shift by lia.
    rewrite <- F2Q_sub.
    replace (cond_Zopp s m1 * 2 ^ n - cond_Zopp s (Z.pos mx))
      with (cond_Zopp s (m1 * 2 ^ n - Z.pos mx))
      by (destruct s; simpl; ring).
    rewrite !F2Q_cond_Zopp.
    pose proof (Z.div_mod (Z.pos mx) (2 ^ n) ltac:(lia)) as Hdm.
    pose proof (Z.mod_pos_bound (Z.pos mx) (2 ^ n) Hp) as Hmod.
    apply Qle_trans with (F2Q (2 ^ n) ex).
    { apply F2Q_le. nia. }
    setoid_replace (F2Q (2 ^ n) ex) with (2 ^ e1)%Q using relation Qeq.
    2:{ rewrite <- (Z.mul_1_l (2 ^ n)). rewrite F2Q_shift by lia.
        replace (ex + n) with e1 by (unfold n; lia).
        unfold F2Q. ring. }
    rewrite Z.abs_eq by lia.
    assert (Hmx : (0 <= F2Q (Z.pos mx) ex)%Q).
    { unfold F2Q.
      setoid_replace 0%Q with (0 * 2 ^ ex)%Q using relation Qeq
        by (rewrite Qmult_0_l; reflexivity).
      apply Qmult_le_compat_r; [discriminate | apply Qlt_le_weak, pow2_pos]. }
    destruct (Z.eq_dec e1 (-1074)) as [E|E].
    + rewrite E.
      assert (0 <= 2 ^ (-52) * F2Q (Z.pos mx) ex)%Q
        by (apply Qmult_le_0_compat; [discriminate | exact Hmx]).
      lra.
    + set (d := Z.pos (digits2_pos mx)) in *.
      assert (He1 : e1 = -52 + ((d - 1) + ex))
        by (unfold e1, fexp, emin, prec, emax in *; lia).
      rewrite He1, !pow2_plus.
      assert (Hd : (2 ^ (d - 1) * 2 ^ ex <= F2Q (Z.pos mx) ex)%Q).
      { rewrite <- pow2_inject by (unfold d; lia).
        apply (F2Q_le (2 ^ (d - 1)) (Z.pos mx) ex).
        apply digits2_pos_lower. }
      assert (H52 : (0 <= 2 ^ (-52))%Q) by discriminate.
      apply Qle_trans with (2 ^ (-52) * F2Q (Z.pos mx) ex)%Q.
      * apply Qmult_le_l; [reflexivity | exact Hd].
      * rewrite <- (Qplus_0_r (_ * _)) at 1.
        apply Qplus_le_r. discriminate.
Qed.

Lemma Qabs_cases (t : Q) :
  (0 <= t /\ Qabs t == t)%Q \/ (t <= 0 /\ Qabs t == - t)%Q.
Proof.
  destruct (Qlt_le_dec t 0) as [H|H].
  - right. split; [apply Qlt_le_weak, H | apply Qabs_neg, Qlt_le_weak, H].
  - left. split; [exact H | apply Qabs_pos, H].
Qed.

(** Three roundings: a difference of two rounded products. *)
Lemma rotation_error_sub (a b p1 p2 r : Q) :
  rounded p1 a -> rounded p2 b -> rounded r (p1 - p2) ->
  (Qabs (r - (a - b)) <= 2 ^ (-50) * (Qabs a + Qabs b) + 2 ^ (-1072))%Q.
Proof.
  unfold rounded.
  let u := eval vm_compute in (2 ^ (-52))%Q in
  change (2 ^ (-52))%Q with u.
  let u := eval vm_compute in (2 ^ (-50))%Q in
  change (2 ^ (-50))%Q with u.
  let u := eval vm_compute in (2 ^ (-1074))%Q in
  change (2 ^ (-1074))%Q with u.
  let u := eval vm_compute in (2 ^ (-1072))%Q in
  change (2 ^ (-1072))%Q with u.
  rewrite !Qabs_Qle_condition.
  destruct (Qabs_cases a) as [[Ha Ea]|[Ha Ea]];
    destruct (Qabs_cases b) as [[Hb Eb]|[Hb Eb]];
    destruct (Qabs_cases (p1 - p2)) as [[Hp Ep]|[Hp Ep]];
    revert Ea Eb Ep;
    generalize (Qabs a) (Qabs b) (Qabs (p1 - p2)); intros A B P Ea Eb Ep;
    intros H1 H2 H3; split; lra.
Qed.

#[local] Instance rounded_Proper : Proper (Qeq ==> Qeq ==> iff) rounded.
Proof. intros q q' Hq z z' Hz. unfold rounded. rewrite Hq, Hz. reflexivity. Qed.

Lemma rounded_exact (q z : Q) : (q == z)%Q -> rounded q z.
Proof.
  intros ->. unfold rounded.
  setoid_replace (z - z)%Q with 0%Q using relation Qeq by ring.
  pose proof (Qabs_nonneg z) as H. change (Qabs 0) with 0%Q.
  revert H. generalize (Qabs z). intros a H.
  let u := eval vm_compute in (2 ^ (-52))%Q in
  change (2 ^ (-52))%Q with u.
  let u := eval vm_compute in (2 ^ (-1074))%Q in
  change (2 ^ (-1074))%Q with u.
  lra.
Qed.

Lemma iter_xO (m d : positive) :
  Z.pos (Pos.iter xO m d) = Z.pos m * 2 ^ Z.pos d.
Proof.
  induction d as [|d IH] using Pos.peano_ind.
  - simpl. lia.
  - rewrite Pos.iter_succ, Pos2Z.inj_succ, Z.pow_succ_r by lia.
    rewrite Pos2Z.inj_xO, IH. ring.
Qed.

Lemma shl_align_F2Q (m : positive) (e e' : Z) :
  (F2Q (Z.pos (fst (shl_align m e e'))) (snd (shl_align m e e'))
   == F2Q (Z.pos m) e)%Q.
Proof.
  unfold shl_align. destruct (e' - e) as [|d|d] eqn:E; cbn [fst snd];
    try reflexivity.
  rewrite iter_xO, F2Q_shift by lia.
  replace (e' + Z.pos d) with e by lia. reflexivity.
Qed.

Lemma shl_align_snd (m : positive) (e e' : Z) :
  e' <= e -> snd (shl_align m e e') = e'.
Proof.
  intros H. unfold shl_align.
  destruct (e' - e) as [|d|d] eqn:E; cbn [snd]; lia.
Qed.

Lemma F2Q_cond (s : bool) (a e : Z) :
  (F2Q (cond_Zopp s a) e == if s then - F2Q a e else F2Q a e)%Q.
Proof. destruct s; simpl; [apply F2Q_opp | reflexivity]. Qed.

Lemma binary_normalize_error (m e : Z) (q : Q) :
  SFvalue (binary_normalize prec emax m e false) = Some q ->
  rounded q (F2Q m e).
Proof.
  destruct m as [|p|p]; cbn [binary_normalize].
  - intros [= <-]. apply rounded_exact. unfold F2Q.
    change (inject_Z 0) with 0%Q. rewrite Qmult_0_l. reflexivity.
  - unfold binary_round.
    pose proof (shl_align_F2Q p e (fexp prec emax (Z.pos (digits2_pos p) + e)))
      as H.
    destruct (shl_align _ _ _) as [mz ez]. cbn [fst snd] in H.
    intros Hq. apply binary_round_aux_error in Hq.
    cbn [cond_Zopp] in Hq. unfold rounded. rewrite <- H. exact Hq.
  - unfold binary_round.
    pose proof (shl_align_F2Q p e (fexp prec emax (Z.pos (digits2_pos p) + e)))
      as H.
    destruct (shl_align _ _ _) as [mz ez]. cbn [fst snd] in H.
    intros Hq. apply binary_round_aux_error in Hq.
    cbn [cond_Zopp] in Hq. unfold rounded.
    change (Z.neg p) with (- Z.pos p). rewrite F2Q_opp, <- H, <- F2Q_opp.
    exact Hq.
Qed.

Lemma aligned_value (s : bool) (m : positive) (e ez : Z) (q : Q) :
  ez <= e -> SFvalue (S754_finite s m e) = Some q ->
  (F2Q (cond_Zopp s (Z.pos (fst (shl_align m e ez)))) ez == q)%Q.
Proof.
  intros Hle Hq. rewrite (SFvalue_finite _ _ _ _ Hq).
  rewrite !F2Q_cond.
  pose proof (shl_align_F2Q m e ez) as H.
  rewrite (shl_align_snd m e ez Hle) in H.
  destruct s; rewrite H; reflexivity.
Qed.

Lemma value_SFvalue (x : float) : GoFloat.value x = SFvalue (Prim2SF x).
Proof. reflexivity. Qed.

Lemma mul_error (x y : float) (qx qy q : Q) :
  GoFloat.value x = Some qx -> GoFloat.value y = Some qy ->
  GoFloat.value (x * y) = Some q ->
  rounded q (qx * qy).
Proof.
  rewrite !value_SFvalue, FloatAxioms.mul_spec. unfold SF64mul, SFmul.
  destruct (Prim2SF x) as [sx|sx| |sx mx ex]; try discriminate;
    destruct (Prim2SF y) as [sy|sy| |sy my ey]; try discriminate.
  - intros [= <-] [= <-] [= <-]. apply rounded_exact. reflexivity.
  - intros [= <-] _ [= <-]. apply rounded_exact. ring.
  - intros _ [= <-] [= <-]. apply rounded_exact. ring.
  - intros Hx Hy Hq. apply binary_round_aux_error in Hq.
    unfold rounded.
    rewrite (SFvalue_finite _ _ _ _ Hx), (SFvalue_finite _ _ _ _ Hy).
    rewrite <- F2Q_mul.
    replace (cond_Zopp sx (Z.pos mx) * cond_Zopp sy (Z.pos my))
      with (cond_Zopp (xorb sx sy) (Z.pos (mx * my)))
      by (destruct sx, sy; simpl; lia).
    exact Hq.
Qed.

Lemma sub_error (x y : float) (qx qy q : Q) :
  GoFloat.value x = Some qx -> GoFloat.value y = Some qy ->
  GoFloat.value (x - y) = Some q ->
  rounded q (qx - qy).
Proof.
  rewrite !value_SFvalue, FloatAxioms.sub_spec. unfold SF64sub, SFsub.
  destruct (Prim2SF x) as [sx|sx| |sx mx ex]; try discriminate;
    destruct (Prim2SF y) as [sy|sy| |sy my ey]; try discriminate.
  - intros [= <-] [= <-] Hq. apply rounded_exact.
    destruct sx, sy; injection Hq as <-; reflexivity.
  - intros [= <-] Hy Hq. apply rounded_exact.
    rewrite (SFvalue_finite _ _ _ _ Hy), (SFvalue_finite _ _ _ _ Hq).
    rewrite !F2Q_cond. destruct sy; simpl; ring.
  - intros Hx [= <-] Hq. apply rounded_exact.
    rewrite Hx in Hq. injection Hq as <-. ring.
  - intros Hx Hy Hq. apply binary_normalize_error in Hq.
    rewrite F2Q_sub in Hq.
    rewrite (aligned_value _ _ _ _ _ (Z.le_min_l ex ey) Hx) in Hq.
    rewrite (aligned_value _ _ _ _ _ (Z.le_min_r ex ey) Hy) in Hq.
    exact Hq.
Qed.

Lemma add_error (x y : float) (qx qy q : Q) :
  GoFloat.value x = Some qx -> GoFloat.value y = Some qy ->
  GoFloat.value (x + y) = Some q ->
  rounded q (qx + qy).
Proof.
  rewrite !value_SFvalue, FloatAxioms.add_spec. unfold SF64add, SFadd.
  destruct (Prim2SF x) as [sx|sx| |sx mx ex]; try discriminate;
    destruct (Prim2SF y) as [sy|sy| |sy my ey]; try discriminate.
  - intros [= <-] [= <-] Hq. apply rounded_exact.
    destruct sx, sy; injection Hq as <-; reflexivity.
  - intros [= <-] Hy Hq. apply rounded_exact.
    rewrite Hy in Hq. injection Hq as <-. ring.
  - intros Hx [= <-] Hq. apply rounded_exact.
    rewrite Hx in Hq. injection Hq as <-. ring.
  - intros Hx Hy Hq. apply binary_normalize_error in Hq.
    rewrite F2Q_add in Hq.
    rewrite (aligned_value _ _ _ _ _ (Z.le_min_l ex ey) Hx) in Hq.
    rewrite (aligned_value _ _ _ _ _ (Z.le_min_r ex ey) Hy) in Hq.
    exact Hq.
Qed.

(** A sum or a difference is finite only if both operands are. *)
Lemma sub_finite (x y : float) (q : Q) :
  GoFloat.value (x - y) = Some q ->
  is_Some (GoFloat.value x) /\ is_Some (GoFloat.value y).
Proof.
  rewrite !value_SFvalue, FloatAxioms.sub_spec. unfold SF64sub, SFsub.
  destruct (Prim2SF x) as [sx|sx| |sx mx ex];
    destruct (Prim2SF y) as [sy|sy| |sy my ey];
    try discriminate; try (split; eexists; reflexivity).
  destruct sx, sy; discriminate.
Qed.

Lemma add_finite (x y : float) (q : Q) :
  GoFloat.value (x + y) = Some q ->
  is_Some (GoFloat.value x) /\ is_Some (GoFloat.value y).
Proof.
  rewrite !value_SFvalue, FloatAxioms.add_spec. unfold SF64add, SFadd.
  destruct (Prim2SF x) as [sx|sx| |sx mx ex];
    destruct (Prim2SF y) as [sy|sy| |sy my ey];
    try discriminate; try (split; eexists; reflexivity).
  destruct sx, sy; discriminate.
Qed.

(** The order of the values. *)

Lemma F2Q_pos (m : positive) (e : Z) : (0 < F2Q (Z.pos m) e)%Q.
Proof.
  unfold F2Q. apply Qmult_lt_0_compat; [reflexivity | apply pow2_pos].
Qed.

Lemma F2Q_lt (a b e : Z) : a < b -> (F2Q a e < F2Q b e)%Q.
Proof.
  intros H. unfold F2Q. apply Qmult_lt_compat_r; [apply pow2_pos|].
  rewrite <- Zlt_Qlt. exact H.
Qed.

(** Of two numbers in the format, the one with the greater exponent is
    the greater. *)
Lemma bounded_exponent_lt (m1 m2 : positive) (e1 e2 : Z) :
  bounded prec emax m1 e1 = true -> bounded prec emax m2 e2 = true ->
  e1 < e2 -> (F2Q (Z.pos m1) e1 < F2Q (Z.pos m2) e2)%Q.
Proof.
  unfold bounded, canonical_mantissa, fexp, emin, prec, emax.
  intros B1 B2 Hlt.
  apply andb_prop in B1, B2. destruct B1 as (B1 & _), B2 as (B2 & _).
  apply Z.eqb_eq in B1, B2.
  pose proof (digits2_pos_bound m1) as U1.
  pose proof (digits2_pos_lower m2) as L2.
  assert (D1 : Z.pos (digits2_pos m1) <= 53) by lia.
  assert (D2 : Z.pos (digits2_pos m2) = 53) by lia.
  rewrite D2 in L2. change (2 ^ (53 - 1)) with (2 ^ 52) in L2.
  assert (U : Z.pos m1 < 2 ^ 53).
  { eapply Z.lt_le_trans; [exact U1|]. apply Z.pow_le_mono_r; lia. }
  apply Qlt_le_trans with (F2Q (2 ^ 53) e1).
  { apply F2Q_lt, U. }
  apply Qle_trans with (F2Q (2 ^ 52) e2).
  - replace e2 with (e1 + 1 + (e2 - e1 - 1)) by lia.
    rewrite <- F2Q_shift by lia.
    change (2 ^ 53) with (2 ^ 52 * 2 ^ 1).
    rewrite (F2Q_shift (2 ^ 52) e1 1) by lia.
    apply F2Q_le.
    assert (0 < 2 ^ (e2 - e1 - 1)) by (apply Z.pow_pos_nonneg; lia).
    change (2 ^ 52) with 4503599627370496. nia.
  - apply F2Q_le, L2.
Qed.

(** The comparison of the specification orders the finite numbers of
    the format as their values. *)
Lemma SFcompare_value (x y : spec_float) (qx qy : Q) :
  SpecFloat.valid_binary prec emax x = true ->
  SpecFloat.valid_binary prec emax y = true ->
  SFvalue x = Some qx -> SFvalue y = Some qy ->
  match SFcompare x y with
  | Some Eq => (qx == qy)%Q
  | Some Lt => (qx < qy)%Q
  | Some Gt => (qy < qx)%Q
  | None => False
  end.
Proof.
  intros Vx Vy Hx Hy.
  destruct x as [sx|sx| |sx mx ex]; try discriminate Hx;
    destruct y as [sy|sy| |sy my ey]; try discriminate Hy.
  - injection Hx as <-. injection Hy as <-. reflexivity.
  - injection Hx as <-. pose proof (SFvalue_finite _ _ _ _ Hy) as Ey.
    pose proof (F2Q_pos my ey) as P. pose proof (F2Q_opp (Z.pos my) ey) as N.
    destruct sy; cbn [SFcompare cond_Zopp] in *; rewrite Ey. all: lra.
  - injection Hy as <-. pose proof (SFvalue_finite _ _ _ _ Hx) as Ex.
    pose proof (F2Q_pos mx ex) as P. pose proof (F2Q_opp (Z.pos mx) ex) as N.
    destruct sx; cbn [SFcompare cond_Zopp] in *; rewrite Ex; lra.
  - pose proof (SFvalue_finite _ _ _ _ Hx) as Ex.
    pose proof (SFvalue_finite _ _ _ _ Hy) as Ey.
    pose proof (F2Q_pos mx ex) as Px. pose proof (F2Q_opp (Z.pos mx) ex) as Nx.
    pose proof (F2Q_pos my ey) as Py. pose proof (F2Q_opp (Z.pos my) ey) as Ny.
    cbn [SpecFloat.valid_binary] in Vx, Vy.
    assert (Hcmp : match Z.compare ex ey with
                   | Lt => (F2Q (Z.pos mx) ex < F2Q (Z.pos my) ey)%Q
                   | Gt => (F2Q (Z.pos my) ey < F2Q (Z.pos mx) ex)%Q
                   | Eq => match Pos.compare_cont Eq mx my with
                           | Lt => (F2Q (Z.pos mx) ex < F2Q (Z.pos my) ey)%Q
                           | Gt => (F2Q (Z.pos my) ey < F2Q (Z.pos mx) ex)%Q
                           | Eq => (F2Q (Z.pos mx) ex == F2Q (Z.pos my) ey)%Q
                           end
                   end).
    { destruct (Z.compare_spec ex ey) as [E|L|G].
      - subst ey. change (Pos.compare_cont Eq mx my) with (Pos.compare mx my).
        destruct (Pos.compare_spec mx my) as [E|L|G].
        + subst my. reflexivity.
        + apply F2Q_lt. lia.
        + apply F2Q_lt. lia.
      - apply bounded_exponent_lt; assumption.
      - apply bounded_exponent_lt; assumption. }
    destruct sx, sy; cbn [SFcompare cond_Zopp] in *.
    + destruct (Z.compare ex ey); [destruct (Pos.compare_cont Eq mx my)| |];
        cbn [CompOpp]; rewrite Ex, Ey; lra.
    + rewrite Ex, Ey; lra.
    + rewrite Ex, Ey; lra.
    + destruct (Z.compare ex ey); [destruct (Pos.compare_cont Eq mx my)| |];
        rewrite Ex, Ey; lra.
Qed.

(** Go's [>] on finite numbers is the order of their values. *)
Lemma gt_of_values (a b : float) (qa qb : Q) :
  GoFloat.value a = Some qa -> GoFloat.value b = Some qb ->
  GoFloat.gt a b = (if Qlt_le_dec qb qa then true else false).
Proof.
  intros Ha Hb. unfold GoFloat.gt. rewrite FloatAxioms.ltb_spec.
  unfold SFltb.
  pose proof (SFcompare_value _ _ _ _ (FloatAxioms.Prim2SF_valid b)
                (FloatAxioms.Prim2SF_valid a) Hb Ha) as H.
  destruct (SFcompare (Prim2SF b) (Prim2SF a)) as [[| |]|];
    destruct (Qlt_le_dec qb qa) as [L|G]; try reflexivity; try contradiction;
    lra.
Qed.

Lemma gt_beyond_rounding (x W : float) (p w q : Q) :
  GoFloat.value x = Some p -> GoFloat.value W = Some w ->
  GoFloat.value (x + 64)%float = Some q ->
  (w + (2 ^ (-52) * Qabs (p + 64) + 2 ^ (-1074)) < p + 64)%Q ->
  GoFloat.gt (x + 64)%float W = true.
Proof.
  intros Hp Hw Hq Hm.
  assert (H64 : GoFloat.value 64%float
                = Some (4503599627370496 # 70368744177664)%Q) by reflexivity.
  pose proof (add_error _ _ _ _ _ Hp H64 Hq) as R. unfold rounded in R.
  setoid_replace (4503599627370496 # 70368744177664)%Q with 64%Q
    using relation Qeq in R by reflexivity.
  rewrite (gt_of_values _ _ _ _ Hq Hw).
  destruct (Qlt_le_dec w q) as [L|G]; [reflexivity|exfalso].
  apply Qabs_Qle_condition in R. destruct R as (R1 & R2).
  revert Hm R1 R2. generalize (2 ^ (-52) * Qabs (p + 64) + 2 ^ (-1074))%Q.
  intros d Hm R1 R2. lra.
Qed.

(** ** The boundary clamp *)

Lemma bounceX_PosX (f : Fish) (config : TerminalConfig) :
  PosX (bounceX f config) = clampAxis (PosX f) 64 (termPixelWidth config).
Proof.
  unfold bounceX, clampAxis.
  destruct (GoFloat.gt _ _); [reflexivity|].
  destruct (GoFloat.lt _ _); reflexivity.
Qed.

Lemma bounceY_PosY (f : Fish) (config : TerminalConfig) :
  PosY (bounceY f config) = clampAxis (PosY f) 36 (usableHeight config).
Proof.
  unfold bounceY, clampAxis.
  destruct (GoFloat.gt _ _); [reflexivity|].
  destruct (GoFloat.lt _ _); reflexivity.
Qed.

Lemma clampAxis_bounds (x size lim : float) :
  GoFloat.isFinite size = true ->
  GoFloat.isNum x = true ->
  GoFloat.le 0 (lim - size) = true ->
  GoFloat.le 0 (clampAxis x size lim) = true
  /\ (GoFloat.le (clampAxis x size lim) (lim - size) = true
      \/ GoFloat.le (clampAxis x size lim + size) lim = true).
Proof.
  intros Hsize Hx Hfit. unfold clampAxis.
  destruct (leb_true_isNum _ _ Hfit) as (_ & Hdiff).
  destruct (sub_isNum _ _ Hdiff) as (Hlim & _).
  destruct (GoFloat.gt (x + size) lim) eqn:Hgt.
  - split; [exact Hfit | left; apply leb_refl, Hdiff].
  - destruct (GoFloat.lt x 0) eqn:Hlt.
    + split; [reflexivity | left; exact Hfit].
    + split; [apply not_lt0_ge0; assumption|].
      right. apply not_gt_le; try assumption.
      apply add_finite_isNum; assumption.
Qed.

(** C1 (as amended): when the canvas holds the sprite
    ([canvasWidth - 64 >= 0] and [usableHeight - 36 >= 0]) and the
    integrated position is a number, then after [Update] the position
    satisfies [0 <= PosX], [0 <= PosY], and the upper bounds in one of
    their two float64 forms: [PosX <= canvasWidth - 64] or
    [PosX + 64 <= canvasWidth], and [PosY <= usableHeight - 36] or
    [PosY + 36 <= usableHeight]. *)
Theorem Update_keeps_fish_in_canvas (f : Fish) (config : TerminalConfig)
    (deltaTime : float) (rnd : UpdateRand) :
  GoFloat.isNum (PosX (integrate f deltaTime)) = true ->
  GoFloat.isNum (PosY (integrate f deltaTime)) = true ->
  GoFloat.le 0 (termPixelWidth config - 64) = true ->
  GoFloat.le 0 (usableHeight config - 36) = true ->
  let g := Update f config deltaTime rnd in
  GoFloat.le 0 (PosX g) = true
  /\ (GoFloat.le (PosX g) (termPixelWidth config - 64) = true
      \/ GoFloat.le (PosX g + 64) (termPixelWidth config) = true)
  /\ GoFloat.le 0 (PosY g) = true
  /\ (GoFloat.le (PosY g) (usableHeight config - 36) = true
      \/ GoFloat.le (PosY g + 36) (usableHeight config) = true).
Proof.
  intros HnX HnY HfitX HfitY g.
  destruct (Update_motion f config deltaTime rnd) as (HX & HY & _ & _).
  fold g in HX, HY. rewrite HX, HY.
  destruct (bounceY_X (bounceX (integrate f deltaTime) config) config)
    as (-> & _).
  rewrite bounceX_PosX, bounceY_PosY.
  destruct (bounceX_Y (integrate f deltaTime) config) as (-> & _).
  destruct (clampAxis_bounds (PosX (integrate f deltaTime)) 64
              (termPixelWidth config) eq_refl HnX HfitX).
  destruct (clampAxis_bounds (PosY (integrate f deltaTime)) 36
              (usableHeight config) eq_refl HnY HfitY).
  tauto.
Qed.

Lemma Update_keeps_fish_in_canvas_witness :
  let g := Update fishAtRightWall defaultConfig 0.5 noSpawn in
  GoFloat.le 0 (PosX g) = true
  /\ (GoFloat.le (PosX g) (termPixelWidth defaultConfig - 64) = true
      \/ GoFloat.le (PosX g + 64) (termPixelWidth defaultConfig) = true)
  /\ GoFloat.le 0 (PosY g) = true
  /\ (GoFloat.le (PosY g) (usableHeight defaultConfig - 36) = true
      \/ GoFloat.le (PosY g + 36) (usableHeight defaultConfig) = true).
Proof.
  apply (Update_keeps_fish_in_canvas fishAtRightWall defaultConfig 0.5 noSpawn);
    vm_compute; reflexivity.
Defined.

(** C1 as stated fails: all configurations below have positive columns,
    rows and cell sizes and the time steps are not negative, yet
    - in a terminal narrower than the sprite the clamp puts the fish at
      [canvasWidth - 64 = -8], left of zero;
    - a fish one unit in the last place beyond [canvasWidth - 64] is not
      caught by the test [PosX + 64 > canvasWidth], whose sum rounds to
      [canvasWidth], and stays there;
    - a position that is not a number passes both tests and is kept. *)
Lemma Update_out_of_canvas :
  (positiveConfig narrowConfig = true
   /\ GoFloat.le 0 0.5 = true
   /\ PosX (Update restingFish narrowConfig 0.5 noSpawn) = (-8)%float
   /\ GoFloat.le 0 (PosX (Update restingFish narrowConfig 0.5 noSpawn)) = false)
  /\ (positiveConfig wideConfig = true
      /\ GoFloat.le 0 0.5 = true
      /\ (termPixelWidth wideConfig - 64)%float = 976%float
      /\ (PosX fishPastEdge + 64)%float = termPixelWidth wideConfig
      /\ PosX (Update fishPastEdge wideConfig 0.5 noSpawn) = PosX fishPastEdge
      /\ GoFloat.le (PosX (Update fishPastEdge wideConfig 0.5 noSpawn))
                    (termPixelWidth wideConfig - 64) = false)
  /\ (positiveConfig defaultConfig = true
      /\ GoFloat.le 0 0 = true
      /\ GoFloat.le 0 (PosX (Update fishInfinitelyFast defaultConfig 0 noSpawn))
         = false).
Proof. vm_compute. repeat split. Qed.

(** ** Speed *)

Lemma bounceX_VelX_abs (f : Fish) (config : TerminalConfig) :
  abs (VelX (bounceX f config)) = abs (VelX f).
Proof.
  unfold bounceX.
  destruct (GoFloat.gt _ _); [simpl; apply abs_opp_abs|].
  destruct (GoFloat.lt _ _); [simpl; apply abs_abs | reflexivity].
Qed.

Lemma bounceY_VelY_abs (f : Fish) (config : TerminalConfig) :
  abs (VelY (bounceY f config)) = abs (VelY f).
Proof.
  unfold bounceY.
  destruct (GoFloat.gt _ _); [simpl; apply abs_opp_abs|].
  destruct (GoFloat.lt _ _); [simpl; apply abs_abs | reflexivity].
Qed.

Lemma Update_preserves_magnitudes (f : Fish) (config : TerminalConfig)
    (deltaTime : float) (rnd : UpdateRand) :
  abs (VelX (Update f config deltaTime rnd)) = abs (VelX f)
  /\ abs (VelY (Update f config deltaTime rnd)) = abs (VelY f).
Proof.
  destruct (Update_motion f config deltaTime rnd) as (_ & _ & -> & ->).
  destruct (bounceY_X (bounceX (integrate f deltaTime) config) config)
    as (_ & ->).
  rewrite bounceY_VelY_abs.
  destruct (bounceX_Y (integrate f deltaTime) config) as (_ & ->).
  rewrite bounceX_VelX_abs. split; reflexivity.
Qed.

(** C5 as stated fails: in a terminal 1040 pixels wide, a fish at
    [976 + 2^-43] creeping right is beyond the right boundary
    ([PosX + 64 > canvasWidth] in exact arithmetic, and [PosX] above
    [canvasWidth - 64] as float64 compares them), before and after the
    integration step.  The sum [PosX + 64] that [Update] compares with
    [canvasWidth] is rounded to [1040], so the test fails: the fish is
    not reflected, [VelX] stays positive and [PosX] stays beyond the
    boundary. *)
Lemma Update_misses_right_boundary :
  let f := fishCreepingPastEdge in
  let g := Update f wideConfig 0.5 noSpawn in
  GoFloat.value (termPixelWidth wideConfig)
  = Some (4573968371548160 # 4398046511104)%Q
  /\ (4573968371548160 # 4398046511104 == 1040 # 1)%Q
  /\ GoFloat.value (PosX (integrate f 0.5))
     = Some (8584986789675009 # 8796093022208)%Q
  /\ (1040 # 1 < (8584986789675009 # 8796093022208) + (64 # 1))%Q
  /\ GoFloat.gt (PosX (integrate f 0.5)) (termPixelWidth wideConfig - 64)
     = true
  /\ GoFloat.gt (PosX (integrate f 0.5) + 64) (termPixelWidth wideConfig)
     = false
  /\ GoFloat.le (VelX g) 0 = false
  /\ VelX g = VelX f
  /\ PosX g = PosX f
  /\ GoFloat.gt (PosX g) (termPixelWidth wideConfig - 64) = true.
Proof. vm_compute. repeat split. Qed.

(** C5 (as amended): when the test of [Update] finds the integrated
    position beyond the right boundary ([PosX + 64 > canvasWidth] after
    [PosX += VelX*deltaTime], the sum and the comparison in float64),
    [Update] returns with [VelX <= 0] and [PosX] exactly
    [canvasWidth - 64]; the magnitude of [VelX] is the one it had (the
    sign alone flips).  The test finds every position that is beyond
    the boundary by more than one rounding of the sum: [PosX + 64]
    above [canvasWidth] by more than [2^-52 * |PosX + 64| + 2^-1074],
    in exact arithmetic. *)
Theorem Update_reflects_right (f : Fish) (config : TerminalConfig)
    (deltaTime : float) (rnd : UpdateRand) :
  let x := PosX (integrate f deltaTime) in
  let W := termPixelWidth config in
  (GoFloat.gt (x + 64)%float W = true ->
   GoFloat.le (VelX (Update f config deltaTime rnd)) 0%float = true
   /\ PosX (Update f config deltaTime rnd) = (W - 64)%float
   /\ abs (VelX (Update f config deltaTime rnd)) = abs (VelX f))
  /\ (forall p w q : Q,
        GoFloat.value x = Some p -> GoFloat.value W = Some w ->
        GoFloat.value (x + 64)%float = Some q ->
        (w + (2 ^ (-52) * Qabs (p + 64) + 2 ^ (-1074)) < p + 64)%Q ->
        GoFloat.gt (x + 64)%float W = true).
Proof.
  intros x W. split; [|apply gt_beyond_rounding].
  intros Hgt.
  split; [|split; [|apply Update_preserves_magnitudes]].
  - destruct (Update_motion f config deltaTime rnd) as (_ & _ & -> & _).
    destruct (bounceY_X (bounceX (integrate f deltaTime) config) config)
      as (_ & ->).
    unfold bounceX. fold x W. rewrite Hgt.
    cbn [VelX setPosX setPos setVelX setVel].
    apply opp_abs_le0.
    apply ltb_true_isNum in Hgt. destruct Hgt as (_ & Hsum).
    apply add_isNum in Hsum. destruct Hsum as (Hpos & _).
    unfold x in Hpos. cbn [PosX integrate setPos] in Hpos.
    apply add_isNum in Hpos. destruct Hpos as (_ & Hmul).
    apply mul_isNum in Hmul. tauto.
  - destruct (Update_motion f config deltaTime rnd) as (-> & _ & _ & _).
    destruct (bounceY_X (bounceX (integrate f deltaTime) config) config)
      as (-> & _).
    unfold bounceX. fold x W. rewrite Hgt. reflexivity.
Qed.

Lemma Update_reflects_right_witness :
  let x := PosX (integrate fishAtRightWall 0.5) in
  let W := termPixelWidth defaultConfig in
  let g := Update fishAtRightWall defaultConfig 0.5 (mkUpdateRand 0.5 0) in
  GoFloat.value x = Some (5233675348213760 # 8796093022208)%Q
  /\ GoFloat.value W = Some (5629499534213120 # 8796093022208)%Q
  /\ GoFloat.value (x + 64)%float = Some (5796625301635072 # 8796093022208)%Q
  /\ GoFloat.gt (x + 64)%float W = true
  /\ GoFloat.le (VelX g) 0%float = true
  /\ PosX g = (W - 64)%float
  /\ abs (VelX g) = abs (VelX fishAtRightWall).
Proof.
  intros x W g.
  pose proof (Update_reflects_right fishAtRightWall defaultConfig 0.5
                                    (mkUpdateRand 0.5 0)) as (H1 & H2).
  fold x W g in H1, H2.
  assert (Hx : GoFloat.value x = Some (5233675348213760 # 8796093022208)%Q)
    by (vm_compute; reflexivity).
  assert (Hw : GoFloat.value W = Some (5629499534213120 # 8796093022208)%Q)
    by (vm_compute; reflexivity).
  assert (Hq : GoFloat.value (x + 64)%float
               = Some (5796625301635072 # 8796093022208)%Q)
    by (vm_compute; reflexivity).
  assert (Hgt : GoFloat.gt (x + 64)%float W = true).
  { apply (H2 _ _ _ Hx Hw Hq). vm_compute. reflexivity. }
  repeat (split; [assumption|]). apply (H1 Hgt).
Defined.

Lemma clickAngle_in (rnd : ClickRand) :
  clickAngle rnd = 90%float \/ clickAngle rnd = 180%float
  \/ clickAngle rnd = 260%float.
Proof.
  unfold clickAngle, Intn. simpl length.
  pose proof (Nat.mod_upper_bound (angleDraw rnd) 3) as H.
  destruct (angleDraw rnd mod 3)%nat as [|[|[|n]]]; simpl; auto. lia.
Qed.

Lemma fold_clickBubbles (f g : Fish) (rnd : ClickRand) (l : list nat) :
  let h := fold_left
             (fun g i => setBubbles g (Bubbles g ++ [clickBubble f rnd i])) l g in
  Bubbles h = Bubbles g ++ map (clickBubble f rnd) l
  /\ PosX h = PosX g /\ PosY h = PosY g /\ VelX h = VelX g /\ VelY h = VelY g
  /\ ID h = ID g /\ OwnerID h = OwnerID g /\ PlacementID h = PlacementID g
  /\ BobbingTime h = BobbingTime g /\ LastImageID h = LastImageID g
  /\ BubblesToClear h = BubblesToClear g.
Proof.
  revert g. induction l as [|i l IH]; intros g; simpl.
  - rewrite app_nil_r. tauto.
  - specialize (IH (setBubbles g (Bubbles g ++ [clickBubble f rnd i]))).
    simpl in IH. rewrite <- app_assoc in IH. simpl in IH. exact IH.
Qed.

Section ClickFacts.

Variables Cos Sin : float -> float.

(** What [OnClick] leaves: three more bubbles, staggered upward by 5
    pixels, and the velocity rotated (in float64) by the angle drawn. *)
Lemma OnClick_spec (f : Fish) (rnd : ClickRand) :
  let g := OnClick Cos Sin f rnd in
  let r := clickRadians rnd in
  Bubbles g = Bubbles f ++ [clickBubble f rnd 0; clickBubble f rnd 1;
                            clickBubble f rnd 2]
  /\ VelX g = (VelX f * Cos r - VelY f * Sin r)%float
  /\ VelY g = (VelX f * Sin r + VelY f * Cos r)%float
  /\ PosX g = PosX f /\ PosY g = PosY f
  /\ ID g = ID f /\ OwnerID g = OwnerID f /\ PlacementID g = PlacementID f
  /\ BobbingTime g = BobbingTime f /\ LastImageID g = LastImageID f.
Proof.
  intros g r. unfold g, OnClick. cbv zeta.
  pose proof (fold_clickBubbles f f rnd [0%nat; 1%nat; 2%nat]) as H.
  cbv zeta in H.
  set (f1 := fold_left _ [0%nat; 1%nat; 2%nat] f) in *.
  destruct H as (HB & HPX & HPY & HVX & HVY & HI & HO & HP & HT & HL & _).
  fold (clickAngle rnd). fold (clickRadians rnd). fold r.
  unfold setVel. cbn [Bubbles VelX VelY PosX PosY ID OwnerID PlacementID
                      BobbingTime LastImageID].
  rewrite HB, HPX, HPY, HVX, HVY, HI, HO, HP, HT, HL.
  repeat split; reflexivity.
Qed.

End ClickFacts.

(** ** The bobbing offset *)















(** The fish of the witness: its phase is 50 + 4.8 * 0.5, that is 52.4
    as float64 has it, and its offset is 0. *)
Example pondFish_phase :
  BobbingTime pondFish = 0x1.a333333333333p+5%float
  /\ bobbingOffset pondFish = 0%float.
Proof. vm_compute. repeat split. Qed.

(** The invariant matters: at a negative phase, which no fish holds,
    [int(-0.5)] is 0 (the conversion truncates toward zero), so the
    offset would be 0, while [floor(-0.5) mod 4] is 3 and asks for 6. *)
Remark bobbingOffset_negative_phase :
  GoFloat.value (BobbingTime (withBobbingTime (-0.5)))
  = Some (-4503599627370496 # 9007199254740992)%Q
  /\ (-4503599627370496 # 9007199254740992 == -1 # 2)%Q
  /\ bobbingOffset (withBobbingTime (-0.5)) = 0%float
  /\ bobOffsetSpec (-4503599627370496 # 9007199254740992) = 6%float.
Proof. vm_compute. repeat split. Qed.

(** ** Render: the deletion of the old variant *)

Lemma GoInt_rem_Some (a b : Z) :
  b <> 0 -> GoInt.rem a b = Some (Z.rem a b).
Proof.
  intros H. unfold GoInt.rem. destruct (Z.eqb_spec b 0); [contradiction|].
  reflexivity.
Qed.

Lemma GoInt_rem_0 (a : Z) : GoInt.rem a 0 = None.
Proof. reflexivity. Qed.

Lemma GoInt_quot_Some (a b : Z) :
  b <> 0 -> GoInt.quot a b = Some (GoInt.wrap64 (Z.quot a b)).
Proof.
  intros H. unfold GoInt.quot. destruct (Z.eqb_spec b 0); [contradiction|].
  reflexivity.
Qed.

Lemma clearCells_appends (cells : list (Z * Z)) (buf : UpdateBuffer) :
  exists cmds,
    commands (fold_left (fun b rc => AddClearCell b (fst rc) (snd rc)) cells buf)
    = commands buf ++ cmds.
Proof.
  revert buf. induction cells as [|c cells IH]; intros buf; simpl.
  - exists []. rewrite app_nil_r. reflexivity.
  - destruct (IH (AddClearCell buf (fst c) (snd c))) as (cmds & ->).
    simpl. rewrite <- app_assoc. eexists. reflexivity.
Qed.

Lemma renderBubbles_appends (config : TerminalConfig) (bs : list Bubble)
    (buf : UpdateBuffer) :
  exists cmds,
    commands (snd (renderBubbles config bs buf)) = commands buf ++ cmds.
Proof.
  revert buf. induction bs as [|b bs IH]; intros buf; simpl.
  - exists []. rewrite app_nil_r. reflexivity.
  - set (buf1 := if (0 <? PrevCol b) && (0 <? PrevRow b)
                 then AddClearCell buf (PrevRow b) (PrevCol b) else buf).
    assert (H1 : exists c1, commands buf1 = commands buf ++ c1).
    { unfold buf1. destruct ((0 <? PrevCol b) && (0 <? PrevRow b)).
      - simpl. eexists. reflexivity.
      - exists []. rewrite app_nil_r. reflexivity. }
    destruct H1 as (c1 & H1).
    match goal with |- context [if ?c then _ else _] => destruct c end.
    + match goal with
      | |- context [renderBubbles config bs ?b2] =>
          destruct (IH b2) as (c2 & H2);
          destruct (renderBubbles config bs b2) as [rest' buf3]
      end.
      simpl in *. rewrite H2, H1, <- !app_assoc. eexists. reflexivity.
    + destruct (IH buf1) as (c2 & H2).
      destruct (renderBubbles config bs buf1) as [rest' buf3].
      simpl in *. rewrite H2, H1, <- !app_assoc. eexists. reflexivity.
Qed.

(** What a call of [Render] returns when no cell size is zero: the
    buffer grows by the clears and the bubbles, then by the deletion of
    the variant recorded if it is another one, then by the cursor
    position and the placement of the current variant. *)
Lemma Render_spec (f : Fish) (buf : UpdateBuffer) (config : TerminalConfig) :
  CellWidth config <> 0 -> CellHeight config <> 0 ->
  exists g out pre row col w h xo yo,
    Render f buf config = Some (g, out)
    /\ LastImageID g = imageIDOf f
    /\ PlacementID g = PlacementID f
    /\ commands out
       = commands buf ++ pre
         ++ (if negb (LastImageID f =? 0) && negb (LastImageID f =? imageIDOf f)
             then [deleteCmd (LastImageID f) (PlacementID f)] else [])
         ++ [cursorCmd row col;
             placementCmd (imageIDOf f) (PlacementID f) w h xo yo].
Proof.
  intros Hw Hh. unfold Render. cbv zeta.
  rewrite !GoInt_rem_Some, !GoInt_quot_Some by assumption.
  destruct (clearCells_appends (BubblesToClear f) buf) as (c1 & H1).
  remember (fold_left (fun b rc => AddClearCell b (fst rc) (snd rc))
                      (BubblesToClear f) buf) as buf1 eqn:Ebuf1.
  cbn [mbind option_bind Bubbles setBubblesToClear].
  destruct (renderBubbles_appends config (Bubbles f) buf1) as (c2 & H2).
  destruct (renderBubbles config (Bubbles f) buf1) as [bs buf2].
  simpl in H2.
  do 2 eexists. exists (c1 ++ c2). do 6 eexists.
  split; [reflexivity|].
  split; [reflexivity|]. split; [reflexivity|].
  unfold imageIDOf. cbn [LastImageID PlacementID VelX setLastImageID
                         setBubbles setBubblesToClear].
  unfold AddFishPlacement, AddDeletePlacement, push.
  destruct (negb (LastImageID f =? 0)
            && negb (LastImageID f =? (if GoFloat.gt (VelX f) 0 then 2 else 1)));
    cbn [commands]; rewrite H2, H1, <- !app_assoc; reflexivity.
Qed.

Lemma Render_succeeds_inv (f : Fish) (buf : UpdateBuffer)
    (config : TerminalConfig) (g : Fish) (out : UpdateBuffer) :
  Render f buf config = Some (g, out) ->
  CellWidth config <> 0 /\ CellHeight config <> 0
  /\ LastImageID g = imageIDOf f /\ PlacementID g = PlacementID f.
Proof.
  intros H.
  assert (Hw : CellWidth config <> 0).
  { intros E. unfold Render in H. cbv zeta in H.
    rewrite E, GoInt_rem_0 in H. discriminate H. }
  assert (Hh : CellHeight config <> 0).
  { intros E. unfold Render in H. cbv zeta in H.
    rewrite (GoInt_rem_Some _ (CellWidth config)) in H by assumption.
    rewrite E, GoInt_rem_0 in H. discriminate H. }
  destruct (Render_spec f buf config Hw Hh)
    as (g' & out' & pre & row & col & w & h & xo & yo & HR & HL & HP & _).
  rewrite HR in H. injection H as <- <-. tauto.
Qed.

(** [Update] and [OnClick] leave the placement id and the recorded
    variant of a fish alone: only [Render] writes [LastImageID]. *)
Lemma Update_keeps_marks (f : Fish) (config : TerminalConfig) (dt : float)
    (rnd : UpdateRand) :
  LastImageID (Update f config dt rnd) = LastImageID f
  /\ PlacementID (Update f config dt rnd) = PlacementID f.
Proof.
  unfold Update, updateBubbles. cbv zeta.
  destruct (updateBubblesLoop dt _ _) as [a c]. cbn [LastImageID PlacementID
    setBubblesToClear setBubbles].
  destruct (GoFloat.lt (spawnRoll rnd) _);
    unfold spawnBubble, setBobbingTime, bounceY, bounceX, integrate;
    cbn [LastImageID PlacementID setBubbles];
    repeat (match goal with
            | |- context [if ?b then _ else _] => destruct b
            end; cbn [LastImageID PlacementID setPosY setPosX setVelY setVelX
                      setPos setVel]);
    split; reflexivity.
Qed.

Lemma imageIDOf_range (f : Fish) : imageIDOf f = 1 \/ imageIDOf f = 2.
Proof. unfold imageIDOf. destruct (GoFloat.gt _ _); auto. Qed.

(** C4: take two consecutive calls of [Render] for a fish, the first
    returning [f1]; whatever happened to the fish in between (it is [f2]
    now, with the placement id and the recorded variant of [f1], which
    [Update] and [OnClick] do not touch), if its variant differs from
    the one recorded, the second call returns, and what it appends to
    the buffer ends with three commands: the deletion
    [ESC _Ga=d,d=i,i=<old image>,p=<placement>,q=1 ESC \], then the
    cursor position [ESC [<row>;<col>H], then the placement
    [ESC _Ga=p,i=<new image>,p=<placement>,c=..,r=..,C=1,X=..,Y=..,q=1
    ESC \] of the new variant under the same placement id.  So the bytes
    of the buffer end with these three, in this order. *)
Theorem Render_deletes_old_variant_first (f0 f1 f2 : Fish)
    (buf0 out1 buf : UpdateBuffer) (config : TerminalConfig) :
  Render f0 buf0 config = Some (f1, out1) ->
  LastImageID f2 = LastImageID f1 ->
  PlacementID f2 = PlacementID f1 ->
  imageIDOf f2 <> LastImageID f1 ->
  exists g out pre row col w h xo yo,
    let deletion :=
      (String "027" "_Ga=d,d=i,i=" ++ fmt_d (LastImageID f1) ++ ",p=" ++ fmt_u (PlacementID f1)
       ++ ",q=1" ++ String "027" "\")%string in
    let cursor :=
      (String "027" "[" ++ fmt_d row ++ ";" ++ fmt_d col ++ "H")%string in
    let placement :=
      (String "027" "_Ga=p,i=" ++ fmt_d (imageIDOf f2) ++ ",p=" ++ fmt_u (PlacementID f1)
       ++ ",c=" ++ fmt_d w ++ ",r=" ++ fmt_d h ++ ",C=1,X=" ++ fmt_d xo
       ++ ",Y=" ++ fmt_d yo ++ ",q=1" ++ String "027" "\")%string in
    Render f2 buf config = Some (g, out)
    /\ commands out = commands buf ++ pre ++ [deletion; cursor; placement]
    /\ String_ out
       = (String_ buf ++ joinStrings pre ++ deletion ++ cursor
          ++ placement)%string
    /\ LastImageID g = (imageIDOf f2).
Proof.
  intros H1 HL HP Hdiff.
  destruct (Render_succeeds_inv _ _ _ _ _ H1) as (Hw & Hh & HL1 & _).
  destruct (Render_spec f2 buf config Hw Hh)
    as (g & out & pre & row & col & w & h & xo & yo & HR & HLg & _ & Hc).
  exists g, out, pre, row, col, w, h, xo, yo.
  assert (E0 : (LastImageID f1 =? 0) = false).
  { rewrite HL1. destruct (imageIDOf_range f0) as [-> | ->]; reflexivity. }
  assert (E1 : (LastImageID f1 =? imageIDOf f2) = false).
  { apply Z.eqb_neq. congruence. }
  rewrite HL, HP, E0, E1 in Hc. cbn [negb andb app] in Hc.
  cbv zeta.
  split; [exact HR|]. split; [exact Hc|]. split; [|exact HLg].
  unfold String_. rewrite Hc, !joinStrings_app, joinStrings_three.
  reflexivity.
Qed.

Lemma Render_deletes_old_variant_first_witness :
  exists g out pre row col w h xo yo,
    let deletion :=
      (String "027" "_Ga=d,d=i,i=" ++ fmt_d (LastImageID (fst renderedOnce)) ++ ",p=" ++ fmt_u (PlacementID (fst renderedOnce))
       ++ ",q=1" ++ String "027" "\")%string in
    let cursor :=
      (String "027" "[" ++ fmt_d row ++ ";" ++ fmt_d col ++ "H")%string in
    let placement :=
      (String "027" "_Ga=p,i=" ++ fmt_d (imageIDOf turnedFish) ++ ",p=" ++ fmt_u (PlacementID (fst renderedOnce))
       ++ ",c=" ++ fmt_d w ++ ",r=" ++ fmt_d h ++ ",C=1,X=" ++ fmt_d xo
       ++ ",Y=" ++ fmt_d yo ++ ",q=1" ++ String "027" "\")%string in
    Render turnedFish NewUpdateBuffer defaultConfig = Some (g, out)
    /\ commands out = commands NewUpdateBuffer ++ pre ++ [deletion; cursor; placement]
    /\ String_ out
       = (String_ NewUpdateBuffer ++ joinStrings pre ++ deletion ++ cursor
          ++ placement)%string
    /\ LastImageID g = (imageIDOf turnedFish).
Proof.
  apply (Render_deletes_old_variant_first fishAtRightWall (fst renderedOnce)
           turnedFish NewUpdateBuffer (snd renderedOnce) NewUpdateBuffer
           defaultConfig).
  - vm_compute. reflexivity.
  - vm_compute. reflexivity.
  - vm_compute. reflexivity.
  - vm_compute. discriminate.
Defined.

(** The second render of the fish that bounced off the right wall, on
    its values. *)
Example Render_turnedFish :
  option_map (fun r => String_ (snd r))
             (Render turnedFish NewUpdateBuffer defaultConfig)
  = Some (String "027" "_Ga=d,d=i,i=2,p=1,q=1"
          ++ String "027" "\" ++ String "027" "[8;73H"
          ++ String "027" "_Ga=p,i=1,p=1,c=8,r=3,C=1,X=0,Y=5,q=1"
          ++ String "027" "\")%string.
Proof. vm_compute. reflexivity. Qed.

(** ** HandleMouseClick *)

Section ClickRouting.

Variables Cos Sin : float -> float.

Lemma clickLoop_cons (connID : N) (mouseX mouseY : Z) (rnd : ClickRand)
    (fs : gmap N Fish) (k : N) (rest : list N) :
  clickLoop Cos Sin connID mouseX mouseY rnd fs (k :: rest)
  = match fs !! k with
    | None => clickLoop Cos Sin connID mouseX mouseY rnd fs rest
    | Some f =>
        if CheckCollision f mouseX mouseY then
          if negb (OwnerID f =? connID)%N then
            clickLoop Cos Sin connID mouseX mouseY rnd fs rest
          else <[k := OnClick Cos Sin f rnd]> fs
        else clickLoop Cos Sin connID mouseX mouseY rnd fs rest
    end.
Proof. reflexivity. Qed.

Lemma clickLoop_spec (connID : N) (mouseX mouseY : Z) (rnd : ClickRand)
    (fs : gmap N Fish) (order : list N) :
  (clickLoop Cos Sin connID mouseX mouseY rnd fs order = fs
   /\ noneClickable connID mouseX mouseY fs order)
  \/ (exists pre k post f,
        order = pre ++ k :: post
        /\ fs !! k = Some f
        /\ CheckCollision f mouseX mouseY = true
        /\ OwnerID f = connID
        /\ noneClickable connID mouseX mouseY fs pre
        /\ clickLoop Cos Sin connID mouseX mouseY rnd fs order
           = <[k := OnClick Cos Sin f rnd]> fs).
Proof.
  induction order as [|k rest IH].
  - left. split; [reflexivity|]. intros j g Hj. inversion Hj.
  - assert (Hskip :
      (forall g, fs !! k = Some g -> CheckCollision g mouseX mouseY = true ->
                 OwnerID g <> connID) ->
      clickLoop Cos Sin connID mouseX mouseY rnd fs (k :: rest)
      = clickLoop Cos Sin connID mouseX mouseY rnd fs rest ->
      (clickLoop Cos Sin connID mouseX mouseY rnd fs (k :: rest) = fs
       /\ noneClickable connID mouseX mouseY fs (k :: rest))
      \/ (exists pre k0 post f,
            k :: rest = pre ++ k0 :: post
            /\ fs !! k0 = Some f
            /\ CheckCollision f mouseX mouseY = true
            /\ OwnerID f = connID
            /\ noneClickable connID mouseX mouseY fs pre
            /\ clickLoop Cos Sin connID mouseX mouseY rnd fs (k :: rest)
               = <[k0 := OnClick Cos Sin f rnd]> fs)).
    { intros Hk Heq. rewrite Heq.
      destruct IH as [(IH1 & IH2) | (pre & k0 & post & f & E & Hf & Hc & Ho & Hn & Hr)].
      - left. split; [exact IH1|].
        intros j g Hj Hg Hcol. apply elem_of_cons in Hj as [-> | Hj].
        + eapply Hk; eassumption.
        + eapply IH2; eassumption.
      - right. exists (k :: pre), k0, post, f.
        repeat split; try assumption.
        + rewrite E. reflexivity.
        + intros j g Hj Hg Hcol. apply elem_of_cons in Hj as [-> | Hj].
          * eapply Hk; eassumption.
          * eapply Hn; eassumption. }
    destruct (fs !! k) as [f|] eqn:Hf.
    + destruct (CheckCollision f mouseX mouseY) eqn:Hc.
      * destruct (N.eqb_spec (OwnerID f) connID) as [Ho | Ho].
        -- right. exists [], k, rest, f.
           repeat split; try assumption.
           ++ intros j g Hj. inversion Hj.
           ++ rewrite clickLoop_cons, Hf, Hc.
              rewrite (proj2 (N.eqb_eq _ _) Ho). reflexivity.
        -- apply Hskip.
           ++ intros g [= <-] _. exact Ho.
           ++ rewrite clickLoop_cons, Hf, Hc.
              rewrite (proj2 (N.eqb_neq _ _) Ho). reflexivity.
      * apply Hskip.
        -- intros g [= <-] Hc'. congruence.
        -- rewrite clickLoop_cons, Hf, Hc. reflexivity.
    + apply Hskip.
      * intros g [=].
      * rewrite clickLoop_cons, Hf. reflexivity.
Qed.

Lemma OnClick_clickEffect (f : Fish) (rnd : ClickRand) :
  clickEffect Cos Sin f (OnClick Cos Sin f rnd).
Proof.
  destruct (OnClick_spec Cos Sin f rnd) as (HB & HVX & HVY & _).
  split.
  - exists (clickBubble f rnd 0), (clickBubble f rnd 1),
           (clickBubble f rnd 2).
    split; [exact HB|]. repeat split.
  - exists (clickAngle rnd). split; [apply clickAngle_in|].
    split; assumption.
Qed.

(** Any other button, or a click before the capability is set, changes
    nothing. *)
Lemma HandleMouseClick_ignored (m : Manager) (connID : N)
    (button col row : Z) (order : list N) (rnd : ClickRand) :
  termConfig m = None \/ button <> 0 ->
  HandleMouseClick Cos Sin m connID button col row order rnd = m.
Proof.
  intros [H | H]; unfold HandleMouseClick.
  - rewrite H. reflexivity.
  - destruct (termConfig m); [|reflexivity].
    destruct (Z.eqb_spec button 0); [contradiction | reflexivity].
Qed.

(** C2 (as amended): a left-button click ([button = 0]) with a
    capability set goes to the first fish, in the order of the
    iteration, that the click hits and that the clicking session owns;
    fish of other sessions that the click hits are skipped.  If there
    is none, no fish changes.  The fish clicked gets exactly three
    bubbles appended, at [PosY - 2], [PosY - 7] and [PosY - 12], and
    its velocity is rotated by an angle of 90, 180 or 260 degrees; all
    other fish, and the rest of the manager, are unchanged. *)
Theorem HandleMouseClick_first_owned_hit (m : Manager) (cfg : TerminalConfig)
    (connID : N) (col row : Z) (order : list N) (rnd : ClickRand) :
  termConfig m = Some cfg ->
  let mouseX := GoInt.mul (GoInt.sub col 1) (CellWidth cfg) in
  let mouseY := GoInt.mul (GoInt.sub row 1) (CellHeight cfg) in
  let m' := HandleMouseClick Cos Sin m connID 0 col row order rnd in
  (connections m' = connections m /\ termConfig m' = termConfig m
   /\ fishCounter m' = fishCounter m /\ animationStop m' = animationStop m)
  /\ ((fish m' = fish m
       /\ noneClickable connID mouseX mouseY (fish m) order)
      \/ (exists pre k post f,
            order = pre ++ k :: post
            /\ fish m !! k = Some f
            /\ CheckCollision f mouseX mouseY = true
            /\ OwnerID f = connID
            /\ noneClickable connID mouseX mouseY (fish m) pre
            /\ fish m' = <[k := OnClick Cos Sin f rnd]> (fish m)
            /\ (forall j, j <> k -> fish m' !! j = fish m !! j)
            /\ clickEffect Cos Sin f (OnClick Cos Sin f rnd))).
Proof.
  intros Hcfg mouseX mouseY m'.
  unfold m', HandleMouseClick. rewrite Hcfg. cbn [negb Z.eqb fish connections
    termConfig fishCounter animationStop].
  split; [repeat split|].
  fold mouseX mouseY.
  destruct (clickLoop_spec connID mouseX mouseY rnd (fish m) order)
    as [(H1 & H2) | (pre & k & post & f & E & Hf & Hc & Ho & Hn & Hr)].
  - left. split; assumption.
  - right. exists pre, k, post, f.
    repeat split; try assumption.
    + intros j Hj. rewrite Hr. apply lookup_insert_ne. congruence.
    + apply OnClick_clickEffect.
    + apply OnClick_clickEffect.
Qed.

End ClickRouting.

(** C2 as stated fails: session 1 clicks at column 14, row 8 (pixel
    (104, 112)), where both fish are; the fish visited first is fish 1,
    which the click hits and which session 1 does not own.  The event is
    not discarded: the loop goes on to fish 2, which gets three bubbles
    and a new velocity. *)
Lemma click_skips_foreign_fish :
  let m' := HandleMouseClick cosTable sinTable pondOfTwo 1 0 14 8
                             [1%N; 2%N] clickQuarterTurn in
  fish pondOfTwo !! 1%N = Some fishOfOther
  /\ CheckCollision fishOfOther 104 112 = true
  /\ OwnerID fishOfOther <> 1%N
  /\ fish m' !! 2%N = Some (OnClick cosTable sinTable fishOfClicker
                                    clickQuarterTurn)
  /\ length (Bubbles fishOfClicker) = 0%nat
  /\ length (Bubbles (OnClick cosTable sinTable fishOfClicker
                              clickQuarterTurn)) = 3%nat
  /\ PrimFloat.eqb (VelX (OnClick cosTable sinTable fishOfClicker
                                  clickQuarterTurn))
                   (VelX fishOfClicker) = false.
Proof.
  cbv zeta. repeat split; try (vm_compute; reflexivity).
  vm_compute. discriminate.
Qed.

Lemma HandleMouseClick_first_owned_hit_witness :
  termConfig pondOfTwo = Some defaultConfig
  /\ let order := [1%N; 2%N] in
     let m' := HandleMouseClick cosTable sinTable pondOfTwo 1 0 14 8
                                order clickQuarterTurn in
     (fish m' = fish pondOfTwo
      /\ noneClickable 1 104 112 (fish pondOfTwo) order)
     \/ (exists pre k post f,
           order = pre ++ k :: post
           /\ fish pondOfTwo !! k = Some f
           /\ CheckCollision f 104 112 = true
           /\ OwnerID f = 1%N
           /\ noneClickable 1 104 112 (fish pondOfTwo) pre
           /\ fish m' = <[k := OnClick cosTable sinTable f clickQuarterTurn]>
                          (fish pondOfTwo)
           /\ (forall j, j <> k -> fish m' !! j = fish pondOfTwo !! j)
           /\ clickEffect cosTable sinTable f
                          (OnClick cosTable sinTable f clickQuarterTurn)).
Proof.
  split; [reflexivity|].
  exact (proj2 (HandleMouseClick_first_owned_hit cosTable sinTable pondOfTwo
                  defaultConfig 1 14 8 [1%N; 2%N] clickQuarterTurn eq_refl)).
Defined.

(** ** The states of the manager *)

Lemma removeFish_lookup (ids : list N) (fs : gmap N Fish) (id : N) :
  removeFish fs ids !! id = if decide (id ∈ ids) then None else fs !! id.
Proof.
  unfold removeFish. revert fs. induction ids as [|x ids IH]; intros fs; simpl.
  - destruct (decide (id ∈ [])) as [H|_]; [inversion H | reflexivity].
  - assert (E : match fs !! x with Some _ => delete x fs | None => fs end
                = delete x fs).
    { destruct (fs !! x) eqn:Hx; [reflexivity|]. symmetry.
      apply delete_id, Hx. }
    rewrite E, IH.
    destruct (decide (id ∈ ids)) as [Hin|Hin].
    + rewrite decide_True by (right; exact Hin). reflexivity.
    + destruct (decide (id = x)) as [->|Hne].
      * rewrite decide_True by left. apply lookup_delete_eq.
      * rewrite decide_False.
        -- apply lookup_delete_ne. congruence.
        -- intros H. apply elem_of_cons in H. tauto.
Qed.



(** A tick that returns either returned at once and sent nothing (no
    connection, or no capability) or went through the fish; then it
    leaves the manager as it was but for the fish, and for the floor,
    which is rendered from then on. *)
Lemma updateAndBroadcast_inv
    (addFloorTile : UpdateBuffer -> Z -> Z -> Z -> N -> Z -> Z -> UpdateBuffer)
    (addStatusText : UpdateBuffer -> Z -> Z -> string -> UpdateBuffer)
    (m : Manager) (dt : float) (order : list N) (rnd : N -> UpdateRand)
    (statusDue : bool) (statusOrder : list N) (durationStr : string)
    (m' : Manager) (out : string) :
  updateAndBroadcast addFloorTile addStatusText m dt order rnd statusDue
                     statusOrder durationStr = Some (m', out) ->
  (m' = m /\ out = EmptyString
   /\ (termConfig m = None \/ connections m = ∅))
  \/ exists cfg fs buf,
       termConfig m = Some cfg
       /\ connections m <> ∅
       /\ tickLoop cfg dt rnd order (fish m) NewUpdateBuffer = Some (fs, buf)
       /\ m' = mkManager fs (connections m) (termConfig m) (animationStop m)
                         (fishCounter m) (connCounter m) (debugMode m)
                         (option_map
                            (fun aq => mkAquarium (FloorTileID aq) true)
                            (aquarium m)).
Proof.
  unfold updateAndBroadcast. intros H.
  destruct (termConfig m) as [cfg|] eqn:Hcfg;
    [|injection H as <- <-; left; auto].
  destruct (bool_decide (size (connections m) = 0%nat)) eqn:Hsz.
  { injection H as <- <-. left. split; [reflexivity|]. split; [reflexivity|].
    right. apply bool_decide_eq_true in Hsz.
    apply map_size_empty_inv, Hsz. }
  apply bool_decide_eq_false in Hsz.
  assert (Hne : connections m <> ∅)
    by (intros E; apply Hsz; rewrite E; apply map_size_empty).
  destruct (tickLoop cfg dt rnd order (fish m) NewUpdateBuffer)
    as [[fs buf]|] eqn:Hloop; [|discriminate].
  cbn [mbind option_bind] in H.
  right. exists cfg, fs, buf.
  split; [reflexivity|]. split; [exact Hne|]. split; [exact Hloop|].
  destruct (aquarium m) as [aq|].
  - destruct (if FloorRendered aq then _ else _) as [buf1|]; [|discriminate].
    cbn [mbind option_bind] in H.
    destruct (if statusDue then _ else _) as [buf2|]; [|discriminate].
    cbn [mbind option_bind] in H. injection H as <- _. reflexivity.
  - injection H as <- _. reflexivity.
Qed.

Lemma prepared_cases (h : Handler) (m : Manager) :
  (termConfig m <> None /\ prepared h m = m)
  \/ (termConfig m = None
      /\ prepared h m
         = mkManager (fish m) (connections m) (Some (handlerConfig h)) true
                     (fishCounter m) (connCounter m) (debugMode m)
                     (aquarium m)).
Proof.
  unfold prepared, GetTerminalConfig.
  destruct (termConfig m) as [cfg|] eqn:E; [left; split; [discriminate | reflexivity]|].
  right. split; [reflexivity|].
  unfold StartAnimation, SetTerminalConfig. cbn [animationStop].
  destruct (animationStop m) eqn:Ea; cbn; rewrite ?Ea; reflexivity.
Qed.





(** The state of the witness: one session in debug mode, after the first
    tick, which has rendered the floor. *)
Example debugSessionTicked_state :
  debugMode debugSessionTicked = true
  /\ aquarium debugSessionTicked = Some (mkAquarium 0 true)
  /\ animationStop debugSessionTicked = true
  /\ GetFishCount debugSessionTicked = 1%nat.
Proof. vm_compute. repeat split. Qed.

(** The guard of the reset matters for a caller that sets a capability
    without starting the animation, which the program never does: after
    [NewManager], [AddConnection], [SetTerminalConfig] and [AddFish],
    removing the only session brings the count to 0 and deletes its
    fish, but the capability stays set and the counter of fish stays at
    1. *)
Remark RemoveConnection_idle_keeps_capability :
  let m' := RemoveConnection loneSessionIdle 1 in
  size (connections loneSessionIdle) = 1%nat
  /\ size (connections m') = 0%nat
  /\ termConfig m' = Some defaultConfig
  /\ fishCounter m' = 1%N.
Proof. vm_compute. repeat split. Qed.


(** ** The detection of the cell size *)

Lemma wrap64_small (z : Z) :
  GoInt.minInt64 <= z <= GoInt.maxInt64 -> GoInt.wrap64 z = z.
Proof.
  unfold GoInt.minInt64, GoInt.maxInt64, GoInt.wrap64. intros H.
  rewrite Z.mod_small by lia. lia.
Qed.

(** C8 as stated fails: the division is Go's integer division, which
    rounds down.  A window 1279 pixels wide and 1019 pixels high on 160
    columns by 50 rows gives cells 7 pixels wide, where rounding to the
    nearest integer gives 8 (1279/160 is 7.99); the height is 20 either
    way. *)
Lemma detected_cell_not_rounded :
  cellWidth (detectTerminal wideTerminal (Responded [1279; 1019])) = 7
  /\ cellSizeSpec 1279 160 = 8
  /\ cellHeight (detectTerminal wideTerminal (Responded [1279; 1019])) = 20
  /\ cellSizeSpec 1019 50 = 20.
Proof. vm_compute. repeat split. Qed.

(** C8 (as amended): for a response carrying the pixel width [W] and the
    pixel height [H] (decimal numbers that fit an [int]) and a session
    whose grid is [C] columns by [R] rows, with [0 < C <= W] and
    [0 < R <= H], the cell size derived is the integer quotient [W/C] by
    [H/R], rounded down: the greatest [q] with [q * C <= W], and the same
    for the height; each is at least 1, and the grid is left as it is. *)
Theorem detected_cell_is_quotient (h : Handler) (W H : Z) :
  0 < termColumns h -> 0 < termRows h ->
  termColumns h <= W <= GoInt.maxInt64 -> termRows h <= H <= GoInt.maxInt64 ->
  let h' := detectTerminal h (Responded [W; H]) in
  cellWidth h' = W / termColumns h
  /\ cellHeight h' = H / termRows h
  /\ cellWidth h' * termColumns h <= W < (cellWidth h' + 1) * termColumns h
  /\ cellHeight h' * termRows h <= H < (cellHeight h' + 1) * termRows h
  /\ 1 <= cellWidth h'
  /\ 1 <= cellHeight h'
  /\ termColumns h' = termColumns h
  /\ termRows h' = termRows h.
Proof.
  intros HC HR HW HH h'. unfold h', detectTerminal.
  rewrite (proj2 (Z.ltb_lt _ _) HC), (proj2 (Z.ltb_lt _ _) HR).
  cbn [andb cellWidth cellHeight termColumns termRows].
  rewrite !Z.quot_div_nonneg by lia.
  assert (Hq : forall p c, 0 < c -> c <= p <= GoInt.maxInt64 ->
                 GoInt.wrap64 (p / c) = p / c
                 /\ p / c * c <= p < (p / c + 1) * c
                 /\ 1 <= p / c).
  { intros p c Hc Hp.
    assert (1 <= p / c) by (apply Z.div_le_lower_bound; lia).
    assert (p / c <= p) by (apply Z.div_le_upper_bound; nia).
    pose proof (Z.div_mod p c ltac:(lia)) as Ed.
    pose proof (Z.mod_pos_bound p c Hc) as Bd.
    split; [|split; [nia | assumption]].
    apply wrap64_small. unfold GoInt.minInt64, GoInt.maxInt64 in *. lia. }
  destruct (Hq W (termColumns h) HC HW) as (-> & HqW & HW1).
  destruct (Hq H (termRows h) HR HH) as (-> & HqH & HH1).
  tauto.
Qed.

Lemma detected_cell_is_quotient_witness :
  let h' := detectTerminal wideTerminal (Responded [1279; 1019]) in
  cellWidth h' = 1279 / termColumns wideTerminal
  /\ cellHeight h' = 1019 / termRows wideTerminal
  /\ cellWidth h' * termColumns wideTerminal <= 1279
     < (cellWidth h' + 1) * termColumns wideTerminal
  /\ cellHeight h' * termRows wideTerminal <= 1019
     < (cellHeight h' + 1) * termRows wideTerminal
  /\ 1 <= cellWidth h'
  /\ 1 <= cellHeight h'
  /\ termColumns h' = termColumns wideTerminal
  /\ termRows h' = termRows wideTerminal.
Proof.
  apply (detected_cell_is_quotient wideTerminal 1279 1019);
    vm_compute; repeat split; discriminate.
Defined.

(** ** The timeout of the detection *)

Lemma NewFish_Some (id ownerID : N) (tw th cw ch : Z) (username color : string)
    (rnd : NewFishRand) :
  ch <> 0 ->
  exists f, NewFish id ownerID tw th cw ch username color rnd = Some f
            /\ OwnerID f = ownerID /\ ID f = id.
Proof.
  intros Hch. unfold NewFish. rewrite GoInt_quot_Some by exact Hch.
  cbn [mbind option_bind]. eexists. repeat split.
Qed.

(** A PTY request and a resize change the character grid and leave the
    default cell size of [connection.New]; a timeout, like an answer
    that carries no dimensions, leaves the handler as it is. *)
Lemma pending_handler_keeps_default_cells (cols rows cols' rows' : N) :
  cellWidth (Resize (SetTerminal New cols rows) cols' rows') = 8
  /\ cellHeight (Resize (SetTerminal New cols rows) cols' rows') = 16.
Proof. split; reflexivity. Qed.

Lemma detectTerminal_no_answer (h : Handler) :
  detectTerminal h TimedOut = h /\ detectTerminal h (Responded []) = h.
Proof. split; reflexivity. Qed.

(** C9 as stated fails: the character grid of the capability is the one
    of the session's PTY request, not 80 by 24.  A session that asked
    for 120 columns by 40 rows and never answers the query ends with the
    capability 120 by 40 characters, 8 by 16 pixels a cell. *)
Lemma timeout_keeps_session_grid :
  match snd (Start (SetTerminal New 120 40) NewManager "guest" 0
                   TimedOut midRand) with
  | Some (m', _) => termConfig m' = Some (mkTerminalConfig 120 40 8 16)
  | None => False
  end.
Proof. vm_compute. reflexivity. Qed.

(** C9 (as amended): a handler keeps the default cell size of 8 by 16
    pixels until a response arrives; when the first session of an epoch
    (no capability set) never answers and the wait times out, [Start]
    returns without error, the session keeps the character grid it has
    (80 by 24 unless a PTY request or a resize set another one) and the
    default cell size, that configuration becomes the capability of the
    epoch, the animation is started, and one fish is created for the
    session by [NewFish] with that configuration. *)
Theorem timeout_falls_back_to_default_cells (h : Handler) (m : Manager)
    (username : string) (floorDraw : nat) (rnd : NewFishRand) :
  cellWidth h = 8 -> cellHeight h = 16 ->
  termConfig m = None ->
  let h' := fst (Start h m username floorDraw TimedOut rnd) in
  let config := mkTerminalConfig (termColumns h) (termRows h) 8 16 in
  handlerConfig h' = config
  /\ (h = New -> config = mkTerminalConfig 80 24 8 16)
  /\ exists m' id f,
       snd (Start h m username floorDraw TimedOut rnd) = Some (m', [id])
       /\ termConfig m' = Some config
       /\ animationStop m' = true
       /\ fish m' !! id = Some f
       /\ OwnerID f = connID h'
       /\ NewFish id (connID h')
                  (GoInt.mul (termColumns h) 8) (GoInt.mul (termRows h) 16)
                  8 16 username EmptyString rnd = Some f.
Proof.
  intros Hw Hh Hcfg h' config.
  unfold h', Start, AddConnection, detectTerminalAndInit, detectTerminal,
    initializeAquarium, GetTerminalConfig.
  cbn [fst snd termConfig connID termColumns termRows cellWidth cellHeight].
  rewrite Hcfg.
  unfold handlerConfig.
  cbn [fst snd termConfig connID termColumns termRows cellWidth cellHeight].
  rewrite Hw, Hh. fold config.
  split; [reflexivity|]. split; [intros ->; reflexivity|].
  unfold AddFish, SetTerminalConfig, StartAnimation.
  cbn [fish connections termConfig animationStop fishCounter connCounter
       debugMode aquarium].
  destruct (NewFish_Some (GoInt.wrapU64 (fishCounter m + 1))
              (GoInt.wrapU64 (connCounter m + 1))
              (GoInt.mul (termColumns h) 8) (GoInt.mul (termRows h) 16)
              8 16 username EmptyString rnd ltac:(discriminate))
    as (f & Hnf & Hown & _).
  match goal with
  | |- context [if ?b then _ else _] => destruct b
  end;
    cbn [fish connections termConfig animationStop fishCounter connCounter
         debugMode aquarium];
    rewrite lookup_insert_eq;
    cbn [ConnUsername ConnID FishIDs CellWidth CellHeight Columns Rows config];
    rewrite Hnf; cbn [mbind option_bind];
    (do 3 eexists; split; [reflexivity|];
     cbn [fish termConfig animationStop];
     split; [reflexivity|]; split; [reflexivity|];
     split; [apply lookup_insert_eq|]; split; [exact Hown | exact Hnf]).
Qed.

Lemma timeout_falls_back_to_default_cells_witness :
  let h := SetTerminal New 120 40 in
  let h' := fst (Start h NewManager "guest" 0 TimedOut midRand) in
  let config := mkTerminalConfig (termColumns h) (termRows h) 8 16 in
  handlerConfig h' = config
  /\ (h = New -> config = mkTerminalConfig 80 24 8 16)
  /\ exists m' id f,
       snd (Start h NewManager "guest" 0 TimedOut midRand) = Some (m', [id])
       /\ termConfig m' = Some config
       /\ animationStop m' = true
       /\ fish m' !! id = Some f
       /\ OwnerID f = connID h'
       /\ NewFish id (connID h')
                  (GoInt.mul (termColumns h) 8) (GoInt.mul (termRows h) 16)
                  8 16 "guest" EmptyString midRand = Some f.
Proof.
  apply (timeout_falls_back_to_default_cells (SetTerminal New 120 40)
           NewManager "guest" 0 midRand); reflexivity.
Defined.

(** ** The upload of an image *)

Lemma chunkSize_pos : (0 < chunkSize)%nat.
Proof. unfold chunkSize. lia. Qed.

Lemma uploadLoop_unfold (fuel i : nat) (s : string) (imageID : Z) :
  uploadLoop (S fuel) i s imageID
  = if (i <? String.length s)%nat then
      mkFrame (controlOf imageID (i =? 0)%nat
                         (i + chunkSize <? String.length s)%nat)
              (substring i (Nat.min (i + chunkSize) (String.length s) - i) s)
        :: uploadLoop fuel (i + chunkSize) s imageID
    else [].
Proof. reflexivity. Qed.

Lemma uploadLoop_spec (s : string) (imageID : Z) (fuel i : nat) :
  (String.length s - i <= fuel)%nat ->
  let frames := uploadLoop fuel i s imageID in
  payloads frames = substring i (String.length s - i) s
  /\ (frames = [] <-> (String.length s <= i)%nat)
  /\ forall j fr, frames !! j = Some fr ->
       control fr = controlOf imageID (i + j * chunkSize =? 0)%nat
                              (negb (j + 1 =? length frames)%nat)
       /\ ((j + 1 < length frames)%nat ->
           String.length (payload fr) = chunkSize)
       /\ (0 < String.length (payload fr) <= chunkSize)%nat.
Proof.
  pose proof chunkSize_pos as Hc.
  revert i. induction fuel as [|fuel IH]; intros i Hfuel.
  - simpl. replace (String.length s - i)%nat with 0%nat by lia.
    rewrite substring_zero_length.
    split; [reflexivity|]. split; [split; [lia | reflexivity]|].
    intros j fr H. rewrite lookup_nil in H. discriminate.
  - cbv zeta. rewrite uploadLoop_unfold.
    destruct (Nat.ltb_spec i (String.length s)) as [Hlt|Hge].
    + specialize (IH (i + chunkSize)%nat ltac:(lia)).
      cbv zeta in IH. destruct IH as (IHp & IHe & IHf).
      set (rest := uploadLoop fuel (i + chunkSize) s imageID) in *.
      assert (Hlen : String.length
                (substring i (Nat.min (i + chunkSize) (String.length s) - i) s)
              = (Nat.min (i + chunkSize) (String.length s) - i)%nat)
        by (apply substring_length_exact; lia).
      split; [|split].
      * unfold payloads, joinStrings in *. cbn [map fold_right payload].
        rewrite IHp.
        destruct (Nat.le_gt_cases (i + chunkSize) (String.length s)) as [Hle|Hgt].
        -- rewrite Nat.min_l by lia.
           replace (i + chunkSize - i)%nat with chunkSize by lia.
           replace (String.length s - i)%nat
             with (chunkSize + (String.length s - (i + chunkSize)))%nat by lia.
           symmetry. apply substring_split. lia.
        -- rewrite Nat.min_r by lia.
           replace (String.length s - (i + chunkSize))%nat with 0%nat by lia.
           rewrite substring_zero_length. apply append_empty_r.
      * split; [discriminate | lia].
      * intros [|j] fr Hj; simpl in Hj; cbn [length].
        -- injection Hj as <-. cbn [control payload]. rewrite Hlen.
           replace (i + 0 * chunkSize)%nat with i by lia.
           assert (Hmore : (i + chunkSize <? String.length s)%nat
                           = negb (0 + 1 =? S (length rest))%nat).
           { destruct (Nat.ltb_spec (i + chunkSize) (String.length s)) as [H|H].
             - destruct rest; [|reflexivity].
               exfalso. destruct IHe as (IHe & _). specialize (IHe eq_refl). lia.
             - destruct IHe as (_ & IHe). rewrite (IHe H). reflexivity. }
           rewrite Hmore. split; [reflexivity|]. split; [|lia].
           intros Hj. destruct rest as [|r rest'];
             [simpl in Hj; lia|].
           destruct (Nat.le_gt_cases (String.length s) (i + chunkSize))
             as [Hle|Hgt]; [destruct IHe as (_ & IHe); now specialize (IHe Hle)|].
           lia.
        -- destruct (IHf j fr Hj) as (Hctl & Hfull & Hbound).
           split; [|split].
           ++ rewrite Hctl. f_equal.
              destruct (Nat.eqb_spec (i + chunkSize + j * chunkSize) 0),
                (Nat.eqb_spec (i + S j * chunkSize) 0); try reflexivity; lia.
           ++ intros H. apply Hfull. lia.
           ++ exact Hbound.
    + split; [|split].
      * replace (String.length s - i)%nat with 0%nat by lia.
        rewrite substring_zero_length. reflexivity.
      * split; [lia | reflexivity].
      * intros j fr H. rewrite lookup_nil in H. discriminate.
Qed.

Lemma EncodeToString_empty (data : list Byte.byte) :
  (String.length (Base64.EncodeToString data) <= 0)%nat <-> data = [].
Proof.
  split; [|intros ->; simpl; lia].
  destruct data as [|x [|y [|z rest]]]; [reflexivity | | |];
    cbn [Base64.EncodeToString String.length]; lia.
Qed.

(** C3: for every image, the base64 text of the image is cut into
    chunks, every chunk but the last of exactly 4096 characters (the
    last of 1 to 4096), and [uploadImage] writes one frame for each
    chunk, in order: [ESC _G], the control data, [;], the chunk, [ESC \].
    The control data of the first frame are the action, the format, the
    image id and the more-chunks flag ([a=t,f=100,i=<id>,m=<flag>,q=1]),
    those of every later frame the flag only ([m=<flag>]); the flag is 0
    in the last frame and 1 in all the others.  So the chunks of the
    frames, one after the other, are the base64 text.  (An empty image
    has an empty text and no frame at all; any other image has a last
    frame.) *)
Theorem uploadImage_chunks_base64 (data : list Byte.byte) (imageID : Z) :
  exists chunks : list string,
    joinStrings chunks = Base64.EncodeToString data
    /\ (chunks = [] <-> data = [])
    /\ (forall (j : nat) (c : string), chunks !! j = Some c ->
          ((j + 1 < length chunks)%nat -> String.length c = 4096%nat)
          /\ (0 < String.length c <= 4096)%nat)
    /\ length (uploadImage data imageID) = length chunks
    /\ (forall (j : nat) (c : string), chunks !! j = Some c ->
          let flag := if (j + 1 =? length chunks)%nat then "0"%string
                      else "1"%string in
          uploadImage data imageID !! j
          = Some (String "027" "_G"
                  ++ (if (j =? 0)%nat
                      then "a=t,f=100,i=" ++ fmt_d imageID ++ ",m=" ++ flag
                           ++ ",q=1"
                      else "m=" ++ flag)
                  ++ ";" ++ c ++ String "027" "\")%string).
Proof.
  set (base64Data := Base64.EncodeToString data).
  set (frames := uploadFrames data imageID).
  destruct (uploadLoop_spec base64Data imageID (String.length base64Data) 0
              ltac:(lia)) as (Hp & He & Hf).
  cbv zeta in Hp, Hf.
  change (uploadLoop (String.length base64Data) 0 base64Data imageID)
    with frames in Hp, He, Hf.
  exists (map payload frames).
  split; [|split; [|split; [|split]]].
  - change (payloads frames = base64Data).
    rewrite Hp, Nat.sub_0_r. apply substring_whole.
  - split.
    + intros E. apply EncodeToString_empty, He.
      destruct frames; [reflexivity | discriminate E].
    + intros E. apply EncodeToString_empty, He in E. rewrite E. reflexivity.
  - intros j c Hj. rewrite list_lookup_fmap in Hj.
    destruct (frames !! j) as [fr|] eqn:Hfr; [|discriminate Hj].
    injection Hj as <-. rewrite length_map.
    destruct (Hf j fr Hfr) as (_ & Hfull & Hbound).
    split; assumption.
  - unfold uploadImage. fold frames. rewrite !length_map. reflexivity.
  - intros j c Hj flag. rewrite list_lookup_fmap in Hj.
    destruct (frames !! j) as [fr|] eqn:Hfr; [|discriminate Hj].
    injection Hj as <-.
    unfold uploadImage. fold frames. rewrite list_lookup_fmap, Hfr.
    cbn [fmap option_fmap option_map]. f_equal.
    destruct (Hf j fr Hfr) as (Hctl & _ & _).
    unfold frameBytes. rewrite Hctl. unfold controlOf, flag.
    rewrite length_map.
    assert (E : (0 + j * chunkSize =? 0)%nat = (j =? 0)%nat).
    { pose proof chunkSize_pos.
      destruct (Nat.eqb_spec (0 + j * chunkSize) 0), (Nat.eqb_spec j 0);
        try reflexivity; nia. }
    rewrite E.
    destruct (j + 1 =? length frames)%nat; destruct (j =? 0)%nat; reflexivity.
Qed.

(** ** The other three walls *)

Lemma abs_ge0 (x : float) :
  GoFloat.isNum x = true -> PrimFloat.leb 0 (abs x) = true.
Proof.
  rewrite isNum_spec, FloatAxioms.leb_spec, FloatAxioms.abs_spec. unfold SFleb.
  change (Prim2SF 0) with (S754_zero false).
  destruct (Prim2SF x) as [s|s| |s m e]; simpl; congruence.
Qed.

(** A position that was compared with success is a number, and so is
    the velocity it was integrated from. *)
Lemma integrated_isNum (p v dt : float) :
  GoFloat.isNum (p + v * dt)%float = true -> GoFloat.isNum v = true.
Proof.
  intros H. apply add_isNum in H. destruct H as (_ & H).
  apply mul_isNum in H. tauto.
Qed.

(** X1: when the integrated position is within the right boundary and left
    of zero ([PosX < 0] after [PosX += VelX*deltaTime]), [Update] returns
    with [VelX >= 0] and [PosX] exactly 0; the magnitude of [VelX] is
    the one it had. *)
Theorem Update_reflects_left (f : Fish) (config : TerminalConfig)
    (deltaTime : float) (rnd : UpdateRand) :
  GoFloat.gt (PosX (integrate f deltaTime) + 64)%float
             (termPixelWidth config) = false ->
  GoFloat.lt (PosX (integrate f deltaTime)) 0%float = true ->
  GoFloat.le 0%float (VelX (Update f config deltaTime rnd)) = true
  /\ PosX (Update f config deltaTime rnd) = 0%float
  /\ abs (VelX (Update f config deltaTime rnd)) = abs (VelX f).
Proof.
  intros Hgt Hlt.
  split; [|split; [|apply Update_preserves_magnitudes]].
  - destruct (Update_motion f config deltaTime rnd) as (_ & _ & -> & _).
    destruct (bounceY_X (bounceX (integrate f deltaTime) config) config)
      as (_ & ->).
    unfold bounceX. rewrite Hgt, Hlt. cbn [VelX setPosX setPos setVelX setVel].
    apply abs_ge0.
    apply ltb_true_isNum in Hlt. destruct Hlt as (Hpos & _).
    cbn [PosX integrate setPos] in Hpos.
    apply integrated_isNum in Hpos. exact Hpos.
  - destruct (Update_motion f config deltaTime rnd) as (-> & _ & _ & _).
    destruct (bounceY_X (bounceX (integrate f deltaTime) config) config)
      as (-> & _).
    unfold bounceX. rewrite Hgt, Hlt. reflexivity.
Qed.

(** X2: when the integrated position is below the usable height
    ([PosY + 36 > usableHeight]) [Update] returns with [VelY <= 0] and
    [PosY] exactly [usableHeight - 36]; when it is not, and is above the
    top ([PosY < 0]), with [VelY >= 0] and [PosY] exactly 0.  In both
    cases the magnitude of [VelY] is the one it had. *)
Theorem Update_reflects_floor_and_top (f : Fish) (config : TerminalConfig)
    (deltaTime : float) (rnd : UpdateRand) :
  GoFloat.gt (PosY (integrate f deltaTime) + 36)%float (usableHeight config)
  = true
  \/ GoFloat.lt (PosY (integrate f deltaTime)) 0%float = true ->
  let g := Update f config deltaTime rnd in
  abs (VelY g) = abs (VelY f)
  /\ (if GoFloat.gt (PosY (integrate f deltaTime) + 36)%float
                    (usableHeight config)
      then GoFloat.le (VelY g) 0%float = true
           /\ PosY g = (usableHeight config - 36)%float
      else GoFloat.le 0%float (VelY g) = true /\ PosY g = 0%float).
Proof.
  intros H g. split; [apply Update_preserves_magnitudes|].
  destruct (Update_motion f config deltaTime rnd) as (_ & HY & _ & HV).
  fold g in HY, HV. rewrite HY, HV.
  destruct (bounceX_Y (integrate f deltaTime) config) as (EY & EV).
  unfold bounceY. rewrite EY, EV.
  destruct (GoFloat.gt (PosY (integrate f deltaTime) + 36) (usableHeight config))
    eqn:Hgt.
  - cbn [VelY PosY setPosY setPos setVelY setVel]. split; [|reflexivity].
    apply opp_abs_le0.
    apply ltb_true_isNum in Hgt. destruct Hgt as (_ & Hsum).
    apply add_isNum in Hsum. destruct Hsum as (Hpos & _).
    cbn [PosY integrate setPos] in Hpos.
    apply integrated_isNum in Hpos. exact Hpos.
  - destruct H as [H|Hlt]; [discriminate H|]. rewrite Hlt.
    cbn [VelY PosY setPosY setPos setVelY setVel]. split; [|reflexivity].
    apply abs_ge0.
    apply ltb_true_isNum in Hlt. destruct Hlt as (Hpos & _).
    cbn [PosY integrate setPos] in Hpos.
    apply integrated_isNum in Hpos. exact Hpos.
Qed.

Lemma Update_reflects_left_witness :
  GoFloat.le 0%float (VelX (Update fishAtLeftWall defaultConfig 0.5 noSpawn))
  = true
  /\ PosX (Update fishAtLeftWall defaultConfig 0.5 noSpawn) = 0%float
  /\ abs (VelX (Update fishAtLeftWall defaultConfig 0.5 noSpawn))
     = abs (VelX fishAtLeftWall).
Proof.
  apply (Update_reflects_left fishAtLeftWall defaultConfig 0.5 noSpawn);
    vm_compute; reflexivity.
Defined.

Lemma Update_reflects_floor_and_top_witness :
  (let g := Update fishAtFloor defaultConfig 0.5 noSpawn in
   abs (VelY g) = abs (VelY fishAtFloor)
   /\ GoFloat.le (VelY g) 0%float = true
   /\ PosY g = (usableHeight defaultConfig - 36)%float)
  /\ (let g := Update fishAtTop defaultConfig 0.5 noSpawn in
      abs (VelY g) = abs (VelY fishAtTop)
      /\ GoFloat.le 0%float (VelY g) = true
      /\ PosY g = 0%float).
Proof.
  split.
  - exact (Update_reflects_floor_and_top fishAtFloor defaultConfig 0.5 noSpawn
             (or_introl eq_refl)).
  - exact (Update_reflects_floor_and_top fishAtTop defaultConfig 0.5 noSpawn
             (or_intror eq_refl)).
Defined.

(** ** The bubbles *)

Lemma updateBubblesLoop_spec (dt : float) (bs : list Bubble)
    (toClear : list (Z * Z)) :
  updateBubblesLoop dt bs toClear
  = (List.filter onScreen (map (rise dt) bs),
     toClear ++ map recordedCell
                    (List.filter drawn
                       (List.filter (fun b => negb (onScreen b))
                                    (map (rise dt) bs)))).
Proof.
  revert toClear. induction bs as [|b bs IH]; intros toClear.
  - cbn. now rewrite app_nil_r.
  - cbn [updateBubblesLoop map List.filter]. fold (rise dt b).
    change (GoFloat.ge (Y (rise dt b)) 0) with (onScreen (rise dt b)).
    change ((0 <? PrevCol (rise dt b)) && (0 <? PrevRow (rise dt b)))
      with (drawn (rise dt b)).
    destruct (onScreen (rise dt b)); cbn [negb List.filter].
    + rewrite IH. reflexivity.
    + rewrite IH. destruct (drawn (rise dt b)).
      * cbn [map]. rewrite <- app_assoc. reflexivity.
      * reflexivity.
Qed.

Lemma updateBubbles_eq (f : Fish) (config : TerminalConfig) (dt : float) :
  Bubbles (updateBubbles f config dt)
  = List.filter onScreen (map (rise dt) (Bubbles f))
  /\ BubblesToClear (updateBubbles f config dt)
     = BubblesToClear f
       ++ map recordedCell
              (List.filter drawn
                 (List.filter (fun b => negb (onScreen b))
                              (map (rise dt) (Bubbles f)))).
Proof.
  unfold updateBubbles. rewrite updateBubblesLoop_spec. split; reflexivity.
Qed.

Lemma filter_onScreen_Forall (bs : list Bubble) :
  Forall (fun b => GoFloat.ge (Y b) 0%float = true) (List.filter onScreen bs).
Proof.
  apply List.Forall_forall. intros b Hb.
  apply List.filter_In in Hb. exact (proj2 Hb).
Qed.

(** X3: [updateBubbles] makes every bubble rise by
    [BubbleSpeed * deltaTime] and age by one, keeps, in their order,
    those still on the screen ([Y >= 0]), and appends to
    [BubblesToClear], in their order, the cells recorded for the bubbles
    it drops that had been drawn.  So every bubble kept has [Y >= 0] and
    the number of bubbles does not grow. *)
Theorem updateBubbles_keeps_bubbles_on_screen (f : Fish)
    (config : TerminalConfig) (deltaTime : float) :
  let g := updateBubbles f config deltaTime in
  let risen := map (rise deltaTime) (Bubbles f) in
  Bubbles g = List.filter onScreen risen
  /\ BubblesToClear g
     = BubblesToClear f
       ++ map recordedCell
              (List.filter drawn
                 (List.filter (fun b => negb (onScreen b)) risen))
  /\ Forall (fun b => GoFloat.ge (Y b) 0%float = true) (Bubbles g)
  /\ (length (Bubbles g) <= length (Bubbles f))%nat.
Proof.
  intros g risen. unfold g, risen.
  destruct (updateBubbles_eq f config deltaTime) as (-> & ->).
  split; [reflexivity|]. split; [reflexivity|]. split.
  - apply filter_onScreen_Forall.
  - etransitivity; [apply List.filter_length_le|].
    rewrite length_map. reflexivity.
Qed.

Lemma bounce_keeps_bubbles (f : Fish) (config : TerminalConfig) (dt : float) :
  let h := bounceY (bounceX (integrate f dt) config) config in
  Bubbles h = Bubbles f /\ BubblesToClear h = BubblesToClear f.
Proof.
  unfold bounceY, bounceX, integrate. cbv zeta.
  repeat (match goal with
          | |- context [if ?b then _ else _] => destruct b
          end; cbn [Bubbles BubblesToClear setPosY setPosX setVelY setVelX
                    setPos setVel]);
    split; reflexivity.
Qed.

(** The fish [Update] hands to [updateBubbles]. *)
Lemma Update_unfold (f : Fish) (config : TerminalConfig) (dt : float)
    (rnd : UpdateRand) :
  let h := bounceY (bounceX (integrate f dt) config) config in
  let h' := setBobbingTime h (BobbingTime h + BobbingFrequency * dt)%float in
  Update f config dt rnd
  = updateBubbles
      (if GoFloat.lt (spawnRoll rnd) (BubbleSpawnRate * dt)%float
       then spawnBubble h' (spawnGlyph rnd) else h') config dt.
Proof. reflexivity. Qed.

Lemma Update_bubbles_eq (f : Fish) (config : TerminalConfig)
    (dt : float) (rnd : UpdateRand) :
  let g := Update f config dt rnd in
  Bubbles g
  = List.filter onScreen
      (map (rise dt)
           (Bubbles f
            ++ (if GoFloat.lt (spawnRoll rnd) (BubbleSpawnRate * dt)%float
                then [mkBubble (PosX g + 32)%float (PosY g - 2)%float
                               (pickChar (spawnGlyph rnd)) 0 0 0]
                else [])))
  /\ BubblesToClear g
     = BubblesToClear f
       ++ map recordedCell
              (List.filter drawn
                 (List.filter (fun b => negb (onScreen b))
                    (map (rise dt)
                       (Bubbles f
                        ++ (if GoFloat.lt (spawnRoll rnd)
                                          (BubbleSpawnRate * dt)%float
                            then [mkBubble (PosX g + 32)%float
                                           (PosY g - 2)%float
                                           (pickChar (spawnGlyph rnd)) 0 0 0]
                            else []))))).
Proof.
  intros g. unfold g. rewrite Update_unfold. cbv zeta.
  set (h := bounceY (bounceX (integrate f dt) config) config).
  set (h' := setBobbingTime h _).
  set (f5 := if GoFloat.lt _ _ then spawnBubble h' _ else h').
  destruct (updateBubbles_fields f5 config dt) as (HX & HY & _).
  cbv zeta in HX, HY. rewrite HX, HY.
  destruct (updateBubbles_eq f5 config dt) as (-> & ->).
  destruct (bounce_keeps_bubbles f config dt) as (Hb & Hc).
  cbv zeta in Hb, Hc. fold h in Hb, Hc.
  unfold f5. destruct (GoFloat.lt _ _).
  - unfold spawnBubble.
    cbn [Bubbles BubblesToClear PosX PosY setBubbles setBobbingTime h'].
    rewrite Hb, Hc. split; reflexivity.
  - cbn [Bubbles BubblesToClear setBobbingTime h'].
    rewrite Hb, Hc, app_nil_r. split; reflexivity.
Qed.

(** X4: after [Update] the bubbles of a fish are the old ones
    and, if the draw is below [BubbleSpawnRate * deltaTime], one new
    bubble that starts 32 pixels right of and 2 pixels above the new
    position of the fish, all risen once, those that left the screen
    removed (the new one too, if it starts too close to the top).  So a
    call adds at most one bubble, and every bubble has [Y >= 0]. *)
Theorem Update_spawns_at_most_one_bubble (f : Fish) (config : TerminalConfig)
    (deltaTime : float) (rnd : UpdateRand) :
  let g := Update f config deltaTime rnd in
  let spawned :=
    if GoFloat.lt (spawnRoll rnd) (BubbleSpawnRate * deltaTime)%float
    then [mkBubble (PosX g + 32)%float (PosY g - 2)%float
                   (pickChar (spawnGlyph rnd)) 0 0 0]
    else [] in
  Bubbles g
  = List.filter onScreen (map (rise deltaTime) (Bubbles f ++ spawned))
  /\ (length (Bubbles g) <= length (Bubbles f) + 1)%nat
  /\ Forall (fun b => GoFloat.ge (Y b) 0%float = true) (Bubbles g).
Proof.
  intros g spawned.
  destruct (Update_bubbles_eq f config deltaTime rnd) as (E & _).
  cbv zeta in E. fold g in E. fold spawned in E.
  split; [exact E|]. split.
  - rewrite E. etransitivity; [apply List.filter_length_le|].
    rewrite length_map, length_app. unfold spawned.
    destruct (GoFloat.lt _ _); simpl; lia.
  - rewrite E. apply filter_onScreen_Forall.
Qed.

(** ** Render, in full *)

Lemma renderBubbles_spec (config : TerminalConfig) (bs : list Bubble)
    (buf : UpdateBuffer) :
  renderBubbles config bs buf
  = (map (markBubble config) bs,
     mkUpdateBuffer (commands buf ++ concat (map (bubbleCmds config) bs))).
Proof.
  revert buf. induction bs as [|b bs IH]; intros buf.
  - cbn [renderBubbles map concat]. rewrite app_nil_r. now destruct buf.
  - cbn [renderBubbles map concat].
    change ((0 <? PrevCol b) && (0 <? PrevRow b)) with (drawn b).
    fold (bubbleCol config b). fold (bubbleRow config b).
    change ((1 <=? bubbleCol config b) && (bubbleCol config b <=? Columns config)
            && (1 <=? bubbleRow config b) && (bubbleRow config b <=? Rows config))
      with (inGrid config (bubbleRow config b) (bubbleCol config b)).
    unfold markBubble, bubbleCmds.
    destruct (inGrid config (bubbleRow config b) (bubbleCol config b));
      rewrite IH; destruct (drawn b);
      unfold AddText, AddClearCell, push, clearCmd, recordedCell;
      cbn [commands app fst snd]; rewrite <- ?app_assoc; reflexivity.
Qed.

Lemma clearCells_spec (cells : list (Z * Z)) (buf : UpdateBuffer) :
  fold_left (fun b rc => AddClearCell b (fst rc) (snd rc)) cells buf
  = mkUpdateBuffer (commands buf ++ map clearCmd cells).
Proof.
  revert buf. induction cells as [|c cells IH]; intros buf.
  - cbn [fold_left map]. rewrite app_nil_r. now destruct buf.
  - cbn [fold_left map]. rewrite IH. unfold AddClearCell, push, clearCmd.
    cbn [commands]. rewrite <- app_assoc. reflexivity.
Qed.

Lemma Render_eq (f : Fish) (buf : UpdateBuffer) (config : TerminalConfig) :
  CellWidth config <> 0 -> CellHeight config <> 0 ->
  Render f buf config
  = Some (mkFish (ID f) (OwnerID f) (PlacementID f) (PosX f) (PosY f)
                 (VelX f) (VelY f) (BobbingTime f)
                 (map (markBubble config) (Bubbles f)) (imageIDOf f) []
                 (Username f) (Color f),
          mkUpdateBuffer
            (commands buf ++ map clearCmd (BubblesToClear f)
             ++ concat (map (bubbleCmds config) (Bubbles f))
             ++ (if negb (LastImageID f =? 0)
                    && negb (LastImageID f =? imageIDOf f)
                 then [deleteCmd (LastImageID f) (PlacementID f)] else [])
             ++ [cursorCmd (spriteRow config f) (spriteCol config f);
                 placementCmd (imageIDOf f) (PlacementID f)
                   (cellsFor ImagePixelWidth (CellWidth config))
                   (cellsFor ImagePixelHeight (CellHeight config))
                   (Z.rem (GoFloat.to_int (PosX f)) (CellWidth config))
                   (Z.rem (GoFloat.to_int (spriteY f)) (CellHeight config))])).
Proof.
  intros Hw Hh. unfold Render. cbv zeta.
  rewrite !GoInt_rem_Some, !GoInt_quot_Some by assumption.
  rewrite clearCells_spec.
  cbn [mbind option_bind Bubbles setBubblesToClear].
  rewrite renderBubbles_spec.
  unfold imageIDOf, spriteRow, spriteCol, spriteY, cellsFor, bobbingOffset.
  cbn [LastImageID PlacementID VelX PosX PosY BobbingTime ID OwnerID Username
       Color setLastImageID setBubbles setBubblesToClear commands].
  unfold AddFishPlacement, AddDeletePlacement, push.
  destruct (negb (LastImageID f =? 0)
            && negb (LastImageID f =? (if GoFloat.gt (VelX f) 0 then 2 else 1)));
    cbn [commands]; rewrite <- !app_assoc; reflexivity.
Qed.

Lemma Render_Some_inv (f : Fish) (buf : UpdateBuffer) (config : TerminalConfig)
    (g : Fish) (out : UpdateBuffer) :
  Render f buf config = Some (g, out) ->
  CellWidth config <> 0 /\ CellHeight config <> 0
  /\ g = mkFish (ID f) (OwnerID f) (PlacementID f) (PosX f) (PosY f)
                (VelX f) (VelY f) (BobbingTime f)
                (map (markBubble config) (Bubbles f)) (imageIDOf f) []
                (Username f) (Color f).
Proof.
  intros H.
  destruct (Render_succeeds_inv _ _ _ _ _ H) as (Hw & Hh & _).
  rewrite (Render_eq f buf config Hw Hh) in H. injection H as <- _.
  repeat split; assumption.
Qed.

Lemma pickChar_known (r : nat) :
  existsb (String.eqb (pickChar r)) bubbleChars = true.
Proof.
  unfold pickChar, Intn. change (length bubbleChars) with 4%nat.
  pose proof (Nat.mod_upper_bound r 4 ltac:(lia)) as H.
  destruct (r mod 4)%nat as [|[|[|[|n]]]]; try reflexivity. lia.
Qed.

Lemma forallb_filter_true {A : Type} (p q : A -> bool) (l : list A) :
  forallb p l = true -> forallb p (List.filter q l) = true.
Proof.
  rewrite !forallb_forall. intros H x Hx. apply H.
  apply List.filter_In in Hx. tauto.
Qed.

Lemma forallb_map_true {A B : Type} (p : B -> bool) (q : A -> bool)
    (h : A -> B) (l : list A) :
  (forall x, q x = true -> p (h x) = true) ->
  forallb q l = true -> forallb p (map h l) = true.
Proof.
  intros Hpq. rewrite !forallb_forall. intros H y Hy.
  apply List.in_map_iff in Hy. destruct Hy as (x & <- & Hx). auto.
Qed.

(** X5: if every bubble of a fish shows one of the four glyphs of
    [bubbleChars], so does every bubble after [Update], after [OnClick]
    and after [Render]. *)
Theorem glyphs_stay_known (Cos Sin : float -> float) (f : Fish)
    (config : TerminalConfig) (deltaTime : float) (rnd : UpdateRand)
    (click : ClickRand) (buf : UpdateBuffer) :
  glyphsKnown f = true ->
  glyphsKnown (Update f config deltaTime rnd) = true
  /\ glyphsKnown (OnClick Cos Sin f click) = true
  /\ (forall g out, Render f buf config = Some (g, out) ->
                    glyphsKnown g = true).
Proof.
  unfold glyphsKnown. intros H. split; [|split].
  - destruct (Update_bubbles_eq f config deltaTime rnd) as (-> & _).
    apply forallb_filter_true.
    apply (forallb_map_true _ (fun b => existsb (String.eqb (Char b)) bubbleChars));
      [intros x Hx; exact Hx|].
    rewrite forallb_app, H. destruct (GoFloat.lt _ _); [|reflexivity].
    cbn [forallb Char andb]. now rewrite pickChar_known.
  - destruct (OnClick_spec Cos Sin f click) as (-> & _).
    rewrite forallb_app, H. cbn [forallb clickBubble Char andb].
    now rewrite !pickChar_known.
  - intros g out HR. apply Render_Some_inv in HR.
    destruct HR as (_ & _ & ->). cbn [Bubbles].
    apply (forallb_map_true _ (fun b => existsb (String.eqb (Char b)) bubbleChars));
      [|exact H].
    intros x Hx. unfold markBubble. destruct (inGrid _ _ _); exact Hx.
Qed.

Lemma OnClick_BubblesToClear (Cos Sin : float -> float) (f : Fish)
    (rnd : ClickRand) :
  BubblesToClear (OnClick Cos Sin f rnd) = BubblesToClear f.
Proof.
  unfold OnClick. cbv zeta.
  pose proof (fold_clickBubbles f f rnd [0%nat; 1%nat; 2%nat]) as H.
  cbv zeta in H.
  set (f1 := fold_left _ [0%nat; 1%nat; 2%nat] f) in *.
  destruct H as (_ & _ & _ & _ & _ & _ & _ & _ & _ & _ & H).
  unfold setVel. cbn [BubblesToClear]. exact H.
Qed.

Lemma marks_of_risen (config : TerminalConfig) (dt : float)
    (bs extra : list Bubble) :
  forallb (fun b => implb (drawn b) (inGrid config (PrevRow b) (PrevCol b)))
          bs = true ->
  forallb (fun b => negb (drawn b)) extra = true ->
  forall b, In b (map (rise dt) (bs ++ extra)) ->
    implb (drawn b) (inGrid config (PrevRow b) (PrevCol b)) = true.
Proof.
  rewrite !forallb_forall. intros Hbs Hex b Hb.
  apply List.in_map_iff in Hb. destruct Hb as (b0 & <- & Hb0).
  apply List.in_app_iff in Hb0. destruct Hb0 as [Hb0 | Hb0].
  - exact (Hbs b0 Hb0).
  - specialize (Hex b0 Hb0). unfold drawn, rise in *. cbn [PrevCol PrevRow].
    apply negb_true_iff in Hex. rewrite Hex. reflexivity.
Qed.

(** X6: if every cell a fish keeps on record (the cells to clear, and
    the cell of each bubble drawn) lies in the grid of the terminal,
    then so it is after [Update] and after [OnClick], and after [Render]
    with the same configuration, which leaves no cell to clear. *)
Theorem marks_stay_in_grid (Cos Sin : float -> float) (f : Fish)
    (config : TerminalConfig) (deltaTime : float) (rnd : UpdateRand)
    (click : ClickRand) (buf : UpdateBuffer) :
  marksInGrid config f = true ->
  marksInGrid config (Update f config deltaTime rnd) = true
  /\ marksInGrid config (OnClick Cos Sin f click) = true
  /\ (forall g out, Render f buf config = Some (g, out) ->
                    marksInGrid config g = true
                    /\ BubblesToClear g = []).
Proof.
  unfold marksInGrid. intros H. apply andb_prop in H. destruct H as (Hc & Hb).
  split; [|split].
  - destruct (Update_bubbles_eq f config deltaTime rnd) as (-> & ->).
    set (extra := if GoFloat.lt _ _ then _ else []).
    assert (Hex : forallb (fun b => negb (drawn b)) extra = true)
      by (unfold extra; destruct (GoFloat.lt _ _); reflexivity).
    pose proof (marks_of_risen config deltaTime (Bubbles f) extra Hb Hex) as Hr.
    apply andb_true_intro. split.
    + rewrite forallb_app, Hc. cbn [andb].
      apply forallb_forall. intros rc Hrc.
      apply List.in_map_iff in Hrc. destruct Hrc as (b & <- & Hin).
      apply List.filter_In in Hin. destruct Hin as (Hin & Hd).
      apply List.filter_In in Hin. destruct Hin as (Hin & _).
      specialize (Hr b Hin). rewrite Hd in Hr. exact Hr.
    + apply forallb_forall. intros b Hin.
      apply List.filter_In in Hin. destruct Hin as (Hin & _).
      exact (Hr b Hin).
  - rewrite OnClick_BubblesToClear, Hc.
    destruct (OnClick_spec Cos Sin f click) as (-> & _).
    rewrite forallb_app, Hb. reflexivity.
  - intros g out HR. apply Render_Some_inv in HR.
    destruct HR as (_ & _ & ->). cbn [Bubbles BubblesToClear forallb andb].
    split; [|reflexivity].
    apply (forallb_map_true _
             (fun b => implb (drawn b) (inGrid config (PrevRow b) (PrevCol b))));
      [|exact Hb].
    intros b Hx. unfold markBubble.
    destruct (inGrid config (bubbleRow config b) (bubbleCol config b)) eqn:E;
      [|exact Hx].
    cbn [PrevCol PrevRow]. rewrite E. apply implb_true_r.
Qed.

Lemma glyphs_stay_known_witness :
  glyphsKnown (Update bubblyFish defaultConfig 0.5 noSpawn) = true
  /\ glyphsKnown (OnClick cosTable sinTable bubblyFish clickQuarterTurn) = true
  /\ (forall g out, Render bubblyFish NewUpdateBuffer defaultConfig = Some (g, out) ->
                    glyphsKnown g = true).
Proof.
  apply (glyphs_stay_known cosTable sinTable bubblyFish defaultConfig 0.5
                           noSpawn clickQuarterTurn NewUpdateBuffer).
  reflexivity.
Defined.

Lemma marks_stay_in_grid_witness :
  marksInGrid defaultConfig (Update bubblyFish defaultConfig 0.5 noSpawn) = true
  /\ marksInGrid defaultConfig
       (OnClick cosTable sinTable bubblyFish clickQuarterTurn) = true
  /\ (forall g out,
        Render bubblyFish NewUpdateBuffer defaultConfig = Some (g, out) ->
        marksInGrid defaultConfig g = true /\ BubblesToClear g = []).
Proof.
  apply (marks_stay_in_grid cosTable sinTable bubblyFish defaultConfig 0.5
                            noSpawn clickQuarterTurn NewUpdateBuffer).
  reflexivity.
Defined.

Lemma Render_None_zero (f : Fish) (buf : UpdateBuffer)
    (config : TerminalConfig) :
  Render f buf config = None ->
  CellWidth config = 0 \/ CellHeight config = 0.
Proof.
  intros H.
  destruct (Z.eq_dec (CellWidth config) 0) as [|Hw]; [now left|].
  destruct (Z.eq_dec (CellHeight config) 0) as [|Hh]; [now right|].
  rewrite (Render_eq f buf config Hw Hh) in H. discriminate H.
Qed.

(** X7: [Render] panics (integer division by zero) exactly when the
    cell width or the cell height of the configuration is 0; the state
    of the fish and of the buffer plays no part. *)
Theorem Render_panics_iff (f : Fish) (buf : UpdateBuffer)
    (config : TerminalConfig) :
  Render f buf config = None
  <-> CellWidth config = 0 \/ CellHeight config = 0.
Proof.
  split; [apply Render_None_zero|].
  intros H. destruct (Render f buf config) as [[g out]|] eqn:E;
    [|reflexivity].
  apply Render_succeeds_inv in E. destruct E as (Hw & Hh & _).
  destruct H; contradiction.
Qed.

(** X8: with cell sizes other than zero, [Render] returns; it clears
    [BubblesToClear], records for every bubble the cell it is drawn in,
    sets [LastImageID] to the variant of the direction and leaves every
    other field of the fish alone; and it appends to the buffer, in this
    order: a blank for every cell to clear; for every bubble a blank
    over the cell recorded, if any, then its glyph if its cell lies in
    the grid; the deletion of the old variant if it is another one; the
    cursor position and the placement of the sprite, whose cell,
    extent and offsets are those computed from the position.  The
    placement is written at every call, whether the fish moved or
    not. *)
Theorem Render_commands (f : Fish) (buf : UpdateBuffer)
    (config : TerminalConfig) :
  CellWidth config <> 0 -> CellHeight config <> 0 ->
  exists g out,
    Render f buf config = Some (g, out)
    /\ g = mkFish (ID f) (OwnerID f) (PlacementID f) (PosX f) (PosY f)
                  (VelX f) (VelY f) (BobbingTime f)
                  (map (markBubble config) (Bubbles f)) (imageIDOf f) []
                  (Username f) (Color f)
    /\ commands out
       = commands buf ++ map clearCmd (BubblesToClear f)
         ++ concat (map (bubbleCmds config) (Bubbles f))
         ++ (if negb (LastImageID f =? 0)
                && negb (LastImageID f =? imageIDOf f)
             then [deleteCmd (LastImageID f) (PlacementID f)] else [])
         ++ [cursorCmd (spriteRow config f) (spriteCol config f);
             placementCmd (imageIDOf f) (PlacementID f)
               (cellsFor ImagePixelWidth (CellWidth config))
               (cellsFor ImagePixelHeight (CellHeight config))
               (Z.rem (GoFloat.to_int (PosX f)) (CellWidth config))
               (Z.rem (GoFloat.to_int (spriteY f)) (CellHeight config))].
Proof.
  intros Hw Hh. rewrite (Render_eq f buf config Hw Hh).
  do 2 eexists. split; [reflexivity|]. split; reflexivity.
Qed.

Lemma Render_commands_witness :
  exists g out,
    Render bubblyFish NewUpdateBuffer defaultConfig = Some (g, out)
    /\ g = mkFish 1 1 1 100%float 100%float 1%float 1%float 0%float
                  [mkBubble 132%float 50%float "o" 3 17 4;
                   mkBubble 140%float 2%float "O" 1 18 1]
                  2 [] "guest" ""
    /\ commands out
       = [clearCmd (2, 17); clearCmd (4, 17);
          (cursorCmd 4 17 ++ "o")%string; (cursorCmd 1 18 ++ "O")%string;
          cursorCmd 7 13; placementCmd 2 1 8 3 4 4].
Proof.
  destruct (Render_commands bubblyFish NewUpdateBuffer defaultConfig)
    as (g & out & HR & Hg & Hc); [discriminate | discriminate |].
  exists g, out. split; [exact HR|]. split.
  - rewrite Hg. vm_compute. reflexivity.
  - rewrite Hc. vm_compute. reflexivity.
Defined.

(** ** Speed across ticks and clicks *)

Lemma rotation_error_add (a b p1 p2 r : Q) :
  rounded p1 a -> rounded p2 b -> rounded r (p1 + p2) ->
  (Qabs (r - (a + b)) <= 2 ^ (-50) * (Qabs a + Qabs b) + 2 ^ (-1072))%Q.
Proof.
  unfold rounded.
  let u := eval vm_compute in (2 ^ (-52))%Q in
  change (2 ^ (-52))%Q with u.
  let u := eval vm_compute in (2 ^ (-50))%Q in
  change (2 ^ (-50))%Q with u.
  let u := eval vm_compute in (2 ^ (-1074))%Q in
  change (2 ^ (-1074))%Q with u.
  let u := eval vm_compute in (2 ^ (-1072))%Q in
  change (2 ^ (-1072))%Q with u.
  rewrite !Qabs_Qle_condition.
  destruct (Qabs_cases a) as [[Ha Ea]|[Ha Ea]];
    destruct (Qabs_cases b) as [[Hb Eb]|[Hb Eb]];
    destruct (Qabs_cases (p1 + p2)) as [[Hp Ep]|[Hp Ep]];
    revert Ea Eb Ep;
    generalize (Qabs a) (Qabs b) (Qabs (p1 + p2)); intros A B P Ea Eb Ep;
    intros H1 H2 H3; split; lra.
Qed.

(** The squares of two numbers no more than [d] apart. *)
Lemma square_error (x' X d : Q) :
  (Qabs (x' - X) <= d)%Q ->
  (Qabs (x' * x' - X * X) <= d * (2 * Qabs X + d))%Q.
Proof.
  intros H.
  setoid_replace (x' * x' - X * X)%Q with ((x' - X) * (x' + X))%Q
    using relation Qeq by ring.
  rewrite Qabs_Qmult.
  assert (H2 : (Qabs (x' + X) <= 2 * Qabs X + d)%Q).
  { setoid_replace (x' + X)%Q with ((x' - X) + 2 * X)%Q
      using relation Qeq by ring.
    eapply Qle_trans; [apply Qabs_triangle|].
    rewrite (Qabs_Qmult 2 X). change (Qabs 2) with 2%Q.
    revert H. generalize (Qabs (x' - X)) (Qabs X). intros u v H. lra. }
  apply Qmult_le_compat_nonneg; split;
    [apply Qabs_nonneg | exact H | apply Qabs_nonneg | exact H2].
Qed.

(** The rotation of [OnClick] evaluated in float64 against the rotation
    in exact arithmetic: six roundings. *)
Lemma rotation_rounding (vx vy cr sr : float) (x y c s x' y' : Q) :
  GoFloat.value vx = Some x -> GoFloat.value vy = Some y ->
  GoFloat.value cr = Some c -> GoFloat.value sr = Some s ->
  GoFloat.value (vx * cr - vy * sr)%float = Some x' ->
  GoFloat.value (vx * sr + vy * cr)%float = Some y' ->
  (Qabs (x' - (x * c - y * s))
   <= 2 ^ (-50) * (Qabs (x * c) + Qabs (y * s)) + 2 ^ (-1072))%Q
  /\ (Qabs (y' - (x * s + y * c))
      <= 2 ^ (-50) * (Qabs (x * s) + Qabs (y * c)) + 2 ^ (-1072))%Q.
Proof.
  intros Hx Hy Hc Hs Hx' Hy'.
  destruct (sub_finite _ _ _ Hx') as ([p1 Hp1] & [p2 Hp2]).
  destruct (add_finite _ _ _ Hy') as ([p3 Hp3] & [p4 Hp4]).
  split.
  - apply (rotation_error_sub _ _ p1 p2).
    + exact (mul_error _ _ _ _ _ Hx Hc Hp1).
    + exact (mul_error _ _ _ _ _ Hy Hs Hp2).
    + exact (sub_error _ _ _ _ _ Hp1 Hp2 Hx').
  - apply (rotation_error_add _ _ p3 p4).
    + exact (mul_error _ _ _ _ _ Hx Hs Hp3).
    + exact (mul_error _ _ _ _ _ Hy Hc Hp4).
    + exact (add_error _ _ _ _ _ Hp3 Hp4 Hy').
Qed.

(** In exact arithmetic the rotation of [OnClick] scales the squared
    norm by [c^2 + s^2]: it keeps the norm as long as the squares of
    the cosine and the sine add up to 1. *)
Lemma rotateQ_scales_norm (c s : Q) (v : Q * Q) :
  (normSqQ (rotateQ c s v) == (c * c + s * s) * normSqQ v)%Q.
Proof.
  destruct v as [x y]. unfold normSqQ, rotateQ. cbn [fst snd]. ring.
Qed.

Remark rotateQ_keeps_norm (c s : Q) (v : Q * Q) :
  (c * c + s * s == 1)%Q -> (normSqQ (rotateQ c s v) == normSqQ v)%Q.
Proof.
  intros H. rewrite rotateQ_scales_norm, H. ring.
Qed.

Lemma Render_keeps_velocity (f : Fish) (buf : UpdateBuffer)
    (config : TerminalConfig) (g : Fish) (out : UpdateBuffer) :
  Render f buf config = Some (g, out) -> VelX g = VelX f /\ VelY g = VelY f.
Proof.
  intros H. destruct (Render_Some_inv _ _ _ _ _ H) as (_ & _ & ->).
  split; reflexivity.
Qed.

Lemma fishRun_ticks_magnitudes (Cos Sin : float -> float) (evs : list FishEvent) :
  forall f g : Fish,
    Forall (fun e => isTick e = true) evs -> fishRun Cos Sin f evs = Some g ->
    abs (VelX g) = abs (VelX f) /\ abs (VelY g) = abs (VelY f).
Proof.
  induction evs as [|e evs IH]; intros f g Hall Hrun.
  - injection Hrun as <-. split; reflexivity.
  - apply Forall_cons in Hall. destruct Hall as (He & Hrest).
    destruct e as [config dt rnd buf|rnd]; [|discriminate He].
    cbn [fishRun fishStep] in Hrun.
    destruct (Render (Update f config dt rnd) buf config) as [[h out]|] eqn:ER;
      [|discriminate Hrun].
    cbn [mbind option_bind] in Hrun.
    destruct (IH h g Hrest Hrun) as (-> & ->).
    destruct (Render_keeps_velocity _ _ _ _ _ ER) as (-> & ->).
    apply Update_preserves_magnitudes.
Qed.

Lemma fishRun_app (Cos Sin : float -> float) (l1 l2 : list FishEvent) :
  forall f : Fish,
    fishRun Cos Sin f (l1 ++ l2)
    = h ← fishRun Cos Sin f l1; fishRun Cos Sin h l2.
Proof.
  induction l1 as [|e l1 IH]; intros f; [reflexivity|].
  cbn [app fishRun]. destruct (fishStep Cos Sin f e) as [g|]; [|reflexivity].
  cbn [mbind option_bind]. apply IH.
Qed.

Lemma fishRun_returns (Cos Sin : float -> float) (evs : list FishEvent) :
  forall f : Fish, Forall drawable evs -> is_Some (fishRun Cos Sin f evs).
Proof.
  induction evs as [|e evs IH]; intros f Hall.
  - eexists; reflexivity.
  - apply Forall_cons in Hall. destruct Hall as (He & Hrest).
    destruct e as [config dt rnd buf|rnd]; cbn [fishRun fishStep].
    + destruct He as (Hw & Hh).
      rewrite (Render_eq _ buf config Hw Hh). cbn [mbind option_bind].
      apply IH, Hrest.
    + cbn [mbind option_bind]. apply IH, Hrest.
Qed.

(** C10 as stated fails for [OnClick]: the rotation is evaluated in
    float64 and changes the norm.  The velocity (1, 1) turned by the
    angle of 90 degrees becomes (-(1 - 2^-53), 1): the sum [c - 1], with
    [c] the cosine of about [6.1e-17], rounds to the float64 next to
    [-1], the sum [1 + c] rounds to [1] (any [c] above [2^-54], about
    [5.6e-17], and not above [2^-53], about [1.1e-16], gives the same:
    the last places of [math.Cos] play no part).  Both the float64 speed
    and the exact squared speed differ from those of (1, 1). *)
Lemma OnClick_changes_speed :
  let g := OnClick cosTable sinTable fishDiagonal clickQuarterTurn in
  clickRadians clickQuarterTurn = 0x1.921fb54442d18p+0%float
  /\ VelX g = (-0x1.fffffffffffffp-1)%float
  /\ VelY g = 1%float
  /\ PrimFloat.eqb (speed g) (speed fishDiagonal) = false
  /\ sameSpeedSq g fishDiagonal = false.
Proof. vm_compute. repeat split. Qed.

(** C10 (as amended): in any sequence of ticks ([Update], then
    [Render]) and clicks, across the ticks that follow one another the
    magnitudes [|VelX|] and [|VelY|] stay exactly what they were (the
    boundary handling only flips signs, [Render] does not touch the
    velocity): they change at the clicks only; and the sequence runs to
    its end unless a tick draws with a cell size of 0.  [OnClick] replaces
    the velocity by the rotation of the old velocity by the angle drawn
    from 90, 180 and 260 degrees, evaluated in float64 with [math.Cos]
    and [math.Sin]: the norm is kept up to rounding only.  When the
    values are finite, each component of the new velocity is within
    [2^-50] of the magnitudes of its two products, plus [2^-1072], of
    the rotation in exact arithmetic by the cosine [c] and the sine [s]
    that [math.Cos] and [math.Sin] return; that rotation scales the
    squared norm by [c^2 + s^2]; the squared norm after the click
    departs from [c^2 + s^2] times the squared norm before by no more
    than what these two distances allow; and when [c^2 + s^2] is within
    [delta] of 1, it departs from the squared norm before by no more
    than that plus [delta] times the squared norm before. *)
Theorem speed_under_Update_and_OnClick (Cos Sin : float -> float) (f : Fish) :
  (forall (before ticks : list FishEvent) (h g : Fish),
      fishRun Cos Sin f before = Some h ->
      Forall (fun e => isTick e = true) ticks ->
      fishRun Cos Sin f (before ++ ticks) = Some g ->
      abs (VelX g) = abs (VelX h) /\ abs (VelY g) = abs (VelY h))
  /\ (forall evs : list FishEvent,
        Forall drawable evs -> is_Some (fishRun Cos Sin f evs))
  /\ (forall click : ClickRand,
        let g := OnClick Cos Sin f click in
        let r := clickRadians click in
        (clickAngle click = 90%float \/ clickAngle click = 180%float
         \/ clickAngle click = 260%float)
        /\ r = (clickAngle click * Pi / 180)%float
        /\ VelX g = (VelX f * Cos r - VelY f * Sin r)%float
        /\ VelY g = (VelX f * Sin r + VelY f * Cos r)%float
        /\ (forall x y c s x' y' : Q,
              GoFloat.value (VelX f) = Some x ->
              GoFloat.value (VelY f) = Some y ->
              GoFloat.value (Cos r) = Some c ->
              GoFloat.value (Sin r) = Some s ->
              GoFloat.value (VelX g) = Some x' ->
              GoFloat.value (VelY g) = Some y' ->
              let X := (x * c - y * s)%Q in
              let Y := (x * s + y * c)%Q in
              let dX := (2 ^ (-50) * (Qabs (x * c) + Qabs (y * s))
                         + 2 ^ (-1072))%Q in
              let dY := (2 ^ (-50) * (Qabs (x * s) + Qabs (y * c))
                         + 2 ^ (-1072))%Q in
              (Qabs (x' - X) <= dX)%Q
              /\ (Qabs (y' - Y) <= dY)%Q
              /\ rotateQ c s (x, y) = (X, Y)
              /\ (normSqQ (X, Y) == (c * c + s * s) * normSqQ (x, y))%Q
              /\ (Qabs (normSqQ (x', y') - (c * c + s * s) * normSqQ (x, y))
                  <= dX * (2 * Qabs X + dX) + dY * (2 * Qabs Y + dY))%Q
              /\ (forall delta : Q,
                    (Qabs (c * c + s * s - 1) <= delta)%Q ->
                    (Qabs (normSqQ (x', y') - normSqQ (x, y))
                     <= dX * (2 * Qabs X + dX) + dY * (2 * Qabs Y + dY)
                        + delta * normSqQ (x, y))%Q))).
Proof.
  split.
  { intros before ticks h g Hb Ht Hg.
    rewrite fishRun_app, Hb in Hg. cbn [mbind option_bind] in Hg.
    apply (fishRun_ticks_magnitudes Cos Sin ticks h g Ht Hg). }
  split; [intros evs; apply (fishRun_returns Cos Sin evs f)|].
  intros click g r.
  destruct (OnClick_spec Cos Sin f click) as (_ & HX & HY & _).
  fold g r in HX, HY.
  split; [apply clickAngle_in|].
  split; [reflexivity|]. split; [exact HX|]. split; [exact HY|].
  intros x y c s x' y' Hx Hy Hc Hs Hx' Hy' X Y dX dY.
  rewrite HX in Hx'. rewrite HY in Hy'.
  destruct (rotation_rounding _ _ _ _ _ _ _ _ _ _ Hx Hy Hc Hs Hx' Hy')
    as (H1 & H2).
  fold X dX in H1. fold Y dY in H2.
  split; [exact H1|]. split; [exact H2|]. split; [reflexivity|].
  split; [apply (rotateQ_scales_norm c s (x, y))|].
  assert (H3 : (Qabs (normSqQ (x', y') - (c * c + s * s) * normSqQ (x, y))
                <= dX * (2 * Qabs X + dX) + dY * (2 * Qabs Y + dY))%Q).
  { rewrite <- (rotateQ_scales_norm c s (x, y)).
    change (rotateQ c s (x, y)) with (X, Y).
    unfold normSqQ. cbn [fst snd].
    setoid_replace (x' * x' + y' * y' - (X * X + Y * Y))%Q
      with ((x' * x' - X * X) + (y' * y' - Y * Y))%Q using relation Qeq by ring.
    eapply Qle_trans; [apply Qabs_triangle|].
    apply Qplus_le_compat; apply square_error; assumption. }
  split; [exact H3|].
  intros delta Hd.
  setoid_replace (normSqQ (x', y') - normSqQ (x, y))%Q
    with ((normSqQ (x', y') - (c * c + s * s) * normSqQ (x, y))
          + (c * c + s * s - 1) * normSqQ (x, y))%Q using relation Qeq by ring.
  eapply Qle_trans; [apply Qabs_triangle|].
  apply Qplus_le_compat; [exact H3|].
  rewrite Qabs_Qmult.
  assert (Hn : (0 <= normSqQ (x, y))%Q).
  { unfold normSqQ. cbn [fst snd]. nra. }
  rewrite (Qabs_pos _ Hn).
  apply Qmult_le_compat_r; assumption.
Qed.

(** The cosine and the sine of the table, for the three angles of a
    click: their squares add up to 1 within [2^-52]. *)
Example table_rotation_nearly_unit :
  Forall (fun r =>
            match GoFloat.value (cosTable r), GoFloat.value (sinTable r) with
            | Some c, Some s =>
                Qle_bool (Qabs (c * c + s * s - 1)) (2 ^ (-52)) = true
            | _, _ => False
            end)
         [(90 * Pi / 180)%float; (180 * Pi / 180)%float;
          (260 * Pi / 180)%float].
Proof. repeat constructor. Qed.

Lemma speed_under_Update_and_OnClick_witness :
  let ticks := [Tick defaultConfig 0.5 (mkUpdateRand 0.5 0) NewUpdateBuffer;
                Tick defaultConfig 0.5 (mkUpdateRand 0.5 0) NewUpdateBuffer] in
  let g := OnClick cosTable sinTable fishDiagonal clickQuarterTurn in
  let r := clickRadians clickQuarterTurn in
  let x := (4503599627370496 # 4503599627370496)%Q in
  let y := (4503599627370496 # 4503599627370496)%Q in
  let c := (4967757600021511 # 81129638414606681695789005144064)%Q in
  let s := (4503599627370496 # 4503599627370496)%Q in
  let x' := (-9007199254740991 # 9007199254740992)%Q in
  let y' := (4503599627370496 # 4503599627370496)%Q in
  let dX := (2 ^ (-50) * (Qabs (x * c) + Qabs (y * s)) + 2 ^ (-1072))%Q in
  let dY := (2 ^ (-50) * (Qabs (x * s) + Qabs (y * c)) + 2 ^ (-1072))%Q in
  Forall (fun e => isTick e = true) ticks
  /\ match fishRun cosTable sinTable fishAtRightWall ticks with
     | Some h => abs (VelX h) = abs (VelX fishAtRightWall)
                 /\ abs (VelY h) = abs (VelY fishAtRightWall)
     | None => False
     end
  /\ GoFloat.value (VelX fishDiagonal) = Some x
  /\ GoFloat.value (VelY fishDiagonal) = Some y
  /\ GoFloat.value (cosTable r) = Some c
  /\ GoFloat.value (sinTable r) = Some s
  /\ GoFloat.value (VelX g) = Some x'
  /\ GoFloat.value (VelY g) = Some y'
  /\ (Qabs (x' - (x * c - y * s)) <= dX)%Q
  /\ (Qabs (y' - (x * s + y * c)) <= dY)%Q
  /\ (Qabs (normSqQ (x', y') - (c * c + s * s) * normSqQ (x, y))
      <= dX * (2 * Qabs (x * c - y * s) + dX)
         + dY * (2 * Qabs (x * s + y * c) + dY))%Q
  /\ (Qabs (c * c + s * s - 1) <= 2 ^ (-52))%Q
  /\ (Qabs (normSqQ (x', y') - normSqQ (x, y))
      <= dX * (2 * Qabs (x * c - y * s) + dX)
         + dY * (2 * Qabs (x * s + y * c) + dY)
         + 2 ^ (-52) * normSqQ (x, y))%Q.
Proof.
  intros ticks g r x y c s x' y' dX dY.
  assert (Hticks : Forall (fun e => isTick e = true) ticks)
    by (repeat constructor).
  assert (Hx : GoFloat.value (VelX fishDiagonal) = Some x)
    by (vm_compute; reflexivity).
  assert (Hy : GoFloat.value (VelY fishDiagonal) = Some y)
    by (vm_compute; reflexivity).
  assert (Hc : GoFloat.value (cosTable r) = Some c)
    by (vm_compute; reflexivity).
  assert (Hs : GoFloat.value (sinTable r) = Some s)
    by (vm_compute; reflexivity).
  assert (Hx' : GoFloat.value (VelX g) = Some x')
    by (vm_compute; reflexivity).
  assert (Hy' : GoFloat.value (VelY g) = Some y')
    by (vm_compute; reflexivity).
  split; [exact Hticks|]. split.
  - pose proof (proj1 (speed_under_Update_and_OnClick
                         cosTable sinTable fishAtRightWall)
                      [] ticks fishAtRightWall) as H.
    cbn [app] in H.
    destruct (fishRun cosTable sinTable fishAtRightWall ticks) as [h|] eqn:E.
    + apply (H h eq_refl Hticks eq_refl).
    + vm_compute in E. discriminate E.
  - destruct (proj2 (proj2 (speed_under_Update_and_OnClick
                              cosTable sinTable fishDiagonal))
                clickQuarterTurn) as (_ & _ & _ & _ & H).
    destruct (H x y c s x' y' Hx Hy Hc Hs Hx' Hy')
      as (H1 & H2 & _ & _ & H3 & H4).
    assert (Hd : (Qabs (c * c + s * s - 1) <= 2 ^ (-52))%Q)
      by (apply Qle_bool_imp_le; vm_compute; reflexivity).
    repeat (split; [assumption|]). exact (H4 _ Hd).
Defined.

(** ** The books of the manager *)

Lemma Update_keeps_identity (f : Fish) (config : TerminalConfig) (dt : float)
    (rnd : UpdateRand) :
  sameIdentity f (Update f config dt rnd).
Proof.
  unfold sameIdentity, Update, updateBubbles. cbv zeta.
  destruct (updateBubblesLoop dt _ _) as [a c].
  cbn [ID OwnerID PlacementID Username setBubblesToClear setBubbles].
  destruct (GoFloat.lt (spawnRoll rnd) _);
    unfold spawnBubble, setBobbingTime, bounceY, bounceX, integrate;
    cbn [ID OwnerID PlacementID Username setBubbles];
    repeat (match goal with
            | |- context [if ?b then _ else _] => destruct b
            end; cbn [ID OwnerID PlacementID Username setPosY setPosX setVelY
                      setVelX setPos setVel]);
    repeat split; reflexivity.
Qed.

Lemma sameIdentity_refl (f : Fish) : sameIdentity f f.
Proof. repeat split. Qed.

Lemma sameIdentity_trans (f g h : Fish) :
  sameIdentity f g -> sameIdentity g h -> sameIdentity f h.
Proof.
  unfold sameIdentity. intros (-> & -> & -> & ->) (-> & -> & -> & ->).
  repeat split.
Qed.

Lemma Render_keeps_identity (f : Fish) (buf : UpdateBuffer)
    (config : TerminalConfig) (g : Fish) (out : UpdateBuffer) :
  Render f buf config = Some (g, out) -> sameIdentity f g.
Proof.
  intros H. apply Render_Some_inv in H. destruct H as (_ & _ & ->).
  repeat split.
Qed.

Lemma OnClick_keeps_identity (Cos Sin : float -> float) (f : Fish)
    (rnd : ClickRand) :
  sameIdentity f (OnClick Cos Sin f rnd).
Proof.
  unfold sameIdentity, OnClick. cbv zeta.
  pose proof (fold_clickBubbles f f rnd [0%nat; 1%nat; 2%nat]) as H.
  cbv zeta in H.
  set (f1 := fold_left _ [0%nat; 1%nat; 2%nat] f) in *.
  destruct H as (_ & _ & _ & _ & _ & HI & HO & HP & _).
  unfold setVel. cbn [ID OwnerID PlacementID Username].
  rewrite HI, HO, HP. repeat split.
Qed.

Lemma samePopulation_refl (fs : gmap N Fish) : samePopulation fs fs.
Proof.
  intros id. destruct (fs !! id); [apply sameIdentity_refl | exact I].
Qed.

Lemma samePopulation_trans (a b c : gmap N Fish) :
  samePopulation a b -> samePopulation b c -> samePopulation a c.
Proof.
  intros H1 H2 id. specialize (H1 id). specialize (H2 id).
  destruct (a !! id), (b !! id), (c !! id); try tauto.
  eapply sameIdentity_trans; eassumption.
Qed.

Lemma samePopulation_insert (fs : gmap N Fish) (k : N) (f g : Fish) :
  fs !! k = Some f -> sameIdentity f g ->
  samePopulation fs (<[k := g]> fs).
Proof.
  intros Hf Hg id. destruct (decide (k = id)) as [<-|Hne].
  - rewrite Hf, lookup_insert_eq. exact Hg.
  - rewrite lookup_insert_ne by exact Hne.
    destruct (fs !! id); [apply sameIdentity_refl | exact I].
Qed.

Lemma clickLoop_population (Cos Sin : float -> float) (connID : N)
    (mouseX mouseY : Z) (rnd : ClickRand) (fs : gmap N Fish) (order : list N) :
  samePopulation fs (clickLoop Cos Sin connID mouseX mouseY rnd fs order).
Proof.
  destruct (clickLoop_spec Cos Sin connID mouseX mouseY rnd fs order)
    as [(-> & _) | (pre & k & post & f & _ & Hf & _ & _ & _ & ->)].
  - apply samePopulation_refl.
  - eapply samePopulation_insert; [exact Hf | apply OnClick_keeps_identity].
Qed.

Lemma tickLoop_population (config : TerminalConfig) (dt : float)
    (rnd : N -> UpdateRand) (order : list N) (fs fs' : gmap N Fish)
    (buf buf' : UpdateBuffer) :
  tickLoop config dt rnd order fs buf = Some (fs', buf') ->
  samePopulation fs fs'.
Proof.
  revert fs buf. induction order as [|k rest IH]; intros fs buf; simpl.
  - intros [= <- <-]. apply samePopulation_refl.
  - destruct (fs !! k) as [f|] eqn:Hf; [|apply IH].
    destruct (Render (Update f config dt (rnd k)) buf config)
      as [[g b1]|] eqn:HR; [|discriminate].
    cbn [mbind option_bind]. intros H.
    eapply samePopulation_trans; [|eapply IH, H].
    eapply samePopulation_insert; [exact Hf|].
    eapply sameIdentity_trans;
      [apply Update_keeps_identity | eapply Render_keeps_identity, HR].
Qed.

Lemma wellFormed_population (m m' : Manager) :
  samePopulation (fish m) (fish m') ->
  connections m' = connections m -> fishCounter m' = fishCounter m ->
  connCounter m' = connCounter m ->
  wellFormed m -> wellFormed m'.
Proof.
  intros Hp Hc Hfc Hcc (H1 & H2 & H3). unfold wellFormed.
  rewrite Hc, Hfc, Hcc. split; [|split; [|exact H3]].
  - intros id g Hg. specialize (Hp id). rewrite Hg in Hp.
    destruct (fish m !! id) as [f|] eqn:Hf; [|contradiction].
    destruct Hp as (HI & HO & HP & _).
    destruct (H1 id f Hf) as (E1 & E2 & E3 & E4).
    rewrite HI, HP, HO. tauto.
  - intros c conn id Hconn Hin.
    destruct (H2 c conn id Hconn Hin) as (Hle & Hown).
    split; [exact Hle|]. intros g Hg. specialize (Hp id). rewrite Hg in Hp.
    destruct (fish m !! id) as [f|] eqn:Hf; [|contradiction].
    destruct Hp as (_ & HO & _). rewrite HO. apply Hown. reflexivity.
Qed.

Lemma wellFormed_NewManager : wellFormed NewManager.
Proof.
  repeat split; intros; simpl in *; rewrite lookup_empty in *; discriminate.
Qed.

Lemma wellFormed_Stop (m : Manager) : wellFormed (Stop m).
Proof.
  repeat split; intros; simpl in *; rewrite lookup_empty in *; discriminate.
Qed.

Lemma wellFormed_AddConnection (m : Manager) (username : string)
    (floorDraw : nat) :
  (connCounter m + 1 < 2 ^ 64)%N -> wellFormed m ->
  wellFormed (fst (AddConnection m username floorDraw)).
Proof.
  intros Hw (H1 & H2 & H3).
  assert (Eid : GoInt.wrapU64 (connCounter m + 1) = (connCounter m + 1)%N)
    by (unfold GoInt.wrapU64; apply N.mod_small, Hw).
  unfold AddConnection, wellFormed.
  cbn [fst fish connections fishCounter connCounter]. rewrite Eid.
  split; [|split].
  - intros id f Hf. destruct (H1 id f Hf) as (E1 & E2 & E3 & conn & Hc & Hin).
    repeat split; try assumption. exists conn. split; [|exact Hin].
    rewrite lookup_insert_ne; [exact Hc|].
    intros E. rewrite <- E in Hc. apply H3 in Hc. lia.
  - intros c conn id.
    intros [[<- <-] | [_ Hc]]%lookup_insert_Some Hin.
    + cbn [FishIDs] in Hin. inversion Hin.
    + exact (H2 c conn id Hc Hin).
  - intros c conn.
    intros [[<- <-] | [_ Hc]]%lookup_insert_Some.
    + cbn [ConnID]. split; [reflexivity | lia].
    + destruct (H3 c conn Hc). split; [assumption | lia].
Qed.

Lemma wellFormed_RemoveConnection (m : Manager) (connID : N) :
  wellFormed m -> wellFormed (RemoveConnection m connID).
Proof.
  intros (H1 & H2 & H3). unfold RemoveConnection.
  destruct (connections m !! connID) as [conn|] eqn:Hc;
    [|split; [|split]; assumption].
  assert (Hfish : forall id f,
            removeFish (fish m) (FishIDs conn) !! id = Some f ->
            fish m !! id = Some f /\ OwnerID f <> connID).
  { intros id f. rewrite removeFish_lookup.
    destruct (decide (id ∈ FishIDs conn)) as [|Hnin]; [discriminate|].
    intros Hf. split; [exact Hf|]. intros E.
    destruct (H1 id f Hf) as (_ & _ & _ & conn' & Hc' & Hin).
    rewrite E, Hc in Hc'. injection Hc' as <-. contradiction. }
  destruct (bool_decide (size (delete connID (connections m)) = 0%nat)
            && animationStop m) eqn:Hreset.
  - apply andb_prop in Hreset. destruct Hreset as (Hsz & _).
    apply bool_decide_eq_true in Hsz. apply map_size_empty_inv in Hsz.
    unfold wellFormed. cbn [fish connections fishCounter connCounter].
    rewrite Hsz. split; [|split].
    + intros id f Hf. destruct (Hfish id f Hf) as (Hf' & Hne).
      destruct (H1 id f Hf') as (_ & _ & _ & conn' & Hc' & _).
      assert (E : delete connID (connections m) !! OwnerID f = Some conn')
        by (rewrite lookup_delete_ne by congruence; exact Hc').
      rewrite Hsz, lookup_empty in E. discriminate.
    + intros c conn' id Hc'. rewrite lookup_empty in Hc'. discriminate.
    + intros c conn' Hc'. rewrite lookup_empty in Hc'. discriminate.
  - unfold wellFormed. cbn [fish connections fishCounter connCounter].
    split; [|split].
    + intros id f Hf. destruct (Hfish id f Hf) as (Hf' & Hne).
      destruct (H1 id f Hf') as (E1 & E2 & E3 & conn' & Hc' & Hin).
      repeat split; try assumption. exists conn'. split; [|exact Hin].
      rewrite lookup_delete_ne by congruence. exact Hc'.
    + intros c conn' id [_ Hc']%lookup_delete_Some Hin.
      destruct (H2 c conn' id Hc' Hin) as (Hle & Hown).
      split; [exact Hle|]. intros f Hf. apply Hown.
      exact (proj1 (Hfish id f Hf)).
    + intros c conn' [_ Hc']%lookup_delete_Some. exact (H3 c conn' Hc').
Qed.

Lemma NewFish_fields (id ownerID : N) (tw th cw ch : Z)
    (username color : string) (rnd : NewFishRand) (f : Fish) :
  NewFish id ownerID tw th cw ch username color rnd = Some f ->
  ch <> 0 /\ ID f = id /\ OwnerID f = ownerID /\ PlacementID f = id
  /\ Username f = username /\ Bubbles f = [] /\ BubblesToClear f = []
  /\ LastImageID f = 0.
Proof.
  unfold NewFish. intros H.
  assert (Hch : ch <> 0).
  { intros ->. unfold GoInt.quot in H. simpl in H. discriminate H. }
  rewrite GoInt_quot_Some in H by exact Hch.
  cbn [mbind option_bind] in H. injection H as <-. repeat split. exact Hch.
Qed.

Lemma wellFormed_AddFish (m : Manager) (connID : N) (count : Z)
    (rnd : NewFishRand) (m' : Manager) (ids : list N) :
  (fishCounter m + 1 < 2 ^ 64)%N ->
  AddFish m connID count rnd = Some (m', ids) ->
  wellFormed m -> wellFormed m'.
Proof.
  intros Hw Hadd (H1 & H2 & H3). unfold AddFish in Hadd.
  destruct (connections m !! connID) as [conn|] eqn:Hc;
    [|injection Hadd as <- _; split; [|split]; assumption].
  destruct (termConfig m) as [cfg|];
    [|injection Hadd as <- _; split; [|split]; assumption].
  assert (Eid : GoInt.wrapU64 (fishCounter m + 1) = (fishCounter m + 1)%N)
    by (unfold GoInt.wrapU64; apply N.mod_small, Hw).
  rewrite Eid in Hadd.
  destruct (NewFish _ _ _ _ _ _ _ _ _) as [nf|] eqn:Hnf; [|discriminate].
  apply NewFish_fields in Hnf.
  destruct Hnf as (_ & HI & HO & HP & _).
  cbn [mbind option_bind] in Hadd. injection Hadd as <- _.
  unfold wellFormed. cbn [fish connections fishCounter connCounter].
  split; [|split].
  - intros id f. intros [[<- <-] | [Hne Hf]]%lookup_insert_Some.
    + rewrite HO. repeat split; try assumption; try lia.
      eexists. split; [apply lookup_insert_eq|].
      cbn [FishIDs]. apply elem_of_app. right. left.
    + destruct (H1 id f Hf) as (E1 & E2 & E3 & conn' & Hc' & Hin).
      repeat split; try assumption; try lia.
      destruct (decide (connID = OwnerID f)) as [E|Hcc].
      * eexists. rewrite <- E. split; [apply lookup_insert_eq|].
        cbn [FishIDs]. rewrite <- E, Hc in Hc'. injection Hc' as <-.
        apply elem_of_app. left. exact Hin.
      * exists conn'. split; [|exact Hin].
        rewrite lookup_insert_ne by exact Hcc. exact Hc'.
  - intros c conn0 id.
    intros [[<- <-] | [Hne Hc0]]%lookup_insert_Some Hin.
    + cbn [FishIDs] in Hin. apply elem_of_app in Hin.
      destruct Hin as [Hin | Hin].
      * destruct (H2 connID conn id Hc Hin) as (Hle & Hown).
        split; [lia|]. intros f.
        rewrite lookup_insert_ne by lia. apply Hown.
      * apply list_elem_of_singleton in Hin. subst id.
        split; [lia|]. intros f. rewrite lookup_insert_eq.
        intros [= <-]. exact HO.
    + destruct (H2 c conn0 id Hc0 Hin) as (Hle & Hown).
      split; [lia|]. intros f.
      rewrite lookup_insert_ne by lia. apply Hown.
  - intros c conn0.
    intros [[<- <-] | [Hne Hc0]]%lookup_insert_Some.
    + cbn [ConnID]. exact (H3 connID conn Hc).
    + exact (H3 c conn0 Hc0).
Qed.

Lemma wellFormed_prepared (h : Handler) (m : Manager) :
  wellFormed m -> wellFormed (prepared h m).
Proof.
  intros H. destruct (prepared_cases h m) as [(_ & ->) | (_ & ->)]; exact H.
Qed.

Lemma inService_invariant (m : Manager) : inService m -> wellFormed m.
Proof.
  induction 1 as [ | m dbg Hr IH | m u d Hr IH Hw | m c Hr IH
                   | m h Hr IH
                   | m c n rnd m' ids Hr IH Hw Hadd
                   | Cos Sin m c b col row order rnd Hr IH
                   | aF aS m dt order rnd sd so ds m' out Hr IH Htick
                   | m Hr IH ].
  - apply wellFormed_NewManager.
  - exact IH.
  - apply wellFormed_AddConnection; assumption.
  - apply wellFormed_RemoveConnection, IH.
  - apply wellFormed_prepared, IH.
  - eapply wellFormed_AddFish; eassumption.
  - unfold HandleMouseClick.
    destruct (termConfig m) as [cfg|]; [|exact IH].
    destruct (negb (b =? 0)); [exact IH|].
    eapply wellFormed_population; [| | | |exact IH]; try reflexivity.
    apply clickLoop_population.
  - apply updateAndBroadcast_inv in Htick.
    destruct Htick as [(-> & _) | (cfg & fs & buf & Hcfg & _ & Hloop & ->)];
      [exact IH|].
    eapply wellFormed_population; [| | | |exact IH]; try reflexivity.
    eapply tickLoop_population, Hloop.
  - apply wellFormed_Stop.
Qed.

Lemma inService_reachable (m : Manager) : inService m -> reachable m.
Proof.
  induction 1; try (econstructor; eassumption).
Qed.

(** X9: in every state the manager reaches while its counters do not
    wrap around, the books are consistent ([wellFormed]): a fish is
    stored under its own identifier, which is also its placement
    identifier; its owner is a registered connection that lists it; and
    what a connection lists is owned by it.  So no two fish share a
    placement identifier, and no fish is an orphan. *)
Theorem books_stay_consistent (m : Manager) :
  inService m ->
  wellFormed m
  /\ (forall id id' f f',
        fish m !! id = Some f -> fish m !! id' = Some f' ->
        PlacementID f = PlacementID f' -> id = id')
  /\ (forall id f, fish m !! id = Some f ->
        is_Some (connections m !! OwnerID f)).
Proof.
  intros H. apply inService_invariant in H.
  split; [exact H|]. destruct H as (H1 & _ & _). split.
  - intros id id' f f' Hf Hf' E.
    destruct (H1 id f Hf) as (_ & <- & _).
    destruct (H1 id' f' Hf') as (_ & <- & _). exact E.
  - intros id f Hf. destruct (H1 id f Hf) as (_ & _ & _ & conn & Hc & _).
    rewrite Hc. eauto.
Qed.

Lemma loneSession_inService : inService loneSessionRunning.
Proof.
  unfold loneSessionRunning, loneSession.
  assert (H3 : inService (StartAnimation
                            (SetTerminalConfig
                               (fst (AddConnection NewManager "guest" 0))
                               defaultConfig))).
  { change (inService (prepared New (fst (AddConnection NewManager "guest" 0)))).
    apply serv_initialize, serv_add_connection;
      [apply serv_new | reflexivity]. }
  destruct (AddFish _ 1 1 midRand) as [[m4 ids]|] eqn:E; [|exact H3].
  eapply serv_add_fish; [exact H3 | reflexivity | exact E].
Qed.

Lemma debugSessionTicked_inService : inService debugSessionTicked.
Proof.
  assert (H3 : inService debugSession).
  { unfold debugSession.
    assert (H2 : inService (prepared New (fst (AddConnection
                              (SetDebugMode NewManager true) "guest" 0)))).
    { apply serv_initialize, serv_add_connection;
        [apply serv_set_debug_mode, serv_new | reflexivity]. }
    destruct (AddFish _ 1 1 midRand) as [[m3 ids]|] eqn:E; [|exact H2].
    eapply serv_add_fish; [exact H2 | reflexivity | exact E]. }
  unfold debugSessionTicked.
  destruct (updateAndBroadcast _ _ _ _ _ _ _ _ _) as [[m out]|] eqn:E;
    [|exact H3].
  eapply serv_tick; [exact H3 | exact E].
Qed.

Lemma books_stay_consistent_witness :
  wellFormed debugSessionTicked
  /\ (forall id id' f f',
        fish debugSessionTicked !! id = Some f ->
        fish debugSessionTicked !! id' = Some f' ->
        PlacementID f = PlacementID f' -> id = id')
  /\ (forall id f, fish debugSessionTicked !! id = Some f ->
        is_Some (connections debugSessionTicked !! OwnerID f)).
Proof.
  apply (books_stay_consistent debugSessionTicked).
  apply debugSessionTicked_inService.
Defined.

Lemma loneSession_wellFormed : wellFormed loneSessionRunning.
Proof. apply inService_invariant, loneSession_inService. Qed.

(** X10: when the books are consistent, [RemoveConnection] of a
    registered connection unregisters it, deletes every fish it owns and
    leaves every other fish as it is; the books stay consistent. *)
Theorem RemoveConnection_removes_own_fish_only (m : Manager) (connID : N)
    (conn : Connection) :
  wellFormed m ->
  connections m !! connID = Some conn ->
  let m' := RemoveConnection m connID in
  connections m' = delete connID (connections m)
  /\ (forall id f, fish m !! id = Some f ->
        fish m' !! id = if decide (OwnerID f = connID) then None else Some f)
  /\ (forall id, fish m !! id = None -> fish m' !! id = None)
  /\ wellFormed m'.
Proof.
  intros Hwf Hc m'.
  assert (Hwf' : wellFormed m') by apply wellFormed_RemoveConnection, Hwf.
  destruct Hwf as (H1 & H2 & H3).
  assert (E : fish m' = removeFish (fish m) (FishIDs conn)
              /\ connections m' = delete connID (connections m)).
  { unfold m', RemoveConnection. rewrite Hc.
    destruct (bool_decide _ && animationStop m); split; reflexivity. }
  destruct E as (Ef & Ec). rewrite Ef.
  split; [exact Ec|]. split; [|split; [|exact Hwf']].
  - intros id f Hf. rewrite removeFish_lookup, Hf.
    destruct (decide (id ∈ FishIDs conn)) as [Hin|Hnin].
    + destruct (H2 connID conn id Hc Hin) as (_ & Hown).
      rewrite decide_True by (apply Hown, Hf). reflexivity.
    + rewrite decide_False; [reflexivity|]. intros E.
      destruct (H1 id f Hf) as (_ & _ & _ & conn' & Hc' & Hin).
      rewrite E, Hc in Hc'. injection Hc' as <-. contradiction.
  - intros id Hf. rewrite removeFish_lookup, Hf.
    destruct (decide (id ∈ FishIDs conn)); reflexivity.
Qed.

Lemma pondOfTwo_wellFormed : wellFormed pondOfTwo.
Proof.
  split; [|split].
  - intros id f Hf. unfold pondOfTwo in *. cbn [fish connections fishCounter] in *.
    apply lookup_insert_Some in Hf.
    destruct Hf as [[<- <-] | [_ Hf]].
    + repeat split; [lia|]. eexists. split; [reflexivity|].
      apply list_elem_of_singleton. reflexivity.
    + apply lookup_singleton_Some in Hf. destruct Hf as [<- <-].
      repeat split; [lia|]. eexists. split; [reflexivity|].
      apply list_elem_of_singleton. reflexivity.
  - intros c conn id Hc Hin. unfold pondOfTwo in *.
    cbn [fish connections fishCounter] in *.
    apply lookup_insert_Some in Hc.
    destruct Hc as [[<- <-] | [_ Hc]].
    + apply list_elem_of_singleton in Hin. subst id.
      split; [lia|]. intros f [= <-]. reflexivity.
    + apply lookup_singleton_Some in Hc. destruct Hc as [<- <-].
      apply list_elem_of_singleton in Hin. subst id.
      split; [lia|]. intros f [= <-]. reflexivity.
  - intros c conn Hc. unfold pondOfTwo in *. cbn [connections connCounter] in *.
    apply lookup_insert_Some in Hc.
    destruct Hc as [[<- <-] | [_ Hc]]; [split; [reflexivity | lia]|].
    apply lookup_singleton_Some in Hc. destruct Hc as [<- <-].
    split; [reflexivity | lia].
Qed.

Lemma RemoveConnection_removes_own_fish_only_witness :
  let m' := RemoveConnection pondOfTwo 1 in
  connections m' = delete 1%N (connections pondOfTwo)
  /\ (forall id f, fish pondOfTwo !! id = Some f ->
        fish m' !! id = if decide (OwnerID f = 1%N) then None else Some f)
  /\ (forall id, fish pondOfTwo !! id = None -> fish m' !! id = None)
  /\ wellFormed m'.
Proof.
  apply (RemoveConnection_removes_own_fish_only pondOfTwo 1
           (mkConnection 1 [2%N] "clicker")).
  - apply pondOfTwo_wellFormed.
  - reflexivity.
Defined.

(** X11: a second [RemoveConnection] of the same connection changes
    nothing; after the first the connection is not registered; and
    removing a connection that is not registered changes nothing. *)
Theorem RemoveConnection_idempotent (m : Manager) (connID : N) :
  RemoveConnection (RemoveConnection m connID) connID
  = RemoveConnection m connID
  /\ connections (RemoveConnection m connID) !! connID = None
  /\ (connections m !! connID = None -> RemoveConnection m connID = m).
Proof.
  assert (H : connections (RemoveConnection m connID) !! connID = None).
  { unfold RemoveConnection.
    destruct (connections m !! connID) as [conn|] eqn:Hc; [|exact Hc].
    destruct (bool_decide _ && animationStop m); cbn [connections];
      apply lookup_delete_eq. }
  split; [|split; [exact H|]].
  - unfold RemoveConnection at 1. rewrite H. reflexivity.
  - intros Hc. unfold RemoveConnection. rewrite Hc. reflexivity.
Qed.

Lemma samePopulation_size (fs fs' : gmap N Fish) :
  samePopulation fs fs' -> size fs' = size fs.
Proof.
  intros H. rewrite <- !size_dom. f_equal. apply set_eq. intros id.
  rewrite !elem_of_dom. specialize (H id).
  destruct (fs !! id), (fs' !! id); try contradiction;
    split; intros [x Hx]; try discriminate; eauto.
Qed.

(** X12: when the books are consistent, the connection is registered,
    a capability with a cell height other than zero is set and the
    counter does not wrap around, [AddFish] returns one identifier,
    whatever [count] is: the next value of the counter, which was free.
    The fish stored under it is owned by the connection, carries its
    user name and has no bubble; the connection lists it; the number of
    fish grows by one; the books stay consistent. *)
Theorem AddFish_adds_one_owned_fish (m : Manager) (connID : N) (count : Z)
    (rnd : NewFishRand) (conn : Connection) (cfg : TerminalConfig) :
  wellFormed m ->
  connections m !! connID = Some conn ->
  termConfig m = Some cfg ->
  CellHeight cfg <> 0 ->
  (fishCounter m + 1 < 2 ^ 64)%N ->
  exists m' f,
    let id := (fishCounter m + 1)%N in
    AddFish m connID count rnd = Some (m', [id])
    /\ fish m !! id = None
    /\ fish m' = <[id := f]> (fish m)
    /\ GetFishCount m' = S (GetFishCount m)
    /\ ID f = id /\ OwnerID f = connID /\ PlacementID f = id
    /\ Username f = ConnUsername conn /\ Bubbles f = []
    /\ connections m'
       = <[connID := mkConnection (ConnID conn) (FishIDs conn ++ [id])
                                  (ConnUsername conn)]> (connections m)
    /\ fishCounter m' = id
    /\ termConfig m' = termConfig m
    /\ wellFormed m'.
Proof.
  intros Hwf Hc Hcfg Hch Hw.
  assert (Eid : GoInt.wrapU64 (fishCounter m + 1) = (fishCounter m + 1)%N)
    by (unfold GoInt.wrapU64; apply N.mod_small, Hw).
  destruct (NewFish_Some (fishCounter m + 1)%N connID
              (GoInt.mul (Columns cfg) (CellWidth cfg))
              (GoInt.mul (Rows cfg) (CellHeight cfg))
              (CellWidth cfg) (CellHeight cfg) (ConnUsername conn) EmptyString
              rnd Hch) as (f & Hnf & _).
  assert (Hadd : AddFish m connID count rnd
                 = Some (mkManager (<[(fishCounter m + 1)%N := f]> (fish m))
                           (<[connID := mkConnection (ConnID conn)
                                          (FishIDs conn ++ [(fishCounter m + 1)%N])
                                          (ConnUsername conn)]> (connections m))
                           (termConfig m) (animationStop m)
                           (fishCounter m + 1)%N (connCounter m) (debugMode m)
                           (aquarium m),
                         [(fishCounter m + 1)%N])).
  { unfold AddFish. rewrite Hc, Hcfg, Eid, Hnf. reflexivity. }
  assert (Hfresh : fish m !! (fishCounter m + 1)%N = None).
  { destruct (fish m !! (fishCounter m + 1)%N) as [g|] eqn:Hg; [|reflexivity].
    destruct Hwf as (H1 & _). destruct (H1 _ _ Hg) as (_ & _ & Hle & _). lia. }
  pose proof (wellFormed_AddFish m connID count rnd _ _ Hw Hadd Hwf) as Hwf'.
  apply NewFish_fields in Hnf.
  destruct Hnf as (_ & HI & HO & HP & HU & HB & _).
  do 2 eexists. cbv zeta. split; [exact Hadd|].
  cbn [fish connections fishCounter termConfig].
  split; [exact Hfresh|]. split; [reflexivity|]. split.
  { unfold GetFishCount. cbn [fish]. apply map_size_insert_None, Hfresh. }
  repeat (split; [assumption || reflexivity|]). exact Hwf'.
Qed.

Lemma AddFish_adds_one_owned_fish_witness :
  exists m' f,
    let id := (fishCounter loneSessionRunning + 1)%N in
    AddFish loneSessionRunning 1 1 midRand = Some (m', [id])
    /\ fish loneSessionRunning !! id = None
    /\ fish m' = <[id := f]> (fish loneSessionRunning)
    /\ GetFishCount m' = S (GetFishCount loneSessionRunning)
    /\ ID f = id /\ OwnerID f = 1%N /\ PlacementID f = id
    /\ Username f = ConnUsername (mkConnection 1 [1%N] "guest")
    /\ Bubbles f = []
    /\ connections m'
       = <[1%N := mkConnection (ConnID (mkConnection 1 [1%N] "guest"))
                    (FishIDs (mkConnection 1 [1%N] "guest") ++ [id])
                    (ConnUsername (mkConnection 1 [1%N] "guest"))]>
           (connections loneSessionRunning)
    /\ fishCounter m' = id
    /\ termConfig m' = termConfig loneSessionRunning
    /\ wellFormed m'.
Proof.
  apply (AddFish_adds_one_owned_fish loneSessionRunning 1 1 midRand
           (mkConnection 1 [1%N] "guest") defaultConfig).
  - apply loneSession_wellFormed.
  - vm_compute. reflexivity.
  - vm_compute. reflexivity.
  - discriminate.
  - vm_compute. reflexivity.
Defined.

(** X13: [AddFish] returns no identifier and leaves the manager as it
    is exactly when the connection is not registered or no capability is
    set; it panics (integer division by zero in [NewFish]) exactly when
    the connection is registered and the capability set has a cell
    height of 0. *)
Theorem AddFish_refuses_or_panics (m : Manager) (connID : N) (count : Z)
    (rnd : NewFishRand) :
  (connections m !! connID = None \/ termConfig m = None <->
   AddFish m connID count rnd = Some (m, []))
  /\ (AddFish m connID count rnd = None <->
      exists conn cfg, connections m !! connID = Some conn
                       /\ termConfig m = Some cfg /\ CellHeight cfg = 0).
Proof.
  unfold AddFish.
  destruct (connections m !! connID) as [conn|] eqn:Hc.
  - destruct (termConfig m) as [cfg|] eqn:Hcfg.
    + destruct (Z.eq_dec (CellHeight cfg) 0) as [E|Hch].
      * assert (Hnf : forall a b c d e u v,
                  NewFish a b c d e (CellHeight cfg) u v rnd = None)
          by (intros; rewrite E; reflexivity).
        rewrite Hnf. cbn [mbind option_bind]. split.
        -- split; [intros [H|H]; discriminate H | discriminate].
        -- split; [intros _; eauto | reflexivity].
      * destruct (NewFish_Some (GoInt.wrapU64 (fishCounter m + 1)) connID
              (GoInt.mul (Columns cfg) (CellWidth cfg))
              (GoInt.mul (Rows cfg) (CellHeight cfg))
              (CellWidth cfg) (CellHeight cfg) (ConnUsername conn) EmptyString
              rnd Hch) as (f & -> & _).
        cbn [mbind option_bind]. split.
        -- split; [intros [H|H]; discriminate H | discriminate].
        -- split; [discriminate|].
           intros (conn' & cfg' & _ & [= <-] & E). contradiction.
    + split.
      * split; [reflexivity | intros _; now right].
      * split; [discriminate | intros (? & ? & _ & H & _); discriminate H].
  - split.
    + split; [reflexivity | intros _; now left].
    + split; [discriminate | intros (? & ? & H & _); discriminate H].
Qed.

(** X14: a tick that returns leaves the same fish under the same
    keys, each with its identifier, owner, placement identifier and user
    name; the number of fish, the connections, the capability, the
    counters and the debug mode are unchanged, and consistent books stay
    consistent.  Without a capability or without a connection it changes
    nothing and sends nothing; else it leaves the aquarium, if there is
    one, with its floor tile and with the floor marked as rendered. *)
Theorem updateAndBroadcast_keeps_population
    (addFloorTile : UpdateBuffer -> Z -> Z -> Z -> N -> Z -> Z -> UpdateBuffer)
    (addStatusText : UpdateBuffer -> Z -> Z -> string -> UpdateBuffer)
    (m : Manager) (deltaTime : float) (order : list N)
    (rnd : N -> UpdateRand) (statusDue : bool) (statusOrder : list N)
    (durationStr : string) (m' : Manager) (out : string) :
  updateAndBroadcast addFloorTile addStatusText m deltaTime order rnd
                     statusDue statusOrder durationStr = Some (m', out) ->
  samePopulation (fish m) (fish m')
  /\ GetFishCount m' = GetFishCount m
  /\ connections m' = connections m
  /\ termConfig m' = termConfig m
  /\ animationStop m' = animationStop m
  /\ fishCounter m' = fishCounter m
  /\ connCounter m' = connCounter m
  /\ debugMode m' = debugMode m
  /\ (termConfig m = None \/ connections m = ∅ ->
      m' = m /\ out = EmptyString)
  /\ (termConfig m <> None -> connections m <> ∅ ->
      aquarium m'
      = option_map (fun aq => mkAquarium (FloorTileID aq) true) (aquarium m))
  /\ (wellFormed m -> wellFormed m').
Proof.
  intros Htick. apply updateAndBroadcast_inv in Htick.
  destruct Htick as [(-> & -> & Hearly)
                    | (cfg & fs & buf & Hcfg & Hne & Hloop & ->)].
  - split; [apply samePopulation_refl|].
    repeat (split; [reflexivity|]).
    split; [intros _; split; reflexivity|].
    split; [|intros H; exact H].
    intros H1 H2. destruct Hearly; contradiction.
  - pose proof (tickLoop_population _ _ _ _ _ _ _ _ Hloop) as Hp.
    cbn [fish connections termConfig animationStop fishCounter connCounter
         debugMode aquarium].
    split; [exact Hp|].
    split; [unfold GetFishCount; cbn [fish]; apply samePopulation_size, Hp|].
    repeat (split; [reflexivity|]).
    split; [intros [H|H]; [rewrite Hcfg in H; discriminate H | contradiction]|].
    split; [intros _ _; reflexivity|].
    intros Hwf. eapply wellFormed_population; [exact Hp | | | | exact Hwf];
      reflexivity.
Qed.

Lemma updateAndBroadcast_keeps_population_witness :
  match updateAndBroadcast floorTileStandIn statusTextStandIn debugSession 1
                           [1%N] (fun _ => noSpawn) true [1%N] "1s" with
  | Some (m', out) =>
      samePopulation (fish debugSession) (fish m')
      /\ GetFishCount m' = GetFishCount debugSession
      /\ connections m' = connections debugSession
      /\ termConfig m' = termConfig debugSession
      /\ animationStop m' = animationStop debugSession
      /\ fishCounter m' = fishCounter debugSession
      /\ connCounter m' = connCounter debugSession
      /\ debugMode m' = debugMode debugSession
      /\ (termConfig debugSession = None \/ connections debugSession = ∅ ->
          m' = debugSession /\ out = EmptyString)
      /\ (termConfig debugSession <> None -> connections debugSession <> ∅ ->
          aquarium m'
          = option_map (fun aq => mkAquarium (FloorTileID aq) true)
                       (aquarium debugSession))
      /\ (wellFormed debugSession -> wellFormed m')
  | None => False
  end.
Proof.
  destruct (updateAndBroadcast floorTileStandIn statusTextStandIn debugSession
              1 [1%N] (fun _ => noSpawn) true [1%N] "1s")
    as [[m' out]|] eqn:E.
  - exact (updateAndBroadcast_keeps_population floorTileStandIn
             statusTextStandIn debugSession 1 [1%N] (fun _ => noSpawn) true
             [1%N] "1s" m' out E).
  - vm_compute in E. discriminate E.
Defined.

Lemma tickLoop_None (config : TerminalConfig) (dt : float)
    (rnd : N -> UpdateRand) (order : list N) (fs : gmap N Fish)
    (buf : UpdateBuffer) :
  tickLoop config dt rnd order fs buf = None
  <-> (CellWidth config = 0 \/ CellHeight config = 0)
      /\ exists k, k ∈ order /\ is_Some (fs !! k).
Proof.
  revert fs buf. induction order as [|k rest IH]; intros fs buf.
  - cbn [tickLoop]. split; [discriminate|].
    intros (_ & k & Hk & _). inversion Hk.
  - cbn [tickLoop]. destruct (fs !! k) as [f|] eqn:Hf.
    + destruct (Render (Update f config dt (rnd k)) buf config)
        as [[g b1]|] eqn:HR; cbn [mbind option_bind].
      * apply Render_succeeds_inv in HR. destruct HR as (Hw & Hh & _).
        rewrite IH. split; intros ([|] & _); contradiction.
      * apply Render_None_zero in HR. split; [intros _|reflexivity].
        split; [exact HR|]. exists k. split; [left|]. rewrite Hf. eauto.
    + rewrite IH. split; intros (Hz & j & Hj & Hs); (split; [exact Hz|]);
        exists j; (split; [|exact Hs]).
      * right. exact Hj.
      * apply elem_of_cons in Hj. destruct Hj as [-> | Hj]; [|exact Hj].
        rewrite Hf in Hs. destruct Hs as [x Hx]. discriminate Hx.
Qed.

Lemma floorTiles_None_zero (config : TerminalConfig) (aq : Aquarium) :
  CellWidth config = 0 \/ CellHeight config = 0 ->
  floorTiles config aq = None.
Proof.
  intros H. unfold floorTiles.
  destruct (Z.eq_dec (CellWidth config) 0) as [Ew|Hw].
  - rewrite Ew. reflexivity.
  - rewrite (GoInt_quot_Some _ (CellWidth config)) by exact Hw.
    cbn [mbind option_bind].
    destruct H as [H|H]; [contradiction|]. rewrite H. reflexivity.
Qed.

(** X15: with at least one connection and a capability whose cell
    width or cell height is 0, a tick panics if it visits a fish, and it
    panics if the floor of the aquarium is not rendered yet (in
    [renderFloor]). *)
Theorem updateAndBroadcast_panics_on_zero_cell
    (addFloorTile : UpdateBuffer -> Z -> Z -> Z -> N -> Z -> Z -> UpdateBuffer)
    (addStatusText : UpdateBuffer -> Z -> Z -> string -> UpdateBuffer)
    (m : Manager) (deltaTime : float) (order : list N)
    (rnd : N -> UpdateRand) (statusDue : bool) (statusOrder : list N)
    (durationStr : string) (cfg : TerminalConfig) :
  termConfig m = Some cfg ->
  connections m <> ∅ ->
  CellWidth cfg = 0 \/ CellHeight cfg = 0 ->
  (exists k, k ∈ order /\ is_Some (fish m !! k))
  \/ (exists aq, aquarium m = Some aq /\ FloorRendered aq = false) ->
  updateAndBroadcast addFloorTile addStatusText m deltaTime order rnd
                     statusDue statusOrder durationStr = None.
Proof.
  intros Hcfg Hne Hz Hwhy. unfold updateAndBroadcast. rewrite Hcfg.
  rewrite bool_decide_false
    by (intros E; apply Hne, map_size_empty_inv, E).
  destruct (tickLoop cfg deltaTime rnd order (fish m) NewUpdateBuffer)
    as [[fs buf]|] eqn:Hloop; [|reflexivity].
  cbn [mbind option_bind].
  destruct Hwhy as [(k & Hk & Hs) | (aq & Haq & Hfl)].
  - assert (H : tickLoop cfg deltaTime rnd order (fish m) NewUpdateBuffer
                = None)
      by (apply tickLoop_None; split; [assumption | exists k; tauto]).
    rewrite H in Hloop. discriminate Hloop.
  - rewrite Haq, Hfl. unfold renderFloor.
    rewrite (floorTiles_None_zero cfg aq Hz). reflexivity.
Qed.

Lemma updateAndBroadcast_panics_on_zero_cell_witness :
  GetFishCount zeroWidthSession = 1%nat
  /\ updateAndBroadcast floorTileStandIn statusTextStandIn zeroWidthSession
                        0.5 [1%N] (fun _ => noSpawn) false [] "" = None
  /\ updateAndBroadcast floorTileStandIn statusTextStandIn zeroWidthSession
                        0.5 [] (fun _ => noSpawn) false [] "" = None.
Proof.
  split; [vm_compute; reflexivity|]. split.
  - apply (updateAndBroadcast_panics_on_zero_cell floorTileStandIn
             statusTextStandIn zeroWidthSession 0.5 [1%N] (fun _ => noSpawn)
             false [] "" (mkTerminalConfig 80 24 0 16)).
    + vm_compute. reflexivity.
    + vm_compute. discriminate.
    + left. reflexivity.
    + left. exists 1%N. split; [left | vm_compute; eauto].
  - apply (updateAndBroadcast_panics_on_zero_cell floorTileStandIn
             statusTextStandIn zeroWidthSession 0.5 [] (fun _ => noSpawn)
             false [] "" (mkTerminalConfig 80 24 0 16)).
    + vm_compute. reflexivity.
    + vm_compute. discriminate.
    + left. reflexivity.
    + right. exists (mkAquarium 0 false). split; reflexivity.
Defined.

(** ** The status bar and the floor *)





(** The tile of index [j]. *)
Lemma floorLoop_spec (fuel : nat) (i n tw th row img columns : Z) :
  0 <= i -> i + Z.of_nat fuel <= n -> n < 2 ^ 32 ->
  0 < tw <= 48 -> (n - 1) * tw + 1 <= columns ->
  floorLoop fuel i n tw th row img columns
  = map (fun k => mkFloorTile row ((i + Z.of_nat k) * tw + 1) img
                              (Z.to_N (1000 + (i + Z.of_nat k))) tw th)
        (seq 0 fuel).
Proof.
  change (2 ^ 32) with 4294967296.
  revert i. induction fuel as [|fuel IH]; intros i Hi Hn Hb Htw Hc;
    [reflexivity|].
  cbn [floorLoop]. destruct (Z.ltb_spec i n) as [_|E]; [|lia].
  unfold GoInt.add, GoInt.mul.
  assert (Hm : 0 <= i * tw <= 48 * 4294967296) by nia.
  rewrite (wrap64_small (i * tw))
    by (unfold GoInt.minInt64, GoInt.maxInt64; lia).
  rewrite (wrap64_small (i * tw + 1))
    by (unfold GoInt.minInt64, GoInt.maxInt64; lia).
  rewrite (wrap64_small (i + 1))
    by (unfold GoInt.minInt64, GoInt.maxInt64; lia).
  rewrite (wrap64_small (1000 + i))
    by (unfold GoInt.minInt64, GoInt.maxInt64; lia).
  destruct (Z.leb_spec (i * tw + 1) columns) as [_|E]; [|nia].
  rewrite Z.mod_small by lia.
  fold GoInt.add GoInt.mul. rewrite IH by lia.
  cbn [seq map]. rewrite Z.add_0_r. f_equal.
  rewrite <- seq_shift, map_map. apply map_ext. intros k.
  replace (i + 1 + Z.of_nat k) with (i + Z.of_nat (S k)) by lia. reflexivity.
Qed.

(** X17: for positive cell sizes and a grid of at least one column,
    [renderFloor] does not panic and places [ceil(Columns / tileWidth)]
    tiles, [tileWidth = ceil(48 / CellWidth)] columns wide and
    [ceil(48 / CellHeight)] rows high: tile [k] at column
    [k * tileWidth + 1] (inside the grid, so the test on the column never
    skips a tile), with the placement identifier [1000 + k] and the image
    identifier [10 + FloorTileID], its last row the row above the
    status bar.  Every column of the terminal is under a tile. *)
Theorem floor_tiles_cover_the_width (config : TerminalConfig)
    (aquarium : Aquarium) :
  0 < Columns config < 2 ^ 32 -> 0 <= Rows config < 2 ^ 32 ->
  0 < CellWidth config < 2 ^ 32 -> 0 < CellHeight config < 2 ^ 32 ->
  0 <= FloorTileID aquarium < 6 ->
  let tw := (48 + CellWidth config - 1) / CellWidth config in
  let th := (48 + CellHeight config - 1) / CellHeight config in
  exists tiles,
    floorTiles config aquarium = Some tiles
    /\ Z.of_nat (length tiles) = (Columns config + tw - 1) / tw
    /\ (forall (k : nat) t, tiles !! k = Some t ->
          tileCol t = Z.of_nat k * tw + 1
          /\ tilePlacement t = N.of_nat (1000 + k)
          /\ tileImage t = 10 + FloorTileID aquarium
          /\ tileCols t = tw /\ tileRows t = th
          /\ tileRow t + th - 1 = Rows config - 1
          /\ 1 <= tileCol t <= Columns config)
    /\ (forall c, 1 <= c <= Columns config ->
          exists k t, tiles !! k = Some t
                      /\ tileCol t <= c < tileCol t + tw).
Proof.
  change (2 ^ 32) with 4294967296.
  intros HC HR Hw Hh Hid tw th.
  set (cw := CellWidth config) in *. set (ch := CellHeight config) in *.
  set (C := Columns config) in *. set (R := Rows config) in *.
  assert (Htw : 1 <= tw <= 48).
  { unfold tw. split; [apply Z.div_le_lower_bound; lia|].
    apply Z.div_le_upper_bound; lia. }
  assert (Hth : 1 <= th <= 48).
  { unfold th. split; [apply Z.div_le_lower_bound; lia|].
    apply Z.div_le_upper_bound; lia. }
  set (n := (C + tw - 1) / tw).
  assert (Hn : 1 <= n <= C /\ (n - 1) * tw + 1 <= C /\ C <= n * tw).
  { unfold n. pose proof (Z.div_mod (C + tw - 1) tw ltac:(lia)) as E.
    pose proof (Z.mod_pos_bound (C + tw - 1) tw ltac:(lia)) as B.
    set (q := (C + tw - 1) / tw) in *. nia. }
  assert (Etw : GoInt.quot (GoInt.sub (GoInt.add 48 cw) 1) cw = Some tw).
  { rewrite GoInt_quot_Some by lia. unfold GoInt.sub, GoInt.add.
    rewrite (wrap64_small (48 + cw))
      by (unfold GoInt.minInt64, GoInt.maxInt64; lia).
    rewrite (wrap64_small (48 + cw - 1))
      by (unfold GoInt.minInt64, GoInt.maxInt64; lia).
    rewrite Z.quot_div_nonneg by lia. fold tw.
    rewrite wrap64_small by (unfold GoInt.minInt64, GoInt.maxInt64; lia).
    reflexivity. }
  assert (Eth : GoInt.quot (GoInt.sub (GoInt.add 48 ch) 1) ch = Some th).
  { rewrite GoInt_quot_Some by lia. unfold GoInt.sub, GoInt.add.
    rewrite (wrap64_small (48 + ch))
      by (unfold GoInt.minInt64, GoInt.maxInt64; lia).
    rewrite (wrap64_small (48 + ch - 1))
      by (unfold GoInt.minInt64, GoInt.maxInt64; lia).
    rewrite Z.quot_div_nonneg by lia. fold th.
    rewrite wrap64_small by (unfold GoInt.minInt64, GoInt.maxInt64; lia).
    reflexivity. }
  assert (En : GoInt.quot (GoInt.sub (GoInt.add C tw) 1) tw = Some n).
  { rewrite GoInt_quot_Some by lia. unfold GoInt.sub, GoInt.add.
    rewrite (wrap64_small (C + tw))
      by (unfold GoInt.minInt64, GoInt.maxInt64; lia).
    rewrite (wrap64_small (C + tw - 1))
      by (unfold GoInt.minInt64, GoInt.maxInt64; lia).
    rewrite Z.quot_div_nonneg by lia. fold n.
    rewrite wrap64_small by (unfold GoInt.minInt64, GoInt.maxInt64; lia).
    reflexivity. }
  set (row := if 1 <? th then GoInt.sub R th else GoInt.sub R 1).
  assert (Hrow : row + th - 1 = R - 1).
  { unfold row, GoInt.sub. destruct (Z.ltb_spec 1 th);
      rewrite wrap64_small
        by (unfold GoInt.minInt64, GoInt.maxInt64; lia); lia. }
  assert (Eimg : GoInt.add 10 (FloorTileID aquarium)
                 = 10 + FloorTileID aquarium)
    by (apply wrap64_small; unfold GoInt.minInt64, GoInt.maxInt64; lia).
  assert (E : floorTiles config aquarium
              = Some (map (fun k => mkFloorTile row (Z.of_nat k * tw + 1)
                                      (10 + FloorTileID aquarium)
                                      (Z.to_N (1000 + Z.of_nat k)) tw th)
                          (seq 0 (Z.to_nat n)))).
  { unfold floorTiles. fold cw ch C R. rewrite Etw. cbn [mbind option_bind].
    rewrite Eth. cbn [mbind option_bind]. rewrite En. cbn [mbind option_bind].
    fold row. rewrite Eimg.
    rewrite (floorLoop_spec (Z.to_nat n) 0 n tw th row _ C) by lia.
    reflexivity. }
  eexists. split; [exact E|].
  assert (Hlk : forall (k : nat) t,
            map (fun k => mkFloorTile row (Z.of_nat k * tw + 1)
                            (10 + FloorTileID aquarium)
                            (Z.to_N (1000 + Z.of_nat k)) tw th)
                (seq 0 (Z.to_nat n)) !! k = Some t ->
            (k < Z.to_nat n)%nat
            /\ t = mkFloorTile row (Z.of_nat k * tw + 1)
                               (10 + FloorTileID aquarium)
                               (Z.to_N (1000 + Z.of_nat k)) tw th).
  { intros k t Hk. rewrite list_lookup_fmap in Hk.
    destruct (seq 0 (Z.to_nat n) !! k) as [j|] eqn:Ej; [|discriminate Hk].
    apply lookup_seq in Ej. destruct Ej as (-> & Hlt).
    injection Hk as <-. split; [exact Hlt | reflexivity]. }
  split; [rewrite length_map, length_seq; lia|]. split.
  - intros k t Hk. destruct (Hlk k t Hk) as (Hlt & ->).
    cbn [tileCol tilePlacement tileImage tileCols tileRows tileRow].
    repeat split; try lia; try nia.
  - intros c Hc. set (k := (c - 1) / tw).
    pose proof (Z.div_mod (c - 1) tw ltac:(lia)) as Ek.
    pose proof (Z.mod_pos_bound (c - 1) tw ltac:(lia)) as Bk. fold k in Ek.
    assert (Hk : 0 <= k < n) by nia.
    exists (Z.to_nat k). eexists. split.
    + rewrite list_lookup_fmap.
      rewrite (proj2 (lookup_seq 0 (Z.to_nat n) (Z.to_nat k) (Z.to_nat k)))
        by (split; [reflexivity | lia]).
      reflexivity.
    + cbn [tileCol]. rewrite Z2Nat.id by lia. lia.
Qed.

Lemma floor_tiles_cover_the_width_witness :
  let tw := (48 + CellWidth defaultConfig - 1) / CellWidth defaultConfig in
  let th := (48 + CellHeight defaultConfig - 1) / CellHeight defaultConfig in
  exists tiles,
    floorTiles defaultConfig (mkAquarium 3 false) = Some tiles
    /\ Z.of_nat (length tiles) = (Columns defaultConfig + tw - 1) / tw
    /\ (forall (k : nat) t, tiles !! k = Some t ->
          tileCol t = Z.of_nat k * tw + 1
          /\ tilePlacement t = N.of_nat (1000 + k)
          /\ tileImage t = 10 + FloorTileID (mkAquarium 3 false)
          /\ tileCols t = tw /\ tileRows t = th
          /\ tileRow t + th - 1 = Rows defaultConfig - 1
          /\ 1 <= tileCol t <= Columns defaultConfig)
    /\ (forall c, 1 <= c <= Columns defaultConfig ->
          exists k t, tiles !! k = Some t
                      /\ tileCol t <= c < tileCol t + tw).
Proof.
  apply (floor_tiles_cover_the_width defaultConfig (mkAquarium 3 false));
    cbn; lia.
Defined.

Example floorTiles_default :
  option_map (map (fun t => (tileRow t, tileCol t, tilePlacement t)))
             (floorTiles defaultConfig (mkAquarium 3 false))
  = Some [(21, 1, 1000%N); (21, 7, 1001%N); (21, 13, 1002%N);
          (21, 19, 1003%N); (21, 25, 1004%N); (21, 31, 1005%N);
          (21, 37, 1006%N); (21, 43, 1007%N); (21, 49, 1008%N);
          (21, 55, 1009%N); (21, 61, 1010%N); (21, 67, 1011%N);
          (21, 73, 1012%N); (21, 79, 1013%N)].
Proof. vm_compute. reflexivity. Qed.




(** ** The input of a session *)


Lemma byteOf_value (n : Z) :
  0 <= n <= 255 -> Z.of_N (Byte.to_N (byteOf n)) = n.
Proof.
  intros H. unfold byteOf.
  destruct (Byte.of_N (Z.to_N n)) as [b|] eqn:E.
  - apply Byte.to_of_N in E. rewrite E. lia.
  - apply Byte.of_N_None_iff in E. lia.
Qed.



Lemma decodeInput_long (a0 a1 a2 a3 a4 a5 : Byte.byte)
    (rest : list Byte.byte) :
  decodeInput (a0 :: a1 :: a2 :: a3 :: a4 :: a5 :: rest)
  = if (Byte.to_N a0 =? 27)%N && (Byte.to_N a1 =? 91)%N
       && (Byte.to_N a2 =? 77)%N
    then Click (Z.of_N (Byte.to_N a3) - 32) (Z.of_N (Byte.to_N a4) - 32)
               (Z.of_N (Byte.to_N a5) - 32)
    else Ignored.
Proof. reflexivity. Qed.


(** X19: the mouse report a terminal sends for a button, a column and
    a row (each from -32 to 223), followed by whatever bytes, is read
    back as the click on that button, column and row. *)
Theorem decodeInput_reads_mouse_report (button col row : Z)
    (rest : list Byte.byte) :
  -32 <= button <= 223 -> -32 <= col <= 223 -> -32 <= row <= 223 ->
  decodeInput (mouseReport button col row ++ rest) = Click button col row.
Proof.
  intros Hb Hc Hr. unfold mouseReport. cbn [app].
  rewrite decodeInput_long.
  change ((Byte.to_N Byte.x1b =? 27)%N && (Byte.to_N Byte.x5b =? 91)%N
          && (Byte.to_N Byte.x4d =? 77)%N) with true.
  cbv iota. rewrite !byteOf_value by lia. f_equal; lia.
Qed.

Lemma decodeInput_reads_mouse_report_witness :
  decodeInput (mouseReport 0 14 8 ++ [Byte.x0a]) = Click 0 14 8.
Proof.
  apply (decodeInput_reads_mouse_report 0 14 8 [Byte.x0a]); lia.
Defined.

(** ** The life of a session *)

Lemma AddFish_Some_inv (m : Manager) (c : N) (count : Z) (rnd : NewFishRand)
    (conn : Connection) (cfg : TerminalConfig) (m' : Manager) (ids : list N) :
  connections m !! c = Some conn -> termConfig m = Some cfg ->
  AddFish m c count rnd = Some (m', ids) ->
  exists f,
    let fishID := GoInt.wrapU64 (fishCounter m + 1) in
    NewFish fishID c (GoInt.mul (Columns cfg) (CellWidth cfg))
            (GoInt.mul (Rows cfg) (CellHeight cfg))
            (CellWidth cfg) (CellHeight cfg) (ConnUsername conn) EmptyString rnd
    = Some f
    /\ ids = [fishID]
    /\ m' = mkManager (<[fishID := f]> (fish m))
                      (<[c := mkConnection (ConnID conn)
                                           (FishIDs conn ++ [fishID])
                                           (ConnUsername conn)]> (connections m))
                      (termConfig m) (animationStop m) fishID
                      (connCounter m) (debugMode m) (aquarium m).
Proof.
  intros Hc Hcfg. unfold AddFish. rewrite Hc, Hcfg.
  destruct (NewFish _ _ _ _ _ _ _ _ _) as [f|]; [|discriminate].
  cbn [mbind option_bind]. intros [= <- <-]. exists f.
  cbv zeta. repeat split.
Qed.

Lemma detectTerminal_connID (h : Handler) (o : DetectOutcome) :
  connID (detectTerminal h o) = connID h.
Proof.
  unfold detectTerminal.
  destruct o as [[|w [|ht [|x l]]]|]; try reflexivity.
  destruct ((0 <? termColumns h) && (0 <? termRows h)); reflexivity.
Qed.

Lemma prepared_fields (h : Handler) (m : Manager) :
  fish (prepared h m) = fish m
  /\ connections (prepared h m) = connections m
  /\ fishCounter (prepared h m) = fishCounter m
  /\ connCounter (prepared h m) = connCounter m
  /\ exists cfg, termConfig (prepared h m) = Some cfg.
Proof.
  unfold prepared, GetTerminalConfig.
  destruct (termConfig m) as [cfg|] eqn:E.
  - repeat split. eauto.
  - unfold StartAnimation, SetTerminalConfig. cbn [animationStop].
    destruct (animationStop m); cbn; repeat split; eauto.
Qed.

Lemma Start_eq (h : Handler) (m : Manager) (username : string)
    (floorDraw : nat) (o : DetectOutcome) (rnd : NewFishRand) :
  Start h m username floorDraw o rnd
  = let m1 := fst (AddConnection m username floorDraw) in
    let id := GoInt.wrapU64 (connCounter m + 1) in
    let h' := detectTerminal
                (mkHandler id (termColumns h) (termRows h) (cellWidth h)
                           (cellHeight h)) o in
    (h', AddFish (prepared h' m1) id 1 rnd).
Proof.
  cbv zeta. unfold Start, AddConnection, detectTerminalAndInit,
    initializeAquarium, prepared. cbn [fst].
  rewrite detectTerminal_connID. reflexivity.
Qed.

Lemma removeFish_insert_fresh (fs : gmap N Fish) (id : N) (f : Fish)
    (ids : list N) :
  fs !! id = None -> (forall i, i ∈ ids -> fs !! i = None) ->
  removeFish (<[id := f]> fs) (ids ++ [id]) = fs.
Proof.
  intros Hid Hids. apply map_eq. intros i. rewrite removeFish_lookup.
  destruct (decide (i ∈ ids ++ [id])) as [Hin|Hnin].
  - apply elem_of_app in Hin. destruct Hin as [Hin|Hin].
    + symmetry. apply Hids, Hin.
    + apply list_elem_of_singleton in Hin. subst i. symmetry. exact Hid.
  - rewrite lookup_insert_ne; [reflexivity|].
    intros <-. apply Hnin, elem_of_app. right. left.
Qed.

(** X20: when the books are consistent and the counters do not wrap
    around, a handler that was never closed and starts (without a panic)
    is running and registered under the next connection identifier,
    which was free, with one fish of its own, the number of fish grown
    by one; a second [Start] of the running session changes nothing.
    When it closes, the fish and the connections of the manager are
    again what they were before it started, and a second [Close] changes
    nothing.  The channel [done] is then closed for good: if the handler
    is started again (a second shell request), it runs, and its next
    [Close] panics, before the connection is removed. *)
Theorem Start_then_Close_restores (h : Handler) (m : Manager)
    (username : string) (floorDraw : nat) (o : DetectOutcome)
    (rnd : NewFishRand) (s' : Session.t) (m' : Manager) :
  wellFormed m ->
  (connCounter m + 1 < 2 ^ 64)%N -> (fishCounter m + 1 < 2 ^ 64)%N ->
  Session.Start (Session.mk h false false) m username floorDraw o rnd
  = Some (s', m') ->
  Session.running s' = true
  /\ Session.done s' = false
  /\ connID (Session.handler s') = (connCounter m + 1)%N
  /\ connections m !! (connCounter m + 1)%N = None
  /\ connections m' !! (connCounter m + 1)%N
     = Some (mkConnection (connCounter m + 1) [(fishCounter m + 1)%N] username)
  /\ GetFishCount m' = S (GetFishCount m)
  /\ Session.Start s' m' username floorDraw o rnd = Some (s', m')
  /\ exists s'' m'',
       Session.Close s' m' = Some (s'', m'')
       /\ Session.running s'' = false
       /\ Session.done s'' = true
       /\ fish m'' = fish m
       /\ connections m'' = connections m
       /\ Session.Close s'' m'' = Some (s'', m'')
       /\ (forall username2 floorDraw2 o2 rnd2 s3 m3,
             Session.Start s'' m'' username2 floorDraw2 o2 rnd2
             = Some (s3, m3) ->
             Session.running s3 = true /\ Session.Close s3 m3 = None).
Proof.
  intros Hwf Hcw Hfw HS.
  assert (Ec : GoInt.wrapU64 (connCounter m + 1) = (connCounter m + 1)%N)
    by (unfold GoInt.wrapU64; apply N.mod_small, Hcw).
  assert (Ef : GoInt.wrapU64 (fishCounter m + 1) = (fishCounter m + 1)%N)
    by (unfold GoInt.wrapU64; apply N.mod_small, Hfw).
  assert (Hcfresh : connections m !! (connCounter m + 1)%N = None).
  { destruct (connections m !! (connCounter m + 1)%N) as [c|] eqn:E;
      [|reflexivity].
    destruct Hwf as (_ & _ & H3). apply H3 in E. lia. }
  assert (Hffresh : fish m !! (fishCounter m + 1)%N = None).
  { destruct (fish m !! (fishCounter m + 1)%N) as [g|] eqn:E; [|reflexivity].
    destruct Hwf as (H1 & _). destruct (H1 _ _ E) as (_ & _ & Hle & _). lia. }
  unfold Session.Start in HS.
  cbn [Session.running Session.handler Session.done] in HS.
  rewrite Start_eq in HS. cbv zeta in HS. rewrite Ec in HS.
  set (h' := detectTerminal _ o) in HS.
  set (m1 := fst (AddConnection m username floorDraw)) in HS.
  destruct (AddFish (prepared h' m1) (connCounter m + 1) 1 rnd)
    as [[m2 ids]|] eqn:Hadd; [|discriminate HS].
  injection HS as <- <-.
  destruct (prepared_fields h' m1) as (Pf & Pc & Pfc & Pcc & cfg & Pt).
  assert (Hc1 : connections (prepared h' m1) !! (connCounter m + 1)%N
                = Some (mkConnection (connCounter m + 1) [] username)).
  { rewrite Pc. unfold m1, AddConnection. cbn [fst connections].
    rewrite Ec. apply lookup_insert_eq. }
  destruct (AddFish_Some_inv _ _ _ _ _ _ _ _ Hc1 Pt Hadd) as (f & _ & _ & Hm2).
  cbv zeta in Hm2. rewrite Pf, Pc, Pfc in Hm2.
  cbn [ConnID FishIDs ConnUsername app] in Hm2.
  assert (Hf1 : fish m1 = fish m) by reflexivity.
  assert (Hfc1 : fishCounter m1 = fishCounter m) by reflexivity.
  assert (Hconn1 : connections m1
                   = <[(connCounter m + 1)%N
                       := mkConnection (connCounter m + 1) [] username]>
                       (connections m)).
  { unfold m1, AddConnection. cbn [fst connections]. rewrite Ec. reflexivity. }
  rewrite Hf1, Hfc1, Hconn1, Ef, insert_insert_eq in Hm2.
  assert (Hid : connID h' = (connCounter m + 1)%N)
    by (unfold h'; rewrite detectTerminal_connID; reflexivity).
  assert (Hclose : Session.Close (Session.mk h' true false) m2
                   = Some (Session.mk h' false true,
                           RemoveConnection m2 (connCounter m + 1)%N)).
  { unfold Session.Close.
    cbn [Session.running Session.handler Session.done negb].
    rewrite Hid. reflexivity. }
  assert (Hrm : fish (RemoveConnection m2 (connCounter m + 1)%N) = fish m
                /\ connections (RemoveConnection m2 (connCounter m + 1)%N)
                   = connections m).
  { assert (Hlk : connections m2 !! (connCounter m + 1)%N
                   = Some (mkConnection (connCounter m + 1)
                                        [(fishCounter m + 1)%N] username))
      by (rewrite Hm2; cbn [connections]; apply lookup_insert_eq).
    assert (E1 : removeFish (fish m2) [(fishCounter m + 1)%N] = fish m).
    { rewrite Hm2. cbn [fish].
      apply (removeFish_insert_fresh (fish m) _ f []); [exact Hffresh|].
      intros i Hi. inversion Hi. }
    assert (E2 : delete (connCounter m + 1)%N (connections m2)
                 = connections m).
    { rewrite Hm2. cbn [connections]. rewrite delete_insert_eq.
      apply delete_id, Hcfresh. }
    unfold RemoveConnection. rewrite Hlk. cbn [FishIDs]. rewrite E1, E2.
    destruct (bool_decide _ && animationStop m2); split; reflexivity. }
  cbn [Session.running Session.handler Session.done].
  split; [reflexivity|]. split; [reflexivity|].
  split; [exact Hid|]. split; [exact Hcfresh|].
  split; [rewrite Hm2; cbn [connections]; apply lookup_insert_eq|].
  split; [rewrite Hm2; unfold GetFishCount; cbn [fish];
          apply map_size_insert_None, Hffresh|].
  split; [reflexivity|].
  eexists _, _. split; [exact Hclose|].
  cbn [Session.running Session.handler Session.done].
  split; [reflexivity|]. split; [reflexivity|].
  split; [apply Hrm|]. split; [apply Hrm|]. split; [reflexivity|].
  intros username2 floorDraw2 o2 rnd2 s3 m3 HS3.
  unfold Session.Start in HS3.
  cbn [Session.running Session.handler Session.done] in HS3.
  destruct (Start h' _ username2 floorDraw2 o2 rnd2) as [h3 [[m4 ids4]|]];
    [|discriminate HS3].
  injection HS3 as <- <-. split; reflexivity.
Qed.

Lemma Start_then_Close_restores_witness :
  match Session.Start (Session.mk New false false) loneSessionRunning "second"
                      0 TimedOut midRand with
  | Some (s', m') =>
      Session.running s' = true
      /\ Session.done s' = false
      /\ connID (Session.handler s') = (connCounter loneSessionRunning + 1)%N
      /\ connections loneSessionRunning
           !! (connCounter loneSessionRunning + 1)%N = None
      /\ connections m' !! (connCounter loneSessionRunning + 1)%N
         = Some (mkConnection (connCounter loneSessionRunning + 1)
                              [(fishCounter loneSessionRunning + 1)%N] "second")
      /\ GetFishCount m' = S (GetFishCount loneSessionRunning)
      /\ Session.Start s' m' "second" 0 TimedOut midRand = Some (s', m')
      /\ exists s'' m'',
           Session.Close s' m' = Some (s'', m'')
           /\ Session.running s'' = false
           /\ Session.done s'' = true
           /\ fish m'' = fish loneSessionRunning
           /\ connections m'' = connections loneSessionRunning
           /\ Session.Close s'' m'' = Some (s'', m'')
           /\ (forall username2 floorDraw2 o2 rnd2 s3 m3,
                 Session.Start s'' m'' username2 floorDraw2 o2 rnd2
                 = Some (s3, m3) ->
                 Session.running s3 = true /\ Session.Close s3 m3 = None)
  | None => False
  end.
Proof.
  destruct (Session.Start (Session.mk New false false) loneSessionRunning
                          "second" 0 TimedOut midRand) as [[s' m']|] eqn:E.
  - apply (Start_then_Close_restores New loneSessionRunning "second" 0
             TimedOut midRand s' m').
    + apply loneSession_wellFormed.
    + vm_compute. reflexivity.
    + vm_compute. reflexivity.
    + exact E.
  - vm_compute in E. discriminate E.
Defined.

Lemma detectTerminal_Responded (h : Handler) (W H : Z) :
  0 < termColumns h -> 0 < termRows h ->
  detectTerminal h (Responded [W; H])
  = mkHandler (connID h) (termColumns h) (termRows h)
              (GoInt.wrap64 (Z.quot W (termColumns h)))
              (GoInt.wrap64 (Z.quot H (termRows h))).
Proof.
  intros HC HR. unfold detectTerminal.
  rewrite (proj2 (Z.ltb_lt _ _) HC), (proj2 (Z.ltb_lt _ _) HR). reflexivity.
Qed.

Lemma prepared_fresh (h : Handler) (m : Manager) :
  termConfig m = None ->
  termConfig (prepared h m) = Some (handlerConfig h)
  /\ animationStop (prepared h m) = true.
Proof.
  intros E. unfold prepared, GetTerminalConfig. rewrite E.
  unfold StartAnimation, SetTerminalConfig. cbn [animationStop].
  destruct (animationStop m); split; reflexivity.
Qed.

(** X21: at the start of an epoch (no capability set), when the
    terminal reports a window less high in pixels than it has rows (a
    size of 0 by 0, say), the cell height derived is 0 and [Start]
    panics (integer division by zero in [NewFish]). *)
Theorem Start_panics_on_zero_cell_height (h : Handler) (m : Manager)
    (username : string) (floorDraw : nat) (W H : Z) (rnd : NewFishRand)
    (done : bool) :
  termConfig m = None ->
  0 < termColumns h -> 0 < termRows h ->
  0 <= H < termRows h ->
  cellHeight (fst (Start h m username floorDraw (Responded [W; H]) rnd)) = 0
  /\ snd (Start h m username floorDraw (Responded [W; H]) rnd) = None
  /\ Session.Start (Session.mk h false done) m username floorDraw
                   (Responded [W; H]) rnd = None.
Proof.
  intros Hcfg HC HR HH.
  assert (E : cellHeight (fst (Start h m username floorDraw
                                     (Responded [W; H]) rnd)) = 0
              /\ snd (Start h m username floorDraw (Responded [W; H]) rnd)
                 = None).
  { rewrite Start_eq. cbv zeta. cbn [fst snd].
    rewrite detectTerminal_Responded by assumption.
    cbn [termColumns termRows cellHeight].
    rewrite Z.quot_small by lia. split; [reflexivity|].
    set (h' := mkHandler _ _ _ _ _).
    set (m1 := fst (AddConnection m username floorDraw)).
    destruct (prepared_fresh h' m1 Hcfg) as (Pt & _).
    destruct (prepared_fields h' m1) as (_ & Pc & _).
    unfold AddFish. rewrite Pt, Pc.
    unfold m1, AddConnection. cbn [fst connections].
    rewrite lookup_insert_eq. reflexivity. }
  split; [apply E|]. split; [apply E|].
  unfold Session.Start. cbn [Session.running Session.handler].
  destruct (Start h m username floorDraw (Responded [W; H]) rnd) as [h' r].
  cbn [snd] in E. destruct E as (_ & ->). reflexivity.
Qed.

Lemma Start_panics_on_zero_cell_height_witness :
  cellHeight (fst (Start (SetTerminal New 80 24) NewManager "guest" 0
                         (Responded [0; 0]) midRand)) = 0
  /\ snd (Start (SetTerminal New 80 24) NewManager "guest" 0
                (Responded [0; 0]) midRand) = None
  /\ Session.Start (Session.mk (SetTerminal New 80 24) false false)
                   NewManager "guest" 0 (Responded [0; 0]) midRand = None.
Proof.
  apply (Start_panics_on_zero_cell_height (SetTerminal New 80 24) NewManager
           "guest" 0 0 0 midRand false);
    [reflexivity | reflexivity | reflexivity|].
  vm_compute. split; [discriminate | reflexivity].
Defined.

(** X22: at the start of an epoch, when the terminal reports a window
    less wide in pixels than it has columns, and at least as high as it
    has rows, [Start] returns with one fish and a capability whose cell
    width is 0; every tick that visits this fish then panics. *)
Theorem zero_cell_width_panics_next_tick (h : Handler) (m : Manager)
    (username : string) (floorDraw : nat) (W H : Z) (rnd : NewFishRand) :
  termConfig m = None ->
  0 < termColumns h -> 0 < termRows h ->
  0 <= W < termColumns h -> termRows h <= H <= GoInt.maxInt64 ->
  exists m' id,
    snd (Start h m username floorDraw (Responded [W; H]) rnd) = Some (m', [id])
    /\ (exists cfg, termConfig m' = Some cfg /\ CellWidth cfg = 0)
    /\ is_Some (fish m' !! id)
    /\ forall addFloorTile addStatusText deltaTime order rnd' statusDue
              statusOrder durationStr,
         id ∈ order ->
         updateAndBroadcast addFloorTile addStatusText m' deltaTime order rnd'
                            statusDue statusOrder durationStr = None.
Proof.
  intros Hcfg HC HR HW HH.
  rewrite Start_eq. cbv zeta. cbn [snd].
  rewrite detectTerminal_Responded by assumption.
  cbn [termColumns termRows].
  rewrite (Z.quot_small W) by lia.
  rewrite Z.quot_div_nonneg by lia.
  assert (Hq : 1 <= H / termRows h <= GoInt.maxInt64).
  { split; [apply Z.div_le_lower_bound; lia|].
    transitivity H; [|lia]. apply Z.div_le_upper_bound; [lia|].
    unfold GoInt.maxInt64 in *. nia. }
  rewrite (wrap64_small (H / termRows h))
    by (unfold GoInt.minInt64, GoInt.maxInt64 in *; lia).
  change (GoInt.wrap64 0) with 0.
  set (h' := mkHandler _ _ _ _ _).
  set (m1 := fst (AddConnection m username floorDraw)).
  destruct (prepared_fresh h' m1 Hcfg) as (Pt & _).
  destruct (prepared_fields h' m1) as (_ & Pc & _).
  set (id := GoInt.wrapU64 (connCounter m + 1)).
  assert (Hc1 : connections (prepared h' m1) !! id
                = Some (mkConnection id [] username)).
  { rewrite Pc. unfold m1, AddConnection. cbn [fst connections].
    apply lookup_insert_eq. }
  destruct (NewFish_Some (GoInt.wrapU64 (fishCounter (prepared h' m1) + 1)) id
              (GoInt.mul (Columns (handlerConfig h')) (CellWidth (handlerConfig h')))
              (GoInt.mul (Rows (handlerConfig h')) (CellHeight (handlerConfig h')))
              (CellWidth (handlerConfig h')) (CellHeight (handlerConfig h'))
              username EmptyString rnd) as (f & Hnf & _).
  { unfold h', handlerConfig. cbn [CellHeight cellHeight]. lia. }
  assert (Hadd : AddFish (prepared h' m1) id 1 rnd
                 = Some (mkManager
                           (<[GoInt.wrapU64 (fishCounter (prepared h' m1) + 1)
                              := f]> (fish (prepared h' m1)))
                           (<[id := mkConnection id
                                      ([] ++ [GoInt.wrapU64
                                                (fishCounter (prepared h' m1) + 1)])
                                      username]> (connections (prepared h' m1)))
                           (termConfig (prepared h' m1))
                           (animationStop (prepared h' m1))
                           (GoInt.wrapU64 (fishCounter (prepared h' m1) + 1))
                           (connCounter (prepared h' m1))
                           (debugMode (prepared h' m1))
                           (aquarium (prepared h' m1)),
                         [GoInt.wrapU64 (fishCounter (prepared h' m1) + 1)])).
  { unfold AddFish. rewrite Hc1, Pt.
    cbn [ConnUsername ConnID FishIDs]. rewrite Hnf. reflexivity. }
  rewrite Hadd. do 2 eexists. split; [reflexivity|].
  cbn [termConfig fish]. rewrite Pt.
  split; [exists (handlerConfig h'); split; reflexivity|].
  split; [rewrite lookup_insert_eq; eauto|].
  intros aF aS deltaTime order rnd' sd so ds Hin.
  unfold updateAndBroadcast. cbn [termConfig connections fish]. rewrite ?Pt.
  rewrite bool_decide_false.
  - assert (HN : tickLoop (handlerConfig h') deltaTime rnd' order
                   (<[GoInt.wrapU64 (fishCounter (prepared h' m1) + 1) := f]>
                      (fish (prepared h' m1))) NewUpdateBuffer = None).
    { apply tickLoop_None. split; [left; reflexivity|].
      eexists. split; [exact Hin|]. rewrite lookup_insert_eq. eauto. }
    rewrite HN. reflexivity.
  - intros E. apply map_size_empty_inv in E.
    apply (f_equal (fun c => c !! id)) in E.
    rewrite lookup_insert_eq, lookup_empty in E. discriminate E.
Qed.

Lemma zero_cell_width_panics_next_tick_witness :
  exists m' id,
    snd (Start (SetTerminal New 80 24) NewManager "guest" 0
               (Responded [50; 600]) midRand) = Some (m', [id])
    /\ (exists cfg, termConfig m' = Some cfg /\ CellWidth cfg = 0)
    /\ is_Some (fish m' !! id)
    /\ forall addFloorTile addStatusText deltaTime order rnd' statusDue
              statusOrder durationStr,
         id ∈ order ->
         updateAndBroadcast addFloorTile addStatusText m' deltaTime order rnd'
                            statusDue statusOrder durationStr = None.
Proof.
  apply (zero_cell_width_panics_next_tick (SetTerminal New 80 24) NewManager
           "guest" 0 50 600 midRand);
    [reflexivity | reflexivity | reflexivity
    | change (0 <= 50 < 80); lia
    | change (24 <= 600 <= 9223372036854775807); lia].
Defined.

Lemma handleInput_closed (Cos Sin : float -> float) (s : Session.t)
    (m : Manager)
    (reads : list (option (list Byte.byte) * list N * ClickRand)) :
  Session.done s = true -> handleInput Cos Sin s m reads = Some (s, m).
Proof.
  intros H. destruct reads as [|[[r order] rnd] rest]; [reflexivity|].
  cbn [handleInput]. rewrite H. reflexivity.
Qed.

(** X23: when the books are consistent and the session is running and
    registered, with its channel [done] open, a failed read, or a chunk
    that is a quit key, ends the loop of [handleInput] with the session
    not running and [done] closed (later reads are not processed), the
    connection unregistered, every fish the session owns deleted and
    every other fish as it was.  With [done] closed already (a handler
    started again after a [Close]) the loop returns at once without
    reading, and a [Close] panics. *)
Theorem quit_ends_session (Cos Sin : float -> float) (s : Session.t)
    (m : Manager) (r : option (list Byte.byte)) (order : list N)
    (rnd : ClickRand)
    (rest : list (option (list Byte.byte) * list N * ClickRand))
    (conn : Connection) :
  wellFormed m ->
  Session.running s = true ->
  connections m !! connID (Session.handler s) = Some conn ->
  r = None \/ (exists data, r = Some data /\ decodeInput data = Quit) ->
  (Session.done s = false ->
   exists s' m',
     handleInput Cos Sin s m ((r, order, rnd) :: rest) = Some (s', m')
     /\ Session.running s' = false
     /\ Session.done s' = true
     /\ m' = RemoveConnection m (connID (Session.handler s))
     /\ connections m' !! connID (Session.handler s) = None
     /\ (forall id f, fish m !! id = Some f ->
           fish m' !! id = if decide (OwnerID f = connID (Session.handler s))
                           then None else Some f))
  /\ (Session.done s = true ->
      handleInput Cos Sin s m ((r, order, rnd) :: rest) = Some (s, m)
      /\ Session.Close s m = None).
Proof.
  intros Hwf Hrun Hc Hr. split.
  - intros Hdone.
    assert (Hclose : Session.Close s m
                     = Some (Session.mk (Session.handler s) false true,
                             RemoveConnection m (connID (Session.handler s))))
      by (unfold Session.Close; rewrite Hrun, Hdone; reflexivity).
    assert (E : handleInput Cos Sin s m ((r, order, rnd) :: rest)
                = Some (Session.mk (Session.handler s) false true,
                        RemoveConnection m (connID (Session.handler s)))).
    { cbn [handleInput]. rewrite Hdone.
      destruct Hr as [-> | (data & -> & Hq)].
      - unfold handleRead. rewrite Hclose. reflexivity.
      - assert (Hlen : (0 <? length data)%nat = true).
        { destruct data; [discriminate Hq | reflexivity]. }
        unfold handleRead, processInput. rewrite Hlen, Hq, Hclose.
        apply handleInput_closed. reflexivity. }
    eexists _, _. split; [exact E|].
    cbn [Session.running Session.done].
    split; [reflexivity|]. split; [reflexivity|]. split; [reflexivity|].
    destruct Hwf as (H1 & H2 & H3).
    assert (Ef : fish (RemoveConnection m (connID (Session.handler s)))
                 = removeFish (fish m) (FishIDs conn)
                 /\ connections (RemoveConnection m (connID (Session.handler s)))
                    = delete (connID (Session.handler s)) (connections m)).
    { unfold RemoveConnection. rewrite Hc.
      destruct (bool_decide _ && animationStop m); split; reflexivity. }
    destruct Ef as (Ef & Ec). rewrite Ef, Ec.
    split; [apply lookup_delete_eq|].
    intros id f Hf. rewrite removeFish_lookup, Hf.
    destruct (decide (id ∈ FishIDs conn)) as [Hin|Hnin].
    + destruct (H2 _ conn id Hc Hin) as (_ & Hown).
      rewrite decide_True by (apply Hown, Hf). reflexivity.
    + rewrite decide_False; [reflexivity|]. intros E'.
      destruct (H1 id f Hf) as (_ & _ & _ & conn' & Hc' & Hin).
      rewrite E', Hc in Hc'. injection Hc' as <-. contradiction.
  - intros Hdone. split; [apply handleInput_closed, Hdone|].
    unfold Session.Close. rewrite Hrun, Hdone. reflexivity.
Qed.

Lemma quit_ends_session_witness :
  let s := Session.mk (mkHandler 1 80 24 8 16) true false in
  let reads := [(Some [Byte.x71], [1%N; 2%N], clickQuarterTurn);
                (Some (mouseReport 0 14 8), [1%N; 2%N], clickQuarterTurn)] in
  exists s' m',
    handleInput cosTable sinTable s pondOfTwo reads = Some (s', m')
    /\ Session.running s' = false
    /\ Session.done s' = true
    /\ m' = RemoveConnection pondOfTwo (connID (Session.handler s))
    /\ connections m' !! connID (Session.handler s) = None
    /\ (forall id f, fish pondOfTwo !! id = Some f ->
          fish m' !! id = if decide (OwnerID f = connID (Session.handler s))
                          then None else Some f).
Proof.
  refine (proj1 (quit_ends_session cosTable sinTable
           (Session.mk (mkHandler 1 80 24 8 16) true false) pondOfTwo
           (Some [Byte.x71]) [1%N; 2%N] clickQuarterTurn
           [(Some (mouseReport 0 14 8), [1%N; 2%N], clickQuarterTurn)]
           (mkConnection 1 [2%N] "clicker") _ _ _ _) _).
  - apply pondOfTwo_wellFormed.
  - reflexivity.
  - reflexivity.
  - right. exists [Byte.x71]. split; reflexivity.
  - reflexivity.
Defined.

(** ** The answer of the terminal *)

Example readTerminalResponse_examples :
  readTerminalResponse [Some (sizeReport 600 800)] = Some [800; 600]
  /\ readTerminalResponse [Some "junk"%string; Some (sizeReport 600 800)]
     = Some [800; 600]
  /\ readTerminalResponse [Some (ESC ++ "[4;60")%string;
                           Some ("0;800t" ++ ESC ++ "[M")%string]
     = Some [800; 600]
  /\ readTerminalResponse [Some (ESC ++ "[4;0600;99999999999999999999t")%string]
     = Some [0; 600]
  /\ readTerminalResponse [Some "q"%string; None] = Some []
  /\ readTerminalResponse [Some "q"%string] = None.
Proof. vm_compute. repeat split. Qed.

Lemma append_cons (c : ascii) (s t : string) :
  (String c s ++ t)%string = String c (s ++ t)%string.
Proof. reflexivity. Qed.

Lemma stripPrefix_app (p s : string) : stripPrefix p (p ++ s) = Some s.
Proof.
  induction p as [|a p IH]; [reflexivity|].
  rewrite append_cons. cbn [stripPrefix]. now rewrite Ascii.eqb_refl.
Qed.

Lemma takeDigits_app (d rest : string) :
  allDigits d = true ->
  match rest with
  | EmptyString => True
  | String c _ => isDigit c = false
  end ->
  takeDigits (d ++ rest) = (d, rest).
Proof.
  intros Hd Hr. induction d as [|c d IH].
  - change (EmptyString ++ rest)%string with rest.
    destruct rest as [|c r]; [reflexivity|].
    cbn [takeDigits]. now rewrite Hr.
  - rewrite append_cons. cbn [takeDigits].
    cbn [allDigits] in Hd. apply andb_prop in Hd. destruct Hd as (Hc & Hd).
    rewrite Hc, (IH Hd). reflexivity.
Qed.

Lemma string_of_uint_digits (d : Decimal.uint) :
  allDigits (NilEmpty.string_of_uint d) = true.
Proof. induction d; cbn [NilEmpty.string_of_uint allDigits]; auto. Qed.

Lemma fmt_d_digits (n : Z) :
  0 <= n ->
  allDigits (fmt_d n) = true /\ String.eqb (fmt_d n) EmptyString = false.
Proof.
  intros Hn. unfold fmt_d. destruct n as [|p|p]; [split; reflexivity | | lia].
  cbn [Z.to_int NilZero.string_of_int]. unfold NilZero.string_of_uint.
  destruct (Pos.to_uint p) eqn:E; try (split; reflexivity);
    (split; [apply (string_of_uint_digits (_ u)) | reflexivity]).
Qed.

Lemma scanInt_fmt_d (n : Z) :
  0 <= n <= GoInt.maxInt64 -> scanInt (fmt_d n) = n.
Proof.
  intros Hn. unfold scanInt, fmt_d.
  pose proof (DecimalZ.of_to n) as E.
  destruct n as [|p|p]; [reflexivity | | lia].
  cbn [Z.to_int NilZero.string_of_int Z.of_int] in *.
  assert (Hd : NilZero.string_of_uint (Pos.to_uint p)
               = NilEmpty.string_of_uint (Pos.to_uint p)).
  { unfold NilZero.string_of_uint.
    destruct (Pos.to_uint p) eqn:Ed; try reflexivity.
    cbn in E. discriminate E. }
  rewrite Hd, NilEmpty.usu, E.
  destruct (Z.leb_spec (Z.pos p) GoInt.maxInt64); [reflexivity | lia].
Qed.

Lemma matchHere_sizeReport (height width : Z) (tail : string) :
  0 <= height -> 0 <= width ->
  matchHere (sizeReport height width ++ tail)
  = Some (fmt_d height, fmt_d width).
Proof.
  intros Hh Hw. unfold sizeReport.
  destruct (fmt_d_digits height Hh) as (Dh & Nh).
  destruct (fmt_d_digits width Hw) as (Dw & Nw).
  assert (E : ((ESC ++ "[4;" ++ fmt_d height ++ ";" ++ fmt_d width ++ "t")
               ++ tail)%string
              = ((ESC ++ "[4;")
                 ++ (fmt_d height
                     ++ String ";" (fmt_d width ++ String "t" tail)))%string).
  { assert (HX : ((fmt_d height ++ String ";" (fmt_d width ++ "t")) ++ tail)%string
                 = (fmt_d height
                    ++ String ";" (fmt_d width ++ String "t" tail))%string).
    { rewrite append_assoc, append_cons, append_assoc. reflexivity. }
    exact (f_equal (fun x => String "027" (String "[" (String "4"
                                           (String ";" x)))) HX). }
  rewrite E. unfold matchHere. rewrite stripPrefix_app.
  cbn [mbind option_bind].
  rewrite (takeDigits_app (fmt_d height)) by (exact Dh || reflexivity).
  rewrite Nh. cbn [stripPrefix]. rewrite Ascii.eqb_refl.
  cbn [mbind option_bind].
  rewrite (takeDigits_app (fmt_d width)) by (exact Dw || reflexivity).
  rewrite Nw. cbn [stripPrefix]. rewrite Ascii.eqb_refl. reflexivity.
Qed.

Lemma findSubmatch_skip (junk s : string) :
  noEscape junk = true -> findSubmatch (junk ++ s) = findSubmatch s.
Proof.
  induction junk as [|c junk IH]; intros H; [reflexivity|].
  cbn [noEscape] in H. apply andb_prop in H. destruct H as (Hc & Hj).
  rewrite append_cons.
  assert (E : matchHere (String c (junk ++ s)) = None).
  { unfold matchHere.
    change (ESC ++ "[4;")%string with (String "027" "[4;").
    cbn [stripPrefix]. rewrite Ascii.eqb_sym.
    apply negb_true_iff in Hc. rewrite Hc. reflexivity. }
  cbn [findSubmatch]. rewrite E. apply IH, Hj.
Qed.

Lemma findSubmatch_here (s : string) (groups : string * string) :
  matchHere s = Some groups -> findSubmatch s = Some groups.
Proof. intros H. destruct s; cbn [findSubmatch]; now rewrite H. Qed.

(** X24: when one read delivers, after bytes that hold no [ESC] and
    before whatever bytes, the report [ESC [ 4 ; height ; width t] of a
    height and a width that fit an [int], [readTerminalResponse] returns
    the width, then the height. *)
Theorem readTerminalResponse_reads_size_report (junk tail : string)
    (height width : Z) :
  noEscape junk = true ->
  0 <= height <= GoInt.maxInt64 -> 0 <= width <= GoInt.maxInt64 ->
  readTerminalResponse [Some (junk ++ sizeReport height width ++ tail)%string]
  = Some [width; height].
Proof.
  intros Hj Hh Hw. unfold readTerminalResponse. cbn [readLoop].
  change (EmptyString ++ (junk ++ sizeReport height width ++ tail))%string
    with (junk ++ sizeReport height width ++ tail)%string.
  rewrite findSubmatch_skip by exact Hj.
  rewrite (findSubmatch_here _ (fmt_d height, fmt_d width))
    by (apply matchHere_sizeReport; lia).
  rewrite !scanInt_fmt_d by assumption. reflexivity.
Qed.

Lemma readTerminalResponse_reads_size_report_witness :
  readTerminalResponse [Some ("ok" ++ sizeReport 600 800 ++ "q")%string]
  = Some [800; 600].
Proof.
  apply (readTerminalResponse_reads_size_report "ok" "q" 600 800);
    [reflexivity | |]; unfold GoInt.maxInt64; lia.
Defined.

Lemma scanInt_range (digits : string) :
  0 <= scanInt digits <= GoInt.maxInt64.
Proof.
  unfold scanInt. destruct (NilEmpty.uint_of_string digits) as [d|];
    [|unfold GoInt.maxInt64; lia].
  destruct (Z.leb_spec (Z.of_uint d) GoInt.maxInt64);
    [|unfold GoInt.maxInt64; lia].
  split; [|assumption]. unfold Z.of_uint. lia.
Qed.

(** X25: whenever [readTerminalResponse] returns, it returns [nil]
    or two sizes, neither of them negative. *)
Theorem readTerminalResponse_nil_or_two_sizes (reads : list (option string))
    (dims : list Z) :
  readTerminalResponse reads = Some dims ->
  dims = []
  \/ exists pixelWidth pixelHeight,
       dims = [pixelWidth; pixelHeight]
       /\ 0 <= pixelWidth <= GoInt.maxInt64
       /\ 0 <= pixelHeight <= GoInt.maxInt64.
Proof.
  unfold readTerminalResponse. generalize EmptyString as buf.
  induction reads as [|[chunk|] rest IH]; intros buf H.
  - discriminate H.
  - cbn [readLoop] in H.
    destruct (findSubmatch (buf ++ chunk)) as [[g1 g2]|].
    + injection H as <-. right. exists (scanInt g2), (scanInt g1).
      split; [reflexivity|]. split; apply scanInt_range.
    + destruct (100 <? String.length (buf ++ chunk))%nat.
      * injection H as <-. now left.
      * exact (IH _ H).
  - injection H as <-. now left.
Qed.

Lemma readTerminalResponse_nil_or_two_sizes_witness :
  [800; 600] = []
  \/ exists pixelWidth pixelHeight,
       [800; 600] = [pixelWidth; pixelHeight]
       /\ 0 <= pixelWidth <= GoInt.maxInt64
       /\ 0 <= pixelHeight <= GoInt.maxInt64.
Proof.
  apply (readTerminalResponse_nil_or_two_sizes
           [Some (ESC ++ "[4;60")%string; Some ("0;800t" ++ ESC ++ "[M")%string]
           [800; 600]).
  vm_compute. reflexivity.
Defined.

(** ** The number of frames of an upload *)

Lemma ceil_div_step (n k : nat) :
  (0 < k)%nat -> (k <= n)%nat ->
  ((n + (k - 1)) / k = S ((n - k + (k - 1)) / k))%nat.
Proof.
  intros Hk Hn.
  replace (n + (k - 1))%nat with ((n - k + (k - 1)) + 1 * k)%nat by lia.
  rewrite Nat.div_add by lia. lia.
Qed.

Lemma ceil_div_small (n k : nat) :
  (0 < n)%nat -> (n <= k)%nat -> ((n + (k - 1)) / k = 1)%nat.
Proof.
  intros Hn Hk.
  replace (n + (k - 1))%nat with ((n - 1) + 1 * k)%nat by lia.
  rewrite Nat.div_add by lia. rewrite Nat.div_small by lia. reflexivity.
Qed.

Lemma uploadLoop_length (s : string) (imageID : Z) (fuel i : nat) :
  (String.length s - i <= fuel)%nat ->
  length (uploadLoop fuel i s imageID)
  = ((String.length s - i + (chunkSize - 1)) / chunkSize)%nat.
Proof.
  pose proof chunkSize_pos as Hc.
  revert i. induction fuel as [|fuel IH]; intros i Hfuel.
  - replace (String.length s - i)%nat with 0%nat by lia.
    rewrite Nat.div_small by lia. reflexivity.
  - rewrite uploadLoop_unfold.
    destruct (Nat.ltb_spec i (String.length s)) as [Hlt|Hge].
    + cbn [length]. rewrite IH by lia.
      destruct (Nat.le_gt_cases chunkSize (String.length s - i)) as [Hle|Hgt].
      * rewrite (ceil_div_step (String.length s - i) chunkSize) by lia.
        do 2 f_equal. lia.
      * rewrite (ceil_div_small (String.length s - i) chunkSize) by lia.
        replace (String.length s - (i + chunkSize))%nat with 0%nat by lia.
        rewrite Nat.div_small by lia. reflexivity.
    + replace (String.length s - i)%nat with 0%nat by lia.
      rewrite Nat.div_small by lia. reflexivity.
Qed.

Lemma EncodeToString_length (data : list Byte.byte) :
  String.length (Base64.EncodeToString data)
  = (4 * ((length data + 2) / 3))%nat.
Proof.
  revert data. fix IH 1. intros [|x [|y [|z rest]]]; try reflexivity.
  cbn [Base64.EncodeToString String.length length]. rewrite (IH rest).
  replace (S (S (S (length rest))) + 2)%nat
    with ((length rest + 2) + 1 * 3)%nat by lia.
  rewrite Nat.div_add by lia. lia.
Qed.

(** X26: the base64 text of an image of [n] bytes has
    [4 * ceil(n / 3)] characters, and [uploadImage] writes
    [ceil(4 * ceil(n / 3) / 4096)] frames for it: one frame for an image
    of 1 to 3072 bytes. *)
Theorem uploadImage_frame_count (data : list Byte.byte) (imageID : Z) :
  let textLength := (4 * ((length data + 2) / 3))%nat in
  String.length (Base64.EncodeToString data) = textLength
  /\ length (uploadImage data imageID) = ((textLength + 4095) / 4096)%nat
  /\ (data <> [] -> (length data <= 3072)%nat ->
      length (uploadImage data imageID) = 1%nat).
Proof.
  intros textLength.
  assert (E : String.length (Base64.EncodeToString data) = textLength)
    by apply EncodeToString_length.
  assert (F : length (uploadImage data imageID)
              = ((textLength + 4095) / 4096)%nat).
  { unfold uploadImage, uploadFrames. rewrite length_map.
    rewrite uploadLoop_length by lia. rewrite E, Nat.sub_0_r.
    reflexivity. }
  split; [exact E|]. split; [exact F|].
  intros Hne Hlen. rewrite F.
  assert (H1 : (1 <= (length data + 2) / 3)%nat).
  { destruct data as [|x rest]; [contradiction|]. cbn [length].
    replace (S (length rest) + 2)%nat with (length rest + 1 * 3)%nat by lia.
    rewrite Nat.div_add by lia. apply Nat.le_add_l. }
  assert (H2 : ((length data + 2) / 3 <= 1024)%nat).
  { apply Nat.lt_succ_r, Nat.Div0.div_lt_upper_bound. lia. }
  apply (ceil_div_small textLength 4096); unfold textLength; lia.
Qed.

(** ** The requests of a session *)

Lemma lor_shiftl_low (hi lo k : N) :
  (lo < 2 ^ k)%N -> N.lor (N.shiftl hi k) lo = (hi * 2 ^ k + lo)%N.
Proof.
  intros Hlo. apply N.bits_inj. intros i. rewrite N.lor_spec.
  assert (Hp : (2 ^ k <> 0)%N) by (apply N.pow_nonzero; lia).
  destruct (N.lt_ge_cases i k) as [Hlt|Hge].
  - rewrite N.shiftl_spec_low by exact Hlt. cbn [orb].
    rewrite <- (N.mod_pow2_bits_low (hi * 2 ^ k + lo) k i) by exact Hlt.
    rewrite N.add_comm, N.Div0.mod_add, N.mod_small by exact Hlo.
    reflexivity.
  - rewrite N.shiftl_spec_high' by exact Hge.
    rewrite <- (N.mod_small lo (2 ^ k)) at 1 by exact Hlo.
    rewrite N.mod_pow2_bits_high by exact Hge. rewrite orb_false_r.
    replace i with (i - k + k)%N at 2 by lia.
    rewrite <- N.div_pow2_bits.
    rewrite N.add_comm, N.div_add by exact Hp.
    rewrite N.div_small by exact Hlo. reflexivity.
Qed.

Lemma byteAt_app (pre l : list Byte.byte) (k : nat) :
  byteAt (pre ++ l) (length pre + k) = byteAt l k.
Proof. unfold byteAt. now rewrite app_nth2_plus. Qed.

Lemma byteAt_app_0 (pre l : list Byte.byte) :
  byteAt (pre ++ l) (length pre) = byteAt l 0.
Proof. rewrite <- (Nat.add_0_r (length pre)) at 1. apply byteAt_app. Qed.

Lemma byteOf_to_N (x : N) : (x <= 255)%N -> Byte.to_N (byteOf (Z.of_N x)) = x.
Proof. intros H. apply N2Z.inj. apply byteOf_value. lia. Qed.

Lemma be32_length (n : N) : length (be32 n) = 4%nat.
Proof. reflexivity. Qed.

Lemma lor_bytes (a b c d : N) :
  (b < 256)%N -> (c < 256)%N -> (d < 256)%N ->
  N.lor (N.lor (N.lor (N.shiftl a 24) (N.shiftl b 16)) (N.shiftl c 8)) d
  = (a * 16777216 + b * 65536 + c * 256 + d)%N.
Proof.
  intros Hb Hc Hd.
  replace (N.shiftl a 24) with (N.shiftl (N.shiftl a 8) 16)
    by (rewrite N.shiftl_shiftl; reflexivity).
  rewrite <- N.shiftl_lor.
  rewrite (lor_shiftl_low a b 8) by exact Hb.
  replace (N.shiftl (a * 2 ^ 8 + b) 16)
    with (N.shiftl (N.shiftl (a * 2 ^ 8 + b) 8) 8)
    by (rewrite N.shiftl_shiftl; reflexivity).
  rewrite <- N.shiftl_lor.
  rewrite (lor_shiftl_low (a * 2 ^ 8 + b) c 8) by exact Hc.
  rewrite (lor_shiftl_low _ d 8) by exact Hd.
  change (2 ^ 8)%N with 256%N. lia.
Qed.

Lemma u32At_be32 (pre post : list Byte.byte) (n : N) :
  (n < 2 ^ 32)%N -> u32At (pre ++ be32 n ++ post) (length pre) = n.
Proof.
  intros Hn. unfold u32At.
  rewrite byteAt_app_0, !byteAt_app. unfold be32, byteAt. cbn [app nth].
  change (2 ^ 24)%N with 16777216%N. change (2 ^ 16)%N with 65536%N.
  change (2 ^ 8)%N with 256%N. change (2 ^ 32)%N with 4294967296%N in Hn.
  rewrite !byteOf_to_N by (pose proof (N.mod_upper_bound (n / 16777216) 256);
                           pose proof (N.mod_upper_bound (n / 65536) 256);
                           pose proof (N.mod_upper_bound (n / 256) 256);
                           pose proof (N.mod_upper_bound n 256); lia).
  rewrite lor_bytes by (apply N.mod_upper_bound; lia).
  replace (n / 65536)%N with (n / 256 / 256)%N
    by (rewrite N.Div0.div_div; reflexivity).
  replace (n / 16777216)%N with (n / 256 / 256 / 256)%N
    by (rewrite !N.Div0.div_div; reflexivity).
  pose proof (N.div_mod' n 256) as E0.
  pose proof (N.div_mod' (n / 256) 256) as E1.
  pose proof (N.div_mod' (n / 256 / 256) 256) as E2.
  pose proof (N.div_mod' (n / 256 / 256 / 256) 256) as E3.
  pose proof (N.mod_upper_bound n 256 ltac:(lia)) as B0.
  pose proof (N.mod_upper_bound (n / 256) 256 ltac:(lia)) as B1.
  pose proof (N.mod_upper_bound (n / 256 / 256) 256 ltac:(lia)) as B2.
  pose proof (N.mod_upper_bound (n / 256 / 256 / 256) 256 ltac:(lia)) as B3.
  generalize dependent (n mod 256)%N.
  generalize dependent (n / 256 mod 256)%N.
  generalize dependent (n / 256 / 256 mod 256)%N.
  generalize dependent (n / 256 / 256 / 256 mod 256)%N.
  generalize dependent (n / 256 / 256 / 256 / 256)%N.
  generalize dependent (n / 256 / 256 / 256)%N.
  generalize dependent (n / 256 / 256)%N.
  generalize dependent (n / 256)%N.
  intros. lia.
Qed.

Lemma byteAt_be32_3 (n : N) (post : list Byte.byte) :
  byteAt (be32 n ++ post) 3 = (n mod 256)%N.
Proof.
  unfold byteAt, be32. cbn [app nth]. apply byteOf_to_N.
  pose proof (N.mod_upper_bound n 256). lia.
Qed.

(** X27: the payload of a window-change request for a grid of
    [cols] by [rows] (each below [2^32]) is read back as [cols] and
    [rows], whatever follows it; the request sets the grid of the
    handler and leaves the manager, and so the capability of the epoch,
    as it is.  A payload is refused exactly when it has fewer than 8
    bytes. *)
Theorem parseWindowChange_reads_payload (cols rows wpx hpx : N)
    (rest : list Byte.byte) (s : Session.t) (m : Manager)
    (username : string) (floorDraw : nat) (o : DetectOutcome)
    (rnd : NewFishRand) :
  (cols < 2 ^ 32)%N -> (rows < 2 ^ 32)%N ->
  let payload := windowChangePayload cols rows wpx hpx ++ rest in
  parseWindowChange payload = Some (cols, rows)
  /\ handleRequest s m (WindowChange payload) username floorDraw o rnd
     = Some (Session.mk (Resize (Session.handler s) cols rows)
                        (Session.running s) (Session.done s), m)
  /\ termColumns (Resize (Session.handler s) cols rows) = Z.of_N cols
  /\ termRows (Resize (Session.handler s) cols rows) = Z.of_N rows
  /\ (forall p, parseWindowChange p = None <-> (length p < 8)%nat).
Proof.
  intros Hc Hr payload.
  assert (E : parseWindowChange payload = Some (cols, rows)).
  { unfold parseWindowChange.
    assert (Hlen : (8 <= length payload)%nat).
    { unfold payload, windowChangePayload.
      rewrite !length_app, !be32_length. lia. }
    destruct (Nat.ltb_spec (length payload) 8) as [E8|_]; [lia|].
    unfold payload, windowChangePayload. rewrite <- !app_assoc.
    f_equal. f_equal.
    - exact (u32At_be32 [] _ cols Hc).
    - exact (u32At_be32 (be32 cols) _ rows Hr). }
  split; [exact E|]. split; [|split; [|split]].
  - unfold handleRequest. rewrite E. reflexivity.
  - unfold Resize, GoInt.of_uint32. cbn [termColumns].
    rewrite N.mod_small by exact Hc. reflexivity.
  - unfold Resize, GoInt.of_uint32. cbn [termRows].
    rewrite N.mod_small by exact Hr. reflexivity.
  - intros p. unfold parseWindowChange.
    destruct (Nat.ltb_spec (length p) 8); split;
      intros; try discriminate; try reflexivity; lia.
Qed.

Lemma parseWindowChange_reads_payload_witness :
  let payload := windowChangePayload 120 40 960 640 ++ [] in
  parseWindowChange payload = Some (120%N, 40%N)
  /\ handleRequest Session.New NewManager (WindowChange payload) "guest" 0
                   TimedOut midRand
     = Some (Session.mk (Resize (Session.handler Session.New) 120 40)
                        (Session.running Session.New)
                        (Session.done Session.New), NewManager)
  /\ termColumns (Resize (Session.handler Session.New) 120 40) = Z.of_N 120
  /\ termRows (Resize (Session.handler Session.New) 120 40) = Z.of_N 40
  /\ (forall p, parseWindowChange p = None <-> (length p < 8)%nat).
Proof.
  apply (parseWindowChange_reads_payload 120 40 960 640 [] Session.New
           NewManager "guest" 0 TimedOut midRand); reflexivity.
Defined.

Lemma ptyReqPayload_parse (term : list Byte.byte) (cols rows wpx hpx : N)
    (modes : list Byte.byte) :
  (length term < 256)%nat -> (cols < 2 ^ 32)%N -> (rows < 2 ^ 32)%N ->
  let payload := ptyReqPayload term cols rows wpx hpx modes in
  byteAt payload 3 = N.of_nat (length term)
  /\ (4 + length term + 16 <= length payload)%nat
  /\ parsePtyRequest payload = Some (cols, rows).
Proof.
  intros Ht Hc Hr payload.
  assert (H3 : byteAt payload 3 = N.of_nat (length term)).
  { unfold payload, ptyReqPayload. rewrite byteAt_be32_3.
    apply N.mod_small. lia. }
  assert (Hlen : (4 + length term + 16 <= length payload)%nat).
  { unfold payload, ptyReqPayload. rewrite !length_app, !be32_length. lia. }
  split; [exact H3|]. split; [exact Hlen|].
  unfold parsePtyRequest. fold payload. rewrite H3, Nat2N.id.
  destruct (Nat.ltb_spec (length payload) 8) as [E|_]; [lia|].
  destruct (Nat.ltb_spec (length payload) (4 + length term + 16)) as [E|_];
    [lia|].
  f_equal. f_equal.
  - unfold payload, ptyReqPayload.
    rewrite (app_assoc (be32 _) term).
    replace (4 + length term)%nat
      with (length (be32 (N.of_nat (length term)) ++ term))
      by (rewrite length_app, be32_length; reflexivity).
    apply u32At_be32, Hc.
  - unfold payload, ptyReqPayload.
    rewrite (app_assoc (be32 _) term), (app_assoc _ (be32 cols)).
    replace (4 + length term + 4)%nat
      with (length ((be32 (N.of_nat (length term)) ++ term) ++ be32 cols))
      by (rewrite !length_app, !be32_length; reflexivity).
    apply u32At_be32, Hr.
Qed.

(** X28: the payload of a PTY request with a terminal name of fewer
    than 252 bytes and a grid of [cols] by [rows] (each below [2^32]) is
    read back as [cols] and [rows], and the request sets the grid of the
    handler to it and leaves the manager as it is. *)
Theorem pty_request_sets_grid (term : list Byte.byte) (cols rows wpx hpx : N)
    (modes : list Byte.byte) (capacity : nat) (s : Session.t) (m : Manager)
    (username : string) (floorDraw : nat) (o : DetectOutcome)
    (rnd : NewFishRand) :
  (length term < 252)%nat -> (cols < 2 ^ 32)%N -> (rows < 2 ^ 32)%N ->
  let payload := ptyReqPayload term cols rows wpx hpx modes in
  (length payload <= capacity)%nat ->
  parsePtyRequest payload = Some (cols, rows)
  /\ handleRequest s m (PtyReq payload capacity) username floorDraw o rnd
     = Some (Session.mk (SetTerminal (Session.handler s) cols rows)
                        (Session.running s) (Session.done s), m)
  /\ termColumns (SetTerminal (Session.handler s) cols rows) = Z.of_N cols
  /\ termRows (SetTerminal (Session.handler s) cols rows) = Z.of_N rows.
Proof.
  intros Ht Hc Hr payload Hcap.
  destruct (ptyReqPayload_parse term cols rows wpx hpx modes
              ltac:(lia) Hc Hr) as (H3 & Hlen & E).
  fold payload in H3, Hlen, E.
  split; [exact E|]. split; [|split].
  - unfold handleRequest. rewrite H3, E.
    destruct (Nat.ltb_spec (length payload) 4) as [E4|_]; [lia|].
    cbv zeta.
    rewrite N.mod_small by lia.
    destruct (N.ltb_spec (4 + N.of_nat (length term)) 4) as [E5|_]; [lia|].
    destruct (N.ltb_spec (N.of_nat capacity) (4 + N.of_nat (length term)))
      as [E6|_]; [lia|].
    reflexivity.
  - unfold SetTerminal, GoInt.of_uint32. cbn [termColumns].
    rewrite N.mod_small by exact Hc. reflexivity.
  - unfold SetTerminal, GoInt.of_uint32. cbn [termRows].
    rewrite N.mod_small by exact Hr. reflexivity.
Qed.

Lemma pty_request_sets_grid_witness :
  let payload := ptyReqPayload xterm 120 40 960 640 [] in
  parsePtyRequest payload = Some (120%N, 40%N)
  /\ handleRequest Session.New NewManager (PtyReq payload 29) "guest" 0
                   TimedOut midRand
     = Some (Session.mk (SetTerminal (Session.handler Session.New) 120 40)
                        (Session.running Session.New)
                        (Session.done Session.New), NewManager)
  /\ termColumns (SetTerminal (Session.handler Session.New) 120 40)
     = Z.of_N 120
  /\ termRows (SetTerminal (Session.handler Session.New) 120 40) = Z.of_N 40.
Proof.
  apply (pty_request_sets_grid xterm 120 40 960 640 [] 29 Session.New
           NewManager "guest" 0 TimedOut midRand);
    [simpl; lia | reflexivity | reflexivity | simpl; lia].
Defined.

(** X29: a PTY request whose payload has fewer than 4 bytes, or
    whose fourth byte is 252 or more (a terminal name of 252 to 255
    bytes, say), makes [handleSession] panic: the fourth byte is read
    without a test of the length, and [4+termLen] is computed on a
    [byte], so that the slice expression has its upper bound below its
    lower bound. *)
Theorem pty_request_panics (payload : list Byte.byte) (capacity : nat)
    (s : Session.t) (m : Manager) (username : string) (floorDraw : nat)
    (o : DetectOutcome) (rnd : NewFishRand) :
  (length payload < 4)%nat \/ (252 <= byteAt payload 3)%N ->
  handleRequest s m (PtyReq payload capacity) username floorDraw o rnd = None.
Proof.
  intros H. unfold handleRequest.
  destruct (Nat.ltb_spec (length payload) 4) as [E|E]; [reflexivity|].
  destruct H as [H|H]; [lia|]. cbv zeta.
  assert (Hb : (byteAt payload 3 <= 255)%N) by apply Byte.to_N_bounded.
  assert (Hm : ((4 + byteAt payload 3) mod 256 < 4)%N).
  { replace (4 + byteAt payload 3)%N
      with (byteAt payload 3 - 252 + 1 * 256)%N by lia.
    rewrite N.Div0.mod_add, N.mod_small by lia. lia. }
  destruct (N.ltb_spec ((4 + byteAt payload 3) mod 256) 4) as [_|E4]; [|lia].
  reflexivity.
Qed.

Lemma pty_request_panics_witness :
  handleRequest Session.New NewManager
                (PtyReq (ptyReqPayload longTermName 80 24 640 384 []) 276)
                "guest" 0 TimedOut midRand = None
  /\ length (ptyReqPayload longTermName 80 24 640 384 []) = 276%nat.
Proof.
  split; [|reflexivity].
  apply (pty_request_panics (ptyReqPayload longTermName 80 24 640 384 []) 276
           Session.New NewManager "guest" 0 TimedOut midRand).
  right. vm_compute. discriminate.
Defined.
